(** * azure-ml-serverless: the blob-triggered ingestion function and the
      /predict API, embedded in Rocq.

    Sources embedded here:
    - [function/function_app.py]: [process_blob] and its helpers
      ([_upload_json], [_chunk_blob_name], [_manifest_blob_name],
      [_write_meta], [_now]);
    - [api/inference.py]: [predict_texts];
    - [api/app.py]: [predict].

    Python [str] values are sequences of Unicode code points, modelled as
    [list N].  The output container is a finite map from blob names to blob
    contents, the bytes written; the clock, the HTTP collaborator and the
    sentiment model are the environment and are passed in as functions. *)

From Stdlib Require Import ZArith NArith Lia String Ascii DecimalString DecimalNat.
From stdpp Require Import gmap list strings.

Local Open Scope nat_scope.
Set Warnings "-register-all".

(** ** Results of calls that may raise *)

(** A value, or the text of the exception raised. *)
Inductive outcome (A : Type) : Type :=
| Ret (a : A)
| Raise (e : list N).

Arguments Ret {A} a.
Arguments Raise {A} e.

(** ** Python strings *)

Module Py.

(** A character is its code point, a string the list of its characters. *)
Abbreviation char := N (only parsing).
Abbreviation text := (list N) (only parsing).

(** A string literal of the source, as a sequence of code points. *)
Definition txt (s : string) : text :=
  map N_of_ascii (list_ascii_of_string s).

Definition chr (n : N) : char := n.

(** [str.isspace] on one code point: the ASCII white space of CPython and
    the Unicode white-space code points. *)
Definition isspace (c : char) : bool :=
  ((9 <=? c) && (c <=? 13) || (28 <=? c) && (c <=? 32)
   || (c =? 133) || (c =? 160) || (c =? 5760)
   || (8192 <=? c) && (c <=? 8202)
   || (c =? 8232) || (c =? 8233) || (c =? 8239) || (c =? 8287)
   || (c =? 12288))%N.

Definition space : char := 32%N.

(** [s.split()] with no argument: the scanner skips white space and cuts a
    word at every white-space character; [cur] is the word being read. *)
Fixpoint split_scan (cur : text) (s : text) : list text :=
  match s with
  | [] => match cur with [] => [] | _ => [cur] end
  | c :: s' =>
      if isspace c
      then match cur with
           | [] => split_scan [] s'
           | _ => cur :: split_scan [] s'
           end
      else split_scan (cur ++ [c]) s'
  end.

Definition split (s : text) : list text := split_scan [] s.

(** [sep.join(words)] *)
Fixpoint join (sep : text) (words : list text) : text :=
  match words with
  | [] => []
  | [w] => w
  | w :: ws => w ++ sep ++ join sep ws
  end.

Fixpoint lstrip_by (p : char -> bool) (s : text) : text :=
  match s with
  | c :: s' => if p c then lstrip_by p s' else s
  | [] => []
  end.

Definition rstrip_by (p : char -> bool) (s : text) : text :=
  rev (lstrip_by p (rev s)).

(** [s.strip()] *)
Definition strip (s : text) : text := rstrip_by isspace (lstrip_by isspace s).

(** [str(n)] for a non-negative integer. *)
Definition str_of_nat (n : nat) : text :=
  txt (NilZero.string_of_uint (Nat.to_uint n)).

(** [f"{n:04d}"] for a non-negative integer: zero-padded to width 4, longer
    numbers are not cut. *)
Definition format_04d (n : nat) : text :=
  let d := str_of_nat n in
  replicate (4 - length d) 48%N ++ d.

(** [str(z)] for an integer. *)
Definition str_of_Z (z : Z) : text :=
  if (z <? 0)%Z then 45%N :: str_of_nat (Z.to_nat (- z))
  else str_of_nat (Z.to_nat z).

(** [s.split("/")[-1]]: what follows the last slash. *)
Fixpoint last_component_from (cur : text) (s : text) : text :=
  match s with
  | [] => cur
  | c :: s' =>
      if (c =? 47)%N then last_component_from [] s'
      else last_component_from (cur ++ [c]) s'
  end.

Definition last_component (s : text) : text := last_component_from [] s.

(** Line boundaries of [str.splitlines]. *)
Definition is_linebreak (c : char) : bool :=
  ((10 <=? c) && (c <=? 13) || (28 <=? c) && (c <=? 30)
   || (c =? 133) || (c =? 8232) || (c =? 8233))%N.

(** [text.splitlines(True)[0] if text else ""]: the first line with its
    terminator; a carriage return followed by a line feed is one
    terminator. *)
Fixpoint first_line (s : text) : text :=
  match s with
  | [] => []
  | c :: s' =>
      if is_linebreak c
      then match s' with
           | c2 :: _ => if ((c =? 13) && (c2 =? 10))%N then [c; c2] else [c]
           | [] => [c]
           end
      else c :: first_line s'
  end.

(** [s.count(c)] for a one-character [c]. *)
Definition count (c : char) (s : text) : nat :=
  length (filter (fun x => x = c) s).

(** The sequence of [range(0, stop, step)]: [None] is the [ValueError] of a
    zero step; a negative step counts down from 0 and yields nothing. *)
Fixpoint range_loop (fuel i stop step : nat) : list nat :=
  match fuel with
  | 0 => []
  | S fuel' =>
      if i <? stop then i :: range_loop fuel' (i + step) stop step else []
  end.

Definition range0 (stop : nat) (step : Z) : option (list nat) :=
  if (step =? 0)%Z then None
  else if (step <? 0)%Z then Some []
  else Some (range_loop stop 0 stop (Z.to_nat step)).

(** [l[i:j]] for non-negative bounds. *)
Definition slice {A : Type} (l : list A) (i j : nat) : list A :=
  drop i (take j l).

(** The ASCII part of [str.lower]: the letters A to Z. *)
Definition ascii_lower (s : text) : text :=
  map (fun c => if ((65 <=? c) && (c <=? 90))%N then (c + 32)%N else c) s.

(** [repr(s)] of a string of printable characters, as those of a URL are:
    in single quotes, or in double quotes when [s] holds a single quote and
    no double quote; the backslash and the enclosing quote are escaped. *)
Definition repr (s : text) : text :=
  let q := (if bool_decide (39 ∈ s) && negb (bool_decide (34 ∈ s)) then 34 else 39)%N in
  [q] ++ concat (map (fun c => if ((c =? q) || (c =? 92))%N then [92%N; c] else [c]) s)
  ++ [q].

Definition hex_digit (n : N) : char :=
  (if n <? 10 then 48 + n else 87 + n)%N.

(** *** [str.encode("utf-8")] *)

(** The code points U+D800 to U+DFFF, which UTF-8 does not encode. *)
Definition is_surrogate (c : char) : bool := ((55296 <=? c) && (c <=? 57343))%N.

(** A string without surrogates. *)
Definition encodable (s : text) : bool := forallb (fun c => negb (is_surrogate c)) s.

(** The bytes of one character (a [str] holds code points below 1114112). *)
Definition utf8_char (c : char) : list N :=
  (if c <? 128 then [c]
   else if c <? 2048 then [192 + c / 64; 128 + c mod 64]
   else if c <? 65536 then [224 + c / 4096; 128 + (c / 64) mod 64; 128 + c mod 64]
   else [240 + c / 262144; 128 + (c / 4096) mod 64; 128 + (c / 64) mod 64;
         128 + c mod 64])%N.

Definition utf8 (s : text) : list N := concat (map utf8_char s).

(** The surrogates a string starts with. *)
Fixpoint surrogate_run (s : text) : nat :=
  match s with
  | c :: s' => if is_surrogate c then S (surrogate_run s') else 0
  | [] => 0
  end.

(** The text of the [UnicodeEncodeError]: it names the first surrogate, met
    at position [pos], or the positions of the run of surrogates that
    starts there. *)
Fixpoint encode_error_from (pos : nat) (s : text) : text :=
  match s with
  | [] => []
  | c :: s' =>
      if is_surrogate c
      then match surrogate_run s' with
           | 0 =>
               txt "UnicodeEncodeError: 'utf-8' codec can't encode character '"
               ++ [92; 117; hex_digit (c / 4096); hex_digit ((c / 256) mod 16);
                   hex_digit ((c / 16) mod 16); hex_digit (c mod 16)]%N
               ++ txt "' in position " ++ str_of_nat pos
               ++ txt ": surrogates not allowed"
           | S n =>
               txt "UnicodeEncodeError: 'utf-8' codec can't encode characters in position "
               ++ str_of_nat pos ++ txt "-" ++ str_of_nat (pos + S n)
               ++ txt ": surrogates not allowed"
           end
      else encode_error_from (S pos) s'
  end.

(** [s.encode("utf-8")]: the bytes, or the [UnicodeEncodeError] of a string
    that holds a surrogate. *)
Definition encode_utf8 (s : text) : outcome (list N) :=
  if encodable s then Ret (utf8 s) else Raise (encode_error_from 0 s).

End Py.

Import Py.

(** ** JSON documents and [json.dumps] *)

Module Json.

(** A Python value that [json.dumps] accepts and [resp.json()] returns.  A
    float carries its [repr], the text [json.dumps] writes for it; an object
    lists its members in insertion order. *)
Inductive json : Type :=
| JNull
| JBool (b : bool)
| JInt (z : Z)
| JFloat (repr : text)
| JStr (s : text)
| JArr (items : list json)
| JObj (members : list (text * json)).

(** The replacement of one character inside a JSON string when
    [ensure_ascii=False]: the quote, the backslash and the control
    characters are escaped, everything else is written as it is. *)
Definition escape_char (c : char) : text :=
  (if c =? 34 then [92; 34]
   else if c =? 92 then [92; 92]
   else if c =? 10 then [92; 110]
   else if c =? 13 then [92; 114]
   else if c =? 9 then [92; 116]
   else if c =? 12 then [92; 102]
   else if c =? 8 then [92; 98]
   else if c <? 32 then [92; 117; 48; 48; hex_digit (c / 16); hex_digit (c mod 16)]
   else [c])%N.

Definition encode_basestring (s : text) : text :=
  [34%N] ++ concat (map escape_char s) ++ [34%N].

(** [json.dumps(obj, ensure_ascii=False)] with the default separators. *)
Fixpoint dumps (j : json) : text :=
  match j with
  | JNull => txt "null"
  | JBool true => txt "true"
  | JBool false => txt "false"
  | JInt z => str_of_Z z
  | JFloat r => r
  | JStr s => encode_basestring s
  | JArr items => txt "[" ++ join (txt ", ") (map dumps items) ++ txt "]"
  | JObj members =>
      txt "{"
      ++ join (txt ", ")
           (map (fun kv => encode_basestring (fst kv) ++ txt ": " ++ dumps (snd kv))
                members)
      ++ txt "}"
  end.

(** [len(v)]: defined on strings, arrays and objects; [None] is the
    [TypeError] of [len] on a number, a boolean or [None]. *)
Definition len (j : json) : option nat :=
  match j with
  | JStr s => Some (length s)
  | JArr items => Some (length items)
  | JObj members => Some (length members)
  | _ => None
  end.

(** [type(v).__name__] *)
Definition type_name (j : json) : text :=
  match j with
  | JNull => txt "NoneType"
  | JBool _ => txt "bool"
  | JInt _ => txt "int"
  | JFloat _ => txt "float"
  | JStr _ => txt "str"
  | JArr _ => txt "list"
  | JObj _ => txt "dict"
  end.

End Json.

Import Json.

(** ** The [csv] module: [Sniffer], [reader], [DictReader] *)

Module Csv.

(** *** [csv.Sniffer().sniff(sample, delimiters)] on a one-line sample *)

Definition is_quote (c : char) : bool := ((c =? 34) || (c =? 39))%N.

Definition has_quote (sample : text) : bool := existsb is_quote sample.

(** [filter(None, data.split('\n'))]: the non-empty lines of the sample. *)
Fixpoint nonempty_lines_from (cur : text) (s : text) : list text :=
  match s with
  | [] => match cur with [] => [] | _ => [cur] end
  | c :: s' =>
      if (c =? 10)%N
      then match cur with
           | [] => nonempty_lines_from [] s'
           | _ => cur :: nonempty_lines_from [] s'
           end
      else nonempty_lines_from (cur ++ [c]) s'
  end.

Definition preferred : list char := [44; 9; 59; 32; 58]%N.

(** The 7-bit characters, in the order [_guess_delimiter] visits them. *)
Definition ascii_chars : list char := map N.of_nat (seq 0 127).

(** The candidates of [_guess_delimiter] on a sample of one line: with one
    line every character has one frequency, met by that line, so the
    consistency test passes at once for each allowed character that occurs;
    [delims] maps each of them to its pair (frequency, 1). *)
Definition line_delims (line : text) (delimiters : list char) : list (char * nat) :=
  omap (fun c =>
          let freq := count c line in
          if (0 <? freq) && bool_decide (c ∈ delimiters) then Some (c, freq) else None)
       ascii_chars.

(** [items.sort(); items[-1][1]] over the pairs (frequency, character). *)
Definition dominant (delims : list (char * nat)) : option char :=
  fst <$>
  foldl (fun best kv =>
           match best with
           | None => Some kv
           | Some b =>
               if (snd b <? snd kv) || ((snd b =? snd kv) && (fst b <? fst kv)%N)
               then Some kv else best
           end) None delims.

(** [_guess_delimiter(data, delimiters)] for a sample of at most one
    non-empty line (the caller passes the first line of the blob). [None]
    is the empty delimiter, on which [sniff] raises [csv.Error]. *)
Definition guess_delimiter (data : text) (delimiters : list char) : option char :=
  match nonempty_lines_from [] data with
  | [] => None
  | line :: _ =>
      match line_delims line delimiters with
      | [] => None
      | [(d, _)] => Some d
      | delims =>
          match List.find (fun d => bool_decide (d ∈ map fst delims)) preferred with
          | Some d => Some d
          | None => dominant delims
          end
      end
  end.

Section Sniffer.

(** [_guess_quote_and_delimiter] is driven by four regular expressions, each
    of which needs a quote character to match; on a sample with a quote
    character its answer is the parameter [quoted_guess], on any other
    sample there is no match and the answer is "no delimiter". *)
Variable quoted_guess : text -> option char.

Definition guess_quote_and_delimiter (data : text) : option char :=
  if has_quote data then quoted_guess data else None.

(** [sniff(sample, delimiters).delimiter]; [None] is [csv.Error]. *)
Definition sniff (sample : text) (delimiters : list char) : option char :=
  match guess_quote_and_delimiter sample with
  | Some d => Some d
  | None => guess_delimiter sample delimiters
  end.

End Sniffer.

(** *** [csv.reader] in the excel dialect with a chosen delimiter *)

Inductive parser_state : Type :=
| START_RECORD | START_FIELD | IN_FIELD | IN_QUOTED_FIELD
| QUOTE_IN_QUOTED_FIELD | EAT_CRNL.

Record reader : Type := mkReader {
  state : parser_state;
  fields : list text;
  field : text
}.

Definition field_limit : N := 131072%N.

Definition quotechar : char := 34%N.

Definition parse_reset : reader := mkReader START_RECORD [] [].

Definition parse_save_field (r : reader) : reader :=
  mkReader (state r) (fields r ++ [field r]) [].

(** [None] is [csv.Error]: field larger than the field limit. *)
Definition parse_add_char (r : reader) (c : char) : option reader :=
  if (field_limit <=? N.of_nat (length (field r)))%N then None
  else Some (mkReader (state r) (fields r) (field r ++ [c])).

Definition set_state (s : parser_state) (r : reader) : reader :=
  mkReader s (fields r) (field r).

Definition is_crlf (c : char) : bool := ((c =? 10) || (c =? 13))%N.

(** One step of the reader's automaton; the character [None] is the end of
    the line, the result [None] is [csv.Error]. The dialect has no escape
    character, does not skip initial spaces, doubles quotes and is not
    strict. *)
Definition parse_process_char (delimiter : char) (r : reader) (c : option char)
  : option reader :=
  let start_field (r : reader) :=
    match c with
    | None => Some (set_state START_RECORD (parse_save_field r))
    | Some ch =>
        if is_crlf ch then Some (set_state EAT_CRNL (parse_save_field r))
        else if (ch =? quotechar)%N then Some (set_state IN_QUOTED_FIELD r)
        else if (ch =? delimiter)%N then Some (parse_save_field r)
        else set_state IN_FIELD <$> parse_add_char r ch
    end in
  match state r with
  | START_RECORD =>
      match c with
      | None => Some r
      | Some ch =>
          if is_crlf ch then Some (set_state EAT_CRNL r)
          else start_field (set_state START_FIELD r)
      end
  | START_FIELD => start_field r
  | IN_FIELD =>
      match c with
      | None => Some (set_state START_RECORD (parse_save_field r))
      | Some ch =>
          if is_crlf ch then Some (set_state EAT_CRNL (parse_save_field r))
          else if (ch =? delimiter)%N
               then Some (set_state START_FIELD (parse_save_field r))
          else parse_add_char r ch
      end
  | IN_QUOTED_FIELD =>
      match c with
      | None => Some r
      | Some ch =>
          if (ch =? quotechar)%N then Some (set_state QUOTE_IN_QUOTED_FIELD r)
          else parse_add_char r ch
      end
  | QUOTE_IN_QUOTED_FIELD =>
      match c with
      | None => Some (set_state START_RECORD (parse_save_field r))
      | Some ch =>
          if (ch =? quotechar)%N
          then set_state IN_QUOTED_FIELD <$> parse_add_char r ch
          else if (ch =? delimiter)%N
               then Some (set_state START_FIELD (parse_save_field r))
          else if is_crlf ch
               then Some (set_state EAT_CRNL (parse_save_field r))
          else set_state IN_FIELD <$> parse_add_char r ch
      end
  | EAT_CRNL =>
      match c with
      | None => Some (set_state START_RECORD r)
      | Some ch => if is_crlf ch then Some r else None
      end
  end.

(** The characters of one line, then the end of line. *)
Fixpoint parse_line (delimiter : char) (r : reader) (line : text) : option reader :=
  match line with
  | [] => parse_process_char delimiter r None
  | c :: line' =>
      match parse_process_char delimiter r (Some c) with
      | Some r' => parse_line delimiter r' line'
      | None => None
      end
  end.

(** What iterating [io.StringIO(text)] yields: the lines, each with its
    line feed. *)
Fixpoint lines_from (cur : text) (s : text) : list text :=
  match s with
  | [] => match cur with [] => [] | _ => [cur] end
  | c :: s' =>
      if (c =? 10)%N then (cur ++ [c]) :: lines_from [] s'
      else lines_from (cur ++ [c]) s'
  end.

(** What the reader yields, record after record, as far as it is consumed:
    [Stop] is [StopIteration], [Error] is a raised [csv.Error]. *)
Inductive records : Type :=
| Stop
| Next (row : list text) (rest : records)
| Error.

Fixpoint read_lines (delimiter : char) (r : reader) (lines : list text) : records :=
  match lines with
  | [] =>
      match field r, state r with
      | [], IN_QUOTED_FIELD | _ :: _, _ => Next (fields (parse_save_field r)) Stop
      | [], _ => Stop
      end
  | line :: lines' =>
      match parse_line delimiter r line with
      | None => Error
      | Some r' =>
          match state r' with
          | START_RECORD => Next (fields r') (read_lines delimiter parse_reset lines')
          | _ => read_lines delimiter r' lines'
          end
      end
  end.

(** [csv.reader(io.StringIO(text), delimiter=delimiter)] *)
Definition csv_reader (s : text) (delimiter : char) : records :=
  read_lines delimiter parse_reset (lines_from [] s).

(** *** [csv.DictReader] *)

(** A row of [DictReader]: the values under the field names (a missing cell
    is [None], the [restval]) and, under the key [None] (the [restkey]), the
    surplus cells of a long record. *)
Record dictrow : Type := mkDict {
  cells : gmap text (option text);
  rest : option (list text)
}.

(** [dict(zip(fieldnames, row))], then the rest key or the rest values. *)
Definition make_dict (fieldnames row : list text) : dictrow :=
  let d := foldl (fun m kv => <[fst kv := Some (snd kv)]> m) ∅ (zip fieldnames row) in
  let lf := length fieldnames in
  let lr := length row in
  if lf <? lr then mkDict d (Some (drop lf row))
  else mkDict (foldl (fun m k => <[k := None]> m) d (drop lr fieldnames)) None.

(** A Python value as the rows hold them. *)
Inductive pyval : Type :=
| PNone
| PStr (s : text)
| PList (l : list text).

Definition truthy (v : pyval) : bool :=
  match v with
  | PNone => false
  | PStr s => negb (bool_decide (s = []))
  | PList l => negb (bool_decide (l = []))
  end.

(** [a or b] *)
Definition py_or (a b : pyval) : pyval := if truthy a then a else b.

(** [r.get(key)]; the key [None] is the rest key. *)
Definition get (r : dictrow) (key : option text) : pyval :=
  match key with
  | Some k =>
      match cells r !! k with
      | Some (Some s) => PStr s
      | _ => PNone
      end
  | None =>
      match rest r with
      | Some l => PList l
      | None => PNone
      end
  end.

End Csv.

Import Csv.

(** ** The HTTP session: [requests] over [urllib3.util.retry.Retry] *)

Module Http.

Inductive method : Type := GET | POST | PUT | DELETE | HEAD | OPTIONS | TRACE | PATCH.

#[export] Instance method_eq_dec : EqDecision method.
Proof. solve_decision. Defined.

(** What one attempt at a request meets. The body of a response is what
    [resp.json()] makes of it: the JSON document, or the text of the
    [JSONDecodeError] for a body that is none. *)
Inductive attempt : Type :=
| ConnectError (msg : text)
| ReadError (msg : text)
| Response (status : nat) (reason : text) (retry_after : bool) (body : outcome json).

(** The fields of [Retry] that decide whether a request is sent again;
    [backoff_factor] only sets the length of the sleeps in between.
    [read = false] is [read=False]. *)
Record Retry : Type := mkRetry {
  total : nat;
  read : bool;
  status_forcelist : list nat;
  allowed_methods : list method
}.

Definition DEFAULT_ALLOWED_METHODS : list method :=
  [HEAD; GET; PUT; DELETE; OPTIONS; TRACE].

Definition RETRY_AFTER_STATUS_CODES : list nat := [413; 429; 503].

(** [Retry(total=4, backoff_factor=0.7, status_forcelist=(429,500,502,503,504))] *)
Definition retries : Retry :=
  mkRetry 4 true [429; 500; 502; 503; 504] DEFAULT_ALLOWED_METHODS.

(** The adapter a session mounts by default: [Retry(0, read=False)]. *)
Definition DEFAULT_RETRIES : Retry := mkRetry 0 false [] DEFAULT_ALLOWED_METHODS.

Definition is_method_retryable (r : Retry) (m : method) : bool :=
  bool_decide (m ∈ allowed_methods r).

(** [Retry.is_retry(method, status_code, has_retry_after)] *)
Definition is_retry (r : Retry) (m : method) (status : nat) (has_retry_after : bool) : bool :=
  if negb (is_method_retryable r m) then false
  else if bool_decide (status ∈ status_forcelist r) then true
  else (0 <? total r) && has_retry_after
       && bool_decide (status ∈ RETRY_AFTER_STATUS_CODES).

(** What the adapter hands back. *)
Inductive sent : Type :=
| Got (status : nat) (reason : text) (body : outcome json)
| Failed (e : text).

Definition max_retries_exceeded (cause : text) : text :=
  txt "Max retries exceeded with url (Caused by " ++ cause ++ txt ")".

Definition too_many_error_responses (status : nat) : text :=
  txt "too many " ++ str_of_nat status ++ txt " error responses".

(** [urlopen] with its retries: attempt number [k] meets [server k]; a
    failure that may be retried costs one of the [left] retries, and the
    request fails for good when none is left. The second component counts
    the attempts made. *)
Fixpoint urlopen (server : nat -> attempt) (r : Retry) (m : method)
    (left : nat) (k : nat) : sent * nat :=
  match server k with
  | ConnectError msg =>
      match left with
      | 0 => (Failed (max_retries_exceeded msg), S k)
      | S left' => urlopen server r m left' (S k)
      end
  | ReadError msg =>
      if read r && is_method_retryable r m
      then match left with
           | 0 => (Failed (max_retries_exceeded msg), S k)
           | S left' => urlopen server r m left' (S k)
           end
      else (Failed msg, S k)
  | Response status reason retry_after body =>
      if is_retry (mkRetry left (read r) (status_forcelist r) (allowed_methods r))
                  m status retry_after
      then match left with
           | 0 => (Failed (max_retries_exceeded (too_many_error_responses status)), S k)
           | S left' => urlopen server r m left' (S k)
           end
      else (Got status reason body, S k)
  end.

Definition startswith (prefix s : text) : bool :=
  bool_decide (take (length prefix) s = prefix).

(** [session.mount("https://", HTTPAdapter(max_retries=retries))] over the
    two adapters a session starts with, the longer prefix first; the
    prefixes are matched against the lowercased url (only the letters A to
    Z lowercase to letters of the prefixes). [None] is [InvalidSchema]. *)
Definition get_adapter (url : text) : option Retry :=
  if startswith (txt "https://") (ascii_lower url) then Some retries
  else if startswith (txt "http://") (ascii_lower url) then Some DEFAULT_RETRIES
  else None.

(** [session.post(url, json=payload, timeout=...)] for a url that names a
    host and an endpoint that answers the request itself: the preparation
    of the request (which refuses a url without scheme or host) and the
    following of redirects are not part of this model. *)
Definition session_post (url : text) (server : nat -> attempt) : sent * nat :=
  match get_adapter url with
  | Some r => urlopen server r POST (total r) 0
  | None => (Failed (txt "No connection adapters were found for " ++ repr url), 0)
  end.

(** The message of the [HTTPError] that [resp.raise_for_status()] raises. *)
Definition http_error_msg (status : nat) (reason url : text) : option text :=
  if (400 <=? status) && (status <? 500)
  then Some (str_of_nat status ++ txt " Client Error: " ++ reason ++ txt " for url: " ++ url)
  else if (500 <=? status) && (status <? 600)
  then Some (str_of_nat status ++ txt " Server Error: " ++ reason ++ txt " for url: " ++ url)
  else None.

(** The body of the [try] of [process_blob]: post, [raise_for_status],
    [resp.json()]; with the number of attempts made. *)
Definition api_call (url : text) (server : nat -> attempt) : outcome json * nat :=
  match session_post url server with
  | (Failed e, n) => (Raise e, n)
  | (Got status reason body, n) =>
      match http_error_msg status reason url with
      | Some msg => (Raise msg, n)
      | None =>
          match body with
          | Ret preds => (Ret preds, n)
          | Raise msg => (Raise msg, n)
          end
      end
  end.

End Http.

(** ** [function/function_app.py] *)

Module FunctionApp.

(** The settings read from the environment when the module is loaded.
    [TIMEOUT_SEC] bounds each call in real time and decides nothing here. *)
Record config : Type := mkConfig {
  API_URL : text;
  CHUNK_SIZE : Z;
  TIMEOUT_SEC : Z
}.

(** Library functions taken as parameters: the lossy UTF-8 decoder
    [bytes.decode("utf-8", errors="replace")], the Unicode case mapping
    [str.lower], and the Sniffer's guess on a sample with quote characters. *)
Record pylib : Type := mkLib {
  decode : list N -> text;
  lower : text -> text;
  quoted_guess : text -> option char
}.

(** The surroundings of one run: the reading of the clock at its [k]-th
    consultation, and what the [k]-th request to the inference API ends in
    (the JSON of the response, or the text of the exception). *)
Record env : Type := mkEnv {
  utcnow_isoformat : nat -> text;
  post : nat -> json -> outcome json
}.

(** The output container (blob names to the bytes of the blobs), and how
    often the clock and the API were used. *)
Record world : Type := mkWorld {
  blobs : gmap text text;
  now_calls : nat;
  post_calls : nat
}.

(** A row as appended to [rows]: [{"id": ..., "text": ...}]. *)
Record row : Type := mkRow {
  row_id : text;
  row_text : text
}.

Definition row_json (r : row) : json :=
  JObj [(txt "id", JStr (row_id r)); (txt "text", JStr (row_text r))].

Definition BOM : char := 65279%N.

Definition candidates : list char := [44; 59; 9; 124]%N.

Definition comma : char := 44%N.

(** [_chunk_blob_name] *)
Definition _chunk_blob_name (input_path_name : text) (chunk_idx : nat) : text :=
  last_component input_path_name ++ txt "." ++ format_04d chunk_idx ++ txt ".json".

(** [_manifest_blob_name] *)
Definition _manifest_blob_name (input_path_name : text) : text :=
  last_component input_path_name ++ txt ".manifest.json".

(** The header resolution of lines 51 to 53. *)
Definition resolve (first second : text) (headers : list text) : option text :=
  if bool_decide (first ∈ headers) then Some first
  else if bool_decide (second ∈ headers) then Some second
  else None.

(** [_tx = r.get(text_key) or r.get("comment") or r.get("message") or ""] *)
Definition source_text (text_key : option text) (r : dictrow) : pyval :=
  py_or (py_or (py_or (get r text_key) (get r (Some (txt "comment"))))
               (get r (Some (txt "message"))))
        (PStr []).

(** [" ".join((_tx or "").split())]; a list has no [split]. *)
Definition collapse (tx : pyval) : outcome text :=
  match py_or tx (PStr []) with
  | PStr s => Ret (join [space] (split s))
  | _ => Raise (txt "AttributeError: 'list' object has no attribute 'split'")
  end.

(** [(r.get(id_key) if id_key else None) or str(len(rows)+1)], as a string. *)
Definition row_identifier (id_key : option text) (r : dictrow) (rows : list row) : text :=
  match (match id_key with Some k => get r (Some k) | None => PNone end) with
  | PStr (c :: s) => c :: s
  | _ => str_of_nat (length rows + 1)
  end.

(** The loop [for r in reader] of lines 56 to 62; [DictReader] passes over
    the empty records. *)
Fixpoint read_rows (fieldnames : list text) (id_key text_key : option text)
    (data : records) (rows : list row) : outcome (list row) :=
  match data with
  | Stop => Ret rows
  | Error => Raise (txt "_csv.Error")
  | Next [] data' => read_rows fieldnames id_key text_key data' rows
  | Next record data' =>
      let r := make_dict fieldnames record in
      let _id := row_identifier id_key r rows in
      match collapse (source_text text_key r) with
      | Raise e => Raise e
      | Ret [] => read_rows fieldnames id_key text_key data' rows
      | Ret _tx => read_rows fieldnames id_key text_key data' (rows ++ [mkRow _id _tx])
      end
  end.

Section Run.

Variable L : pylib.
Variable cfg : config.
Variable E : env.

(** Computations over the world that may raise. *)
Definition M (A : Type) : Type := world -> outcome A * world.

Definition ret {A} (a : A) : M A := fun w => (Ret a, w).

Definition raise {A} (e : text) : M A := fun w => (Raise e, w).

Definition bind {A B} (m : M A) (f : A -> M B) : M B :=
  fun w =>
    match m w with
    | (Ret a, w') => f a w'
    | (Raise e, w') => (Raise e, w')
    end.

#[local] Instance M_ret : MRet M := @ret.
#[local] Instance M_bind : MBind M := fun A B f m => bind m f.

(** [_now] *)
Definition _now : M text :=
  fun w =>
    (Ret (utcnow_isoformat E (now_calls w) ++ txt "Z"),
     mkWorld (blobs w) (S (now_calls w)) (post_calls w)).

(** [_upload_json]: the document and a line feed, encoded as UTF-8 and
    written over whatever the name held; a document that cannot be encoded
    raises before anything is written. *)
Definition _upload_json (blob_name : text) (obj : json) : M unit :=
  fun w =>
    match encode_utf8 (dumps obj ++ [10%N]) with
    | Ret data =>
        (Ret tt, mkWorld (<[blob_name := data]> (blobs w)) (now_calls w) (post_calls w))
    | Raise e => (Raise e, w)
    end.

(** [_write_meta] *)
Definition _write_meta (input_path_name : text) (obj : json) : M unit :=
  _upload_json (_manifest_blob_name input_path_name) obj.

(** The [try] of lines 74 to 77, with the exception caught as a value. *)
Definition try_post (payload : json) : M (outcome json) :=
  fun w =>
    (Ret (post E (post_calls w) payload),
     mkWorld (blobs w) (now_calls w) (S (post_calls w))).

(** [len(preds)] *)
Definition len_preds (preds : json) : M nat :=
  match len preds with
  | Some n => ret n
  | None =>
      raise (txt "TypeError: object of type '" ++ type_name preds ++ txt "' has no len()")
  end.

Definition batch_at (rows : list row) (i : nat) : list row :=
  slice rows i (i + Z.to_nat (CHUNK_SIZE cfg)).

(** The loop of lines 71 to 96 over the starting indices [starts]. *)
Fixpoint dispatch_loop (name : text) (rows : list row) (starts : list nat)
    (chunk_idx total_preds : nat) : M (nat * nat) :=
  match starts with
  | [] => ret (chunk_idx, total_preds)
  | i :: starts' =>
      let batch := batch_at rows i in
      let payload := JObj [(txt "items", JArr (map row_json batch))] in
      r ← try_post payload;
      match r with
      | Raise e =>
          at_ ← _now;
          _upload_json (_chunk_blob_name name chunk_idx)
            (JObj [(txt "error", JStr (txt "api_call_failed: " ++ e));
                   (txt "chunk_index", JInt (Z.of_nat chunk_idx));
                   (txt "at", JStr at_)]);;
          dispatch_loop name rows starts' (chunk_idx + 1) total_preds
      | Ret preds =>
          processed_at ← _now;
          _upload_json (_chunk_blob_name name chunk_idx)
            (JObj [(txt "chunk_index", JInt (Z.of_nat chunk_idx));
                   (txt "chunk_size", JInt (Z.of_nat (length batch)));
                   (txt "predictions", preds);
                   (txt "processed_at", JStr processed_at)]);;
          n ← len_preds preds;
          dispatch_loop name rows starts' (chunk_idx + 1) (total_preds + n)
      end
  end.

(** Lines 31 to 34: decode, drop the byte order marks at the front. *)
Definition read_text (raw : list N) : text :=
  let t := decode L raw in
  match t with
  | c :: _ => if (c =? BOM)%N then lstrip_by (fun c => (c =? BOM)%N) t else t
  | [] => t
  end.

(** Lines 36 to 42. *)
Definition detect_delimiter (t : text) : char :=
  match sniff (quoted_guess L) (first_line t) candidates with
  | Some d => d
  | None => comma
  end.

Definition no_header : json := JObj [(txt "error", JStr (txt "no_header"))].

Definition no_valid_rows : json :=
  JObj [(txt "input_rows", JInt 0); (txt "predictions", JArr []);
        (txt "note", JStr (txt "no_valid_rows"))].

Definition manifest (name : text) (rows : list row) (chunk_idx total_preds : nat)
    (completed_at : text) : json :=
  JObj [(txt "file", JStr name);
        (txt "total_rows", JInt (Z.of_nat (length rows)));
        (txt "total_chunks", JInt (Z.of_nat chunk_idx));
        (txt "total_predictions", JInt (Z.of_nat total_preds));
        (txt "completed_at", JStr completed_at)].

(** Lines 68 to 107: the rows are there, dispatch them and write the
    manifest. *)
Definition dispatch_all (name : text) (rows : list row) : M unit :=
  match range0 (length rows) (CHUNK_SIZE cfg) with
  | None => raise (txt "ValueError: range() arg 3 must not be zero")
  | Some starts =>
      totals ← dispatch_loop name rows starts 0 0;
      completed_at ← _now;
      _upload_json (_manifest_blob_name name)
        (manifest name rows (fst totals) (snd totals) completed_at)
  end.

(** Lines 45 to 62: [Ret None] is the missing header, otherwise the rows. *)
Definition parse (t : text) : outcome (option (list row)) :=
  match csv_reader t (detect_delimiter t) with
  | Error => Raise (txt "_csv.Error")
  | Stop | Next [] _ => Ret None
  | Next fieldnames data =>
      let headers := map (fun h => lower L (strip h)) fieldnames in
      let id_key := resolve (txt "id") (txt "tweet_id") headers in
      let text_key := resolve (txt "text") (txt "tweet") headers in
      match read_rows fieldnames id_key text_key data [] with
      | Raise e => Raise e
      | Ret rows => Ret (Some rows)
      end
  end.

(** [process_blob] on a blob of the given name and bytes. *)
Definition process_blob (name : text) (raw : list N) : M unit :=
  match parse (read_text raw) with
  | Raise e => raise e
  | Ret None => _write_meta name no_header
  | Ret (Some []) => _write_meta name no_valid_rows
  | Ret (Some rows) => dispatch_all name rows
  end.

End Run.

(** The world a run starts from: the container as it is, nothing used. *)
Definition start (container : gmap text text) : world := mkWorld container 0 0.

(** The environment whose API is reached through the HTTP session:
    [server k payload] is the behaviour of the endpoint during request [k]. *)
Definition http_env (cfg : config) (clock : nat -> text)
    (server : nat -> json -> nat -> Http.attempt) : env :=
  mkEnv clock (fun k payload => fst (Http.api_call (API_URL cfg) (server k payload))).

End FunctionApp.

(** ** [api/inference.py] and [api/app.py] *)

Module Api.

Section Model.

(** The floats of the scores, with [0.0]; [float(x)] of a float is [x]. *)
Variable score : Type.
Variable zero : score.

(** [str.lower] *)
Variable lower : text -> text.

(** One output of the sentiment pipeline, a dict that may lack either key. *)
Record output : Type := mkOutput {
  label : option text;
  out_score : option score
}.

(** One entry of what [predict_texts] returns. *)
Record result : Type := mkResult {
  result_text : text;
  sentiment_label : text;
  sentiment_score : score;
  processed_at : text
}.

(** [Item] of the request. *)
Record Item : Type := mkItem {
  id : text;
  text_ : text
}.

(** One entry of the response of [/predict]. *)
Record enriched : Type := mkEnriched {
  e_id : text;
  e_text : text;
  e_sentiment_label : text;
  e_sentiment_score : score;
  e_processed_at : text
}.

(** The model behind [_get_pipeline()] and the clock: reading number [k]. *)
Variable nlp : list text -> list output.
Variable utcnow_isoformat : nat -> text.

(** [out.get(key, default)] *)
Definition get_default {A} (o : option A) (default : A) : A :=
  match o with Some v => v | None => default end.

(** The body of the loop of [predict_texts]. *)
Definition make_result (ts : text) (p : text * output) : result :=
  mkResult (fst p)
           (lower (get_default (label (snd p)) (txt "NEUTRAL")))
           (get_default (out_score (snd p)) zero)
           ts.

(** [predict_texts]; [clock] counts the readings of the clock so far. *)
Definition predict_texts (texts : list text) (clock : nat) : list result * nat :=
  let outputs := nlp texts in
  let ts := utcnow_isoformat clock ++ txt "Z" in
  (map (make_result ts) (zip texts outputs), S clock).

(** The body of the loop of [predict]. *)
Definition enrich (p : Item * result) : enriched :=
  mkEnriched (id (fst p)) (text_ (fst p))
             (sentiment_label (snd p)) (sentiment_score (snd p))
             (processed_at (snd p)).

(** [predict] *)
Definition predict (items : list Item) (clock : nat) : list enriched * nat :=
  let texts := map text_ items in
  let (preds, clock') := predict_texts texts clock in
  (map enrich (zip items preds), clock').

End Model.

End Api.

(** ** Definitions used to state the properties *)

(** A library instance for ASCII blobs without quote characters in their
    first line: bytes are their own code points, and the Sniffer's guess on
    a sample with quote characters is never asked for. *)
Definition ascii_lib : FunctionApp.pylib :=
  FunctionApp.mkLib (fun raw => raw) ascii_lower (fun _ => None).

(** The batches of a run: [rows[i:i+CHUNK_SIZE]] for [i] in
    [range(0, len(rows), CHUNK_SIZE)]. *)
Definition batches (cfg : FunctionApp.config) (rows : list FunctionApp.row)
  : option (list (list FunctionApp.row)) :=
  map (FunctionApp.batch_at cfg rows) <$> range0 (length rows) (FunctionApp.CHUNK_SIZE cfg).

Definition three_rows : list FunctionApp.row :=
  [FunctionApp.mkRow (txt "1") (txt "a"); FunctionApp.mkRow (txt "2") (txt "b");
   FunctionApp.mkRow (txt "3") (txt "c")].

Definition cfg2 : FunctionApp.config :=
  FunctionApp.mkConfig (txt "https://api.example/predict") 2 120.

(** *** Row parser: the words of the specification *)

(** Every maximal run of white space replaced by one space. *)
Fixpoint squeeze (s : text) : text :=
  match s with
  | [] => []
  | c :: s' =>
      if isspace c
      then match s' with
           | c' :: _ => if isspace c' then squeeze s' else space :: squeeze s'
           | [] => [space]
           end
      else c :: squeeze s'
  end.

(** White-space collapsed text: leading and trailing white space removed,
    every remaining run of white space replaced by one space. *)
Definition collapse_whitespace (s : text) : text := squeeze (strip s).

(** The rows [DictReader] yields from the records after the header, up to
    the end of the input. *)
Fixpoint data_rows (fieldnames : list text) (data : records) : list dictrow :=
  match data with
  | Stop | Error => []
  | Next [] data' => data_rows fieldnames data'
  | Next record data' => make_dict fieldnames record :: data_rows fieldnames data'
  end.

(** The source value of a row's text, when it is a string. *)
Definition source_string (text_key : option text) (r : dictrow) : text :=
  match FunctionApp.source_text text_key r with
  | PStr s => s
  | _ => []
  end.

(** The rows whose collapsed text is not empty. *)
Definition accepted (text_key : option text) (rs : list dictrow) : list dictrow :=
  filter (fun r => collapse_whitespace (source_string text_key r) <> []) rs.

(** The header names as line 51 normalizes them. *)
Definition normalized (L : FunctionApp.pylib) (fieldnames : list text) : list text :=
  map (fun h => FunctionApp.lower L (strip h)) fieldnames.

(** The normalized header names of a text, as [process_blob] reads them. *)
Definition header_names (L : FunctionApp.pylib) (t : text) : list text :=
  match csv_reader t (FunctionApp.detect_delimiter L t) with
  | Next fieldnames _ => normalized L fieldnames
  | _ => []
  end.

(** The rows after the header of a text, as [DictReader] yields them. *)
Definition dict_rows (L : FunctionApp.pylib) (t : text) : list dictrow :=
  match csv_reader t (FunctionApp.detect_delimiter L t) with
  | Next fieldnames data => data_rows fieldnames data
  | _ => []
  end.

(** The text key that lines 51 and 53 resolve. *)
Definition text_key_of (L : FunctionApp.pylib) (t : text) : option text :=
  FunctionApp.resolve (txt "text") (txt "tweet") (header_names L t).

Definition nl : text := [10%N].

(** A small file with an [id] and a [text] column; the second row has only
    white space for text. *)
Definition sample_id_text : text :=
  txt "id,text" ++ nl ++ txt "7,hello   world " ++ nl ++ txt "8,  " ++ nl
  ++ txt "9,bye" ++ nl.

(** A small file without an identifier column. *)
Definition sample_text_only : text :=
  txt "text;lang" ++ nl ++ txt "first;en" ++ nl ++ txt " ;en" ++ nl
  ++ txt "third;en" ++ nl.

(** *** Blob names *)

(** The number a string of decimal digits reads as. *)
Fixpoint digits_value (acc : nat) (s : text) : nat :=
  match s with
  | [] => acc
  | c :: s' => digits_value (10 * acc + N.to_nat (c - 48)) s'
  end.

Definition is_digit (c : char) : Prop := (48 <= c <= 57)%N.


(** *** Artifacts of a run *)

(** The request body of a batch: [{"items": batch}]. *)
Definition payload_of (batch : list FunctionApp.row) : json :=
  JObj [(txt "items", JArr (map FunctionApp.row_json batch))].

(** The Failure artifact: [{error, chunk_index, at}]. *)
Definition failure_document (reason : text) (chunk_index : nat) (at_ : text) : json :=
  JObj [(txt "error", JStr reason);
        (txt "chunk_index", JInt (Z.of_nat chunk_index));
        (txt "at", JStr at_)].

(** The Success artifact: [{chunk_index, chunk_size, predictions, processed_at}]. *)
Definition success_document (chunk_index chunk_size : nat) (preds : json)
    (processed_at : text) : json :=
  JObj [(txt "chunk_index", JInt (Z.of_nat chunk_index));
        (txt "chunk_size", JInt (Z.of_nat chunk_size));
        (txt "predictions", preds);
        (txt "processed_at", JStr processed_at)].

(** The reading of the clock that [_now] returns at its [k]-th call. *)
Definition now_at (E : FunctionApp.env) (k : nat) : text :=
  FunctionApp.utcnow_isoformat E k ++ txt "Z".

(** The artifact of batch number [j], from what request number [j] ends in. *)
Definition chunk_document (E : FunctionApp.env) (j : nat) (batch : list FunctionApp.row)
  : json :=
  match FunctionApp.post E j (payload_of batch) with
  | Raise e => failure_document (txt "api_call_failed: " ++ e) j (now_at E j)
  | Ret preds => success_document j (length batch) preds (now_at E j)
  end.

(** The predictions batch number [j] adds to the total: those of a
    successful request, none for a failed one. *)
Definition prediction_count (E : FunctionApp.env) (j : nat) (batch : list FunctionApp.row)
  : nat :=
  match FunctionApp.post E j (payload_of batch) with
  | Raise _ => 0
  | Ret preds => default 0 (len preds)
  end.

(** The bytes of a blob holding a document: the document on one line and a
    line feed, in UTF-8. *)
Definition blob_of (doc : json) : list N := utf8 (dumps doc ++ [10%N]).

(** Every response body the API answers a request with has a length. *)
Definition sized_responses (E : FunctionApp.env) : Prop :=
  forall k p preds, FunctionApp.post E k p = Ret preds -> len preds <> None.

(** Nothing the clock shows and nothing a request ends in, response body
    or error text, holds a surrogate: each can be encoded as UTF-8. *)
Definition encodable_readings (E : FunctionApp.env) : Prop :=
  (forall k, encodable (FunctionApp.utcnow_isoformat E k) = true)
  /\ (forall k p preds, FunctionApp.post E k p = Ret preds -> encodable (dumps preds) = true)
  /\ (forall k p e, FunctionApp.post E k p = Raise e -> encodable e = true).

(** One prediction, the same for every item. *)
Definition a_prediction : json :=
  JObj [(txt "sentiment_label", JStr (txt "positive"));
        (txt "sentiment_score", JFloat (txt "0.98"))].

(** The answer of an API that predicts the same for every item sent. *)
Definition labels_for (p : json) : json :=
  match p with
  | JObj [(_, JArr items)] => JArr (map (fun _ => a_prediction) items)
  | _ => JArr []
  end.

(** An API whose second request (number 1) fails and whose other requests
    answer one prediction per item sent. *)
Definition env_second_fails : FunctionApp.env :=
  FunctionApp.mkEnv
    (fun k => txt "2024-05-01T10:00:0" ++ str_of_nat k)
    (fun k p =>
       if k =? 1 then Raise (txt "500 Server Error") else Ret (labels_for p)).

(** An API whose first request fails and whose later requests are answered
    with status 200 and the body [5]. *)
Definition env_fails_then_number : FunctionApp.env :=
  FunctionApp.mkEnv
    (fun k => txt "2024-05-01T10:00:0" ++ str_of_nat k)
    (fun k p => if k =? 0 then Raise (txt "500 Server Error") else Ret (JInt 5)).

(** An API whose first request fails and whose later requests are answered
    with status 200 and an array that holds a lone surrogate, as
    [resp.json()] returns it for a body with an escaped unpaired
    surrogate. *)
Definition env_fails_then_surrogate : FunctionApp.env :=
  FunctionApp.mkEnv
    (fun k => txt "2024-05-01T10:00:0" ++ str_of_nat k)
    (fun k p =>
       if k =? 0 then Raise (txt "500 Server Error") else Ret (JArr [JStr [55296%N]])).

Definition sample_name : text := txt "input/tweets.csv".

(** A file of five usable rows (and one without text), with its rows and
    its batches of two. *)
Definition sample_five : text :=
  txt "id,text" ++ nl ++ txt "a,one" ++ nl ++ txt "b,two" ++ nl ++ txt "x," ++ nl
  ++ txt "c,three" ++ nl ++ txt "d,four" ++ nl ++ txt "e,five" ++ nl.

Definition five_rows : list FunctionApp.row :=
  [FunctionApp.mkRow (txt "a") (txt "one"); FunctionApp.mkRow (txt "b") (txt "two");
   FunctionApp.mkRow (txt "c") (txt "three"); FunctionApp.mkRow (txt "d") (txt "four");
   FunctionApp.mkRow (txt "e") (txt "five")].

Definition five_batches : list (list FunctionApp.row) :=
  [[FunctionApp.mkRow (txt "a") (txt "one"); FunctionApp.mkRow (txt "b") (txt "two")];
   [FunctionApp.mkRow (txt "c") (txt "three"); FunctionApp.mkRow (txt "d") (txt "four")];
   [FunctionApp.mkRow (txt "e") (txt "five")]].


(** The container after a run that started on the container [c]. *)
Definition output (L : FunctionApp.pylib) (cfg : FunctionApp.config) (E : FunctionApp.env)
    (name : text) (raw : list N) (c : gmap text text) : gmap text text :=
  FunctionApp.blobs (snd (FunctionApp.process_blob L cfg E name raw (FunctionApp.start c))).

(** The names under which a run writes, from the input alone. *)
Definition output_keys (L : FunctionApp.pylib) (cfg : FunctionApp.config)
    (name : text) (raw : list N) : gset text :=
  match FunctionApp.parse L (FunctionApp.read_text L raw) with
  | Raise _ => ∅
  | Ret None | Ret (Some []) => {[ FunctionApp._manifest_blob_name name ]}
  | Ret (Some rows) =>
      match batches cfg rows with
      | None => ∅
      | Some bs =>
          {[ FunctionApp._manifest_blob_name name ]}
          ∪ list_to_set (FunctionApp._chunk_blob_name name <$> seq 0 (length bs))
      end
  end.

(** Two environments that show the same clock readings and the same API
    results. *)
Definition same_readings (E1 E2 : FunctionApp.env) : Prop :=
  (forall k, FunctionApp.utcnow_isoformat E1 k = FunctionApp.utcnow_isoformat E2 k)
  /\ (forall k p, FunctionApp.post E1 k p = FunctionApp.post E2 k p).

(** Two runs a day apart, the API answering an empty array each time. *)
Definition env_day1 : FunctionApp.env :=
  FunctionApp.mkEnv (fun _ => txt "2024-05-01T10:00:00") (fun _ _ => Ret (JArr [])).

Definition env_day2 : FunctionApp.env :=
  FunctionApp.mkEnv (fun _ => txt "2024-05-02T10:00:00") (fun _ _ => Ret (JArr [])).

(** A run that meets what the run of the first day met. *)
Definition env_day1_again : FunctionApp.env :=
  FunctionApp.mkEnv (fun _ => txt "2024-05-01T10:00:00") (fun _ _ => Ret (JArr [])).

Definition sample_one_row : text := txt "text" ++ nl ++ txt "hello" ++ nl.

(** *** Delimiter detection: the words of the specification *)

(** [line.split(d)] for a one-character separator. *)
Fixpoint split_on (d : char) (cur : text) (line : text) : list text :=
  match line with
  | [] => [cur]
  | c :: line' =>
      if (c =? d)%N then cur :: split_on d [] line' else split_on d (cur ++ [c]) line'
  end.

(** The first candidate, in the order the candidates are listed, that
    splits the line into more than one field; the comma when none does. *)
Definition claimed_delimiter (line : text) : char :=
  default FunctionApp.comma
    (List.find (fun d => 1 <? length (split_on d [] line)) FunctionApp.candidates).

(** The candidates in the order the Sniffer prefers them: comma, tab,
    semicolon, then the bar. *)
Definition sniffer_order : list char := [44; 9; 59; 124]%N.

(** The first candidate, in the Sniffer's order, that occurs in the line;
    the comma when none does. *)
Definition first_occurring (line : text) : char :=
  default FunctionApp.comma
    (List.find (fun d => bool_decide (d ∈ line)) sniffer_order).

Definition tab : text := [9%N].

(** *** The API: a model that labels everything POSITIVE, a fixed clock *)

Definition always_positive (texts : list text) : list (Api.output nat) :=
  map (fun _ => Api.mkOutput nat (Some (txt "POSITIVE")) (Some 1)) texts.

Definition fixed_clock (k : nat) : text := txt "2024-05-01T10:00:0" ++ str_of_nat k.

(** An API that answers every request with the number 5. *)
Definition env_number : FunctionApp.env :=
  FunctionApp.mkEnv fixed_clock (fun k p => Ret (JInt 5)).

(** An API whose answers hold a lone surrogate. *)
Definition env_surrogate : FunctionApp.env :=
  FunctionApp.mkEnv fixed_clock (fun k p => Ret (JArr [JStr [55296%N]])).

(** *** Behaviours of the inference endpoint *)

(** Status 503 on the first three attempts, then 200 with an empty array. *)
Definition busy_three_times (k : nat) : Http.attempt :=
  if k <? 3
  then Http.Response 503 (txt "Service Unavailable") false
         (Raise (txt "Expecting value: line 1 column 1 (char 0)"))
  else Http.Response 200 (txt "OK") false (Ret (JArr [])).

(** The connection is refused at every attempt. *)
Definition always_refused (k : nat) : Http.attempt :=
  Http.ConnectError (txt "Connection refused").

Definition api_url : text := txt "https://api.example/predict".

Definition quote : text := [34%N].

(** Five rows in batches of one, the request for batch 2 failing. *)
Definition cfg1 : FunctionApp.config :=
  FunctionApp.mkConfig (txt "https://api.example/predict") 1 120.

Definition env_third_fails : FunctionApp.env :=
  FunctionApp.mkEnv
    fixed_clock
    (fun k p =>
       if k =? 2 then Raise (txt "500 Server Error: Internal Server Error")
       else match p with
            | JObj [(_, JArr items)] => Ret (JArr items)
            | _ => Ret (JArr [])
            end).

(** ** Further definitions used to state properties *)

(** The header names as the file writes them. *)
Definition raw_header (L : FunctionApp.pylib) (t : text) : list text :=
  match csv_reader t (FunctionApp.detect_delimiter L t) with
  | Next fieldnames _ => fieldnames
  | _ => []
  end.

(** The identifier key that lines 51 and 52 resolve. *)
Definition id_key_of (L : FunctionApp.pylib) (t : text) : option text :=
  FunctionApp.resolve (txt "id") (txt "tweet_id") (header_names L t).

(** A word of a split: not empty, without white space. *)
Definition is_word (w : text) : Prop :=
  w <> [] /\ Forall (fun c => isspace c = false) w.

(** An API that answers every request with one prediction per item sent. *)
Definition env_labels : FunctionApp.env :=
  FunctionApp.mkEnv fixed_clock (fun k p => Ret (labels_for p)).

(** An API that answers every request with the items sent. *)
Definition env_echo : FunctionApp.env :=
  FunctionApp.mkEnv
    fixed_clock
    (fun k p =>
       match p with
       | JObj [(_, JArr items)] => Ret (JArr items)
       | _ => Ret (JArr [])
       end).

Definition cfg_zero : FunctionApp.config :=
  FunctionApp.mkConfig (txt "https://api.example/predict") 0 120.

Definition cfg_negative : FunctionApp.config :=
  FunctionApp.mkConfig (txt "https://api.example/predict") (-3) 120.

(** A header in capitals. *)
Definition sample_capitals : text := txt "ID,Text" ++ nl ++ txt "7,hello" ++ nl.

(** No text column, and a second row with a cell too many. *)
Definition sample_long_row : text :=
  txt "id,lang" ++ nl ++ txt "1,en" ++ nl ++ txt "2,en,extra" ++ nl.

(** What a run raises on a row whose text is a list. *)
Definition attribute_error : text :=
  txt "AttributeError: 'list' object has no attribute 'split'".

(** What a run raises on a response without length. *)
Definition type_error (preds : json) : text :=
  txt "TypeError: object of type '" ++ type_name preds ++ txt "' has no len()".

(** Every request about a batch is answered with as many predictions as
    the batch has rows. *)
Definition one_prediction_per_row (E : FunctionApp.env) : Prop :=
  forall k batch,
    exists preds, FunctionApp.post E k (payload_of batch) = Ret preds
                  /\ len preds = Some (length batch).

(** *** The process of the API: the lazily loaded model, for requests
    handled one at a time *)

Module Process.

Section Process.

Variable score : Type.
Variable zero : score.
Variable lower : text -> text.

(** What [pipeline(task="sentiment-analysis", model=...)] builds. *)
Variable pipeline : list text -> list (Api.output score).

Variable utcnow_isoformat : nat -> text.

(** The state of the process: the global [_nlp], how often the model was
    built, and how often the clock was read. *)
Record process : Type := mkProcess {
  _nlp : option (list text -> list (Api.output score));
  loads : nat;
  clock : nat
}.

(** [_get_pipeline] *)
Definition _get_pipeline (st : process)
  : (list text -> list (Api.output score)) * process :=
  match _nlp st with
  | None => (pipeline, mkProcess (Some pipeline) (S (loads st)) (clock st))
  | Some nlp => (nlp, st)
  end.

(** [predict] in a process: the model comes from [_get_pipeline]. *)
Definition predict (items : list Api.Item) (st : process)
  : list (Api.enriched score) * process :=
  let (nlp, st1) := _get_pipeline st in
  let (response, clock') :=
    Api.predict score zero lower nlp utcnow_isoformat items (clock st1) in
  (response, mkProcess (_nlp st1) (loads st1) clock').

(** The requests of a process that handles them one at a time, each
    finished before the next begins, in the order it handles them.
    Requests that overlap in time are not described by this function. *)
Fixpoint serve (requests : list (list Api.Item)) (st : process)
  : list (list (Api.enriched score)) * process :=
  match requests with
  | [] => ([], st)
  | items :: requests' =>
      let (response, st1) := predict items st in
      let (responses, st2) := serve requests' st1 in
      (response :: responses, st2)
  end.

End Process.

End Process.

Definition three_items : list Api.Item :=
  [Api.mkItem (txt "a") (txt "good"); Api.mkItem (txt "b") (txt "fine");
   Api.mkItem (txt "c") (txt "bad")].

(** No float of the document is written with a line feed (the [repr] of a
    Python float never has one). *)
Fixpoint floats_on_one_line (j : json) : bool :=
  match j with
  | JFloat r => negb (bool_decide (10%N ∈ r))
  | JArr items => forallb floats_on_one_line items
  | JObj members => forallb (fun kv => floats_on_one_line (snd kv)) members
  | _ => true
  end.

(** ** The definitions on small inputs *)

Example split_join_example :
  join [space] (split (txt "  hello " ++ nl ++ tab ++ txt "big   world ")) = txt "hello big world".
Proof. reflexivity. Qed.

Example strip_example : strip (txt "  Tweet_ID " ++ nl) = txt "Tweet_ID".
Proof. reflexivity. Qed.

Example format_04d_examples :
  format_04d 7 = txt "0007" /\ format_04d 123 = txt "0123" /\ format_04d (123 * 100) = txt "12300".
Proof. repeat split; reflexivity. Qed.

Example blob_names_example :
  FunctionApp._chunk_blob_name (txt "input/myfile.csv") 0 = txt "myfile.csv.0000.json"
  /\ FunctionApp._manifest_blob_name (txt "input/myfile.csv") = txt "myfile.csv.manifest.json".
Proof. split; reflexivity. Qed.

Example first_line_example :
  first_line (txt "a;b" ++ [13; 10]%N ++ txt "1;2") = txt "a;b" ++ [13; 10]%N
  /\ first_line [] = [].
Proof. split; reflexivity. Qed.

Example range0_examples :
  range0 5 2 = Some [0; 2; 4] /\ range0 4 2 = Some [0; 2]
  /\ range0 5 0 = None /\ range0 5 (-1) = Some [].
Proof. repeat split; reflexivity. Qed.

Example dumps_example :
  dumps (JObj [(txt "error", JStr (txt "no_header"))])
  = txt "{" ++ quote ++ txt "error" ++ quote ++ txt ": " ++ quote ++ txt "no_header"
    ++ quote ++ txt "}"
  /\ dumps (JArr [JInt 1; JInt (-2); JNull; JBool true]) = txt "[1, -2, null, true]"
  /\ dumps (JStr (txt "a" ++ nl ++ quote)) = quote ++ txt "a\n" ++ [92%N] ++ quote ++ quote.
Proof. repeat split; reflexivity. Qed.

Example utf8_examples :
  utf8 [233; 8364; 128512; 10]%N = [195; 169; 226; 130; 172; 240; 159; 152; 128; 10]%N
  /\ encode_utf8 (txt "abc") = Ret (txt "abc")
  /\ encode_utf8 (txt "a" ++ [55296%N] ++ txt "b")
     = Raise (txt "UnicodeEncodeError: 'utf-8' codec can't encode character '" ++ [92%N]
              ++ txt "ud800' in position 1: surrogates not allowed")
  /\ encode_utf8 [55296; 55297; 55298]%N
     = Raise (txt "UnicodeEncodeError: 'utf-8' codec can't encode characters in position 0-2: surrogates not allowed").
Proof. repeat split; reflexivity. Qed.

(** A Success document whose predictions hold a lone surrogate is not
    stored. *)
Example upload_surrogate_example :
  FunctionApp._upload_json (txt "a.json")
    (success_document 0 2 (JArr [JStr [55296%N]]) (txt "2024-05-01T10:00:00Z"))
    (FunctionApp.start ∅)
  = (Raise (txt "UnicodeEncodeError: 'utf-8' codec can't encode character '" ++ [92%N]
            ++ txt "ud800' in position 53: surrogates not allowed"),
     FunctionApp.start ∅).
Proof. vm_compute. reflexivity. Qed.

Example repr_examples :
  repr (txt "ftp://x") = txt "'ftp://x'"
  /\ repr (txt "https://a'b") = quote ++ txt "https://a'b" ++ quote
  /\ repr (txt "a" ++ [92%N] ++ txt "b") = txt "'a" ++ [92; 92]%N ++ txt "b'".
Proof. repeat split; reflexivity. Qed.

Example get_adapter_examples :
  Http.get_adapter (txt "HTTPS://api.example/predict") = Some Http.retries
  /\ Http.get_adapter (txt "http://localhost:8000/predict") = Some Http.DEFAULT_RETRIES
  /\ Http.get_adapter (txt "ftp://x") = None.
Proof. repeat split; reflexivity. Qed.

Example claimed_delimiter_examples :
  claimed_delimiter (txt "a;b;c") = 59%N /\ claimed_delimiter (txt "a,b,c") = 44%N
  /\ claimed_delimiter (txt "abc") = 44%N /\ claimed_delimiter (txt "a|b" ++ tab ++ txt "c") = 9%N.
Proof. repeat split; reflexivity. Qed.

Example detect_delimiter_examples :
  FunctionApp.detect_delimiter ascii_lib (txt "a|b;c") = 59%N
  /\ FunctionApp.detect_delimiter ascii_lib (txt "a|b") = 124%N
  /\ FunctionApp.detect_delimiter ascii_lib (txt "a b:c") = 44%N
  /\ FunctionApp.detect_delimiter ascii_lib [] = 44%N.
Proof. repeat split; reflexivity. Qed.

Example csv_reader_examples :
  csv_reader [] 44%N = Stop
  /\ csv_reader (txt "a,b" ++ [13; 10]%N ++ txt "1,2") 44%N
     = Next [txt "a"; txt "b"] (Next [txt "1"; txt "2"] Stop)
  /\ csv_reader (nl ++ txt "a,b") 44%N = Next [] (Next [txt "a"; txt "b"] Stop)
  /\ csv_reader (txt "x," ++ quote ++ txt "two" ++ nl ++ txt "lines" ++ quote ++ nl) 44%N
     = Next [txt "x"; txt "two" ++ nl ++ txt "lines"] Stop
  /\ csv_reader (txt "a" ++ [13%N] ++ txt "b" ++ nl) 44%N = Error.
Proof. repeat split; reflexivity. Qed.

Example make_dict_examples :
  get (make_dict [txt "id"; txt "text"] [txt "7"; txt "hi"]) (Some (txt "text")) = PStr (txt "hi")
  /\ get (make_dict [txt "id"; txt "text"] [txt "7"]) (Some (txt "text")) = PNone
  /\ get (make_dict [txt "id"; txt "text"] [txt "7"; txt "hi"; txt "more"]) None
     = PList [txt "more"]
  /\ get (make_dict [txt "a"; txt "a"] [txt "1"; txt "2"]) (Some (txt "a")) = PStr (txt "2").
Proof. repeat split; vm_compute; reflexivity. Qed.

Example parse_example :
  FunctionApp.parse ascii_lib sample_id_text
  = Ret (Some [FunctionApp.mkRow (txt "7") (txt "hello world");
               FunctionApp.mkRow (txt "9") (txt "bye")]).
Proof. vm_compute. reflexivity. Qed.

(** A header in capitals is normalized for the choice of the keys, while the
    rows are still read under the names as written: no row has a text. *)
Example parse_capital_header :
  FunctionApp.parse ascii_lib (txt "ID,Text" ++ nl ++ txt "7,hello" ++ nl) = Ret (Some []).
Proof. vm_compute. reflexivity. Qed.

(** The scenario of five batches of which batch 2 fails: four Success
    artifacts, one Failure artifact, and a manifest with 5 chunks and 4
    predictions. *)
Example partial_failure_scenario :
  let out := output ascii_lib cfg1 env_third_fails sample_name sample_five ∅ in
  out !! txt "tweets.csv.0002.json"
  = Some (blob_of (failure_document
                     (txt "api_call_failed: 500 Server Error: Internal Server Error") 2
                     (txt "2024-05-01T10:00:02Z")))
  /\ out !! txt "tweets.csv.0003.json"
     = Some (blob_of (success_document 3 1
                        (JArr [FunctionApp.row_json (FunctionApp.mkRow (txt "d") (txt "four"))])
                        (txt "2024-05-01T10:00:03Z")))
  /\ out !! txt "tweets.csv.manifest.json"
     = Some (blob_of (JObj [(txt "file", JStr (txt "input/tweets.csv"));
                            (txt "total_rows", JInt 5); (txt "total_chunks", JInt 5);
                            (txt "total_predictions", JInt 4);
                            (txt "completed_at", JStr (txt "2024-05-01T10:00:05Z"))]))
  /\ size out = 6.
Proof. vm_compute. repeat split; reflexivity. Qed.

(** ** The chunker (lines 71 and 72) *)

Section Chunker.
Context {A : Type}.
Implicit Types (rows : list A) (i b n fuel : nat).


Lemma slice_length rows i b :
  length (slice rows i (i + b)) = Nat.min b (length rows - i).
Proof. unfold slice. rewrite length_drop, length_take. lia. Qed.

Lemma slice_app_drop rows i b :
  slice rows i (i + b) ++ drop (i + b) rows = drop i rows.
Proof.
  unfold slice. rewrite <- (take_drop (i + b) rows) at 3.
  destruct (decide (i <= length rows)) as [Hi|Hi].
  - rewrite drop_app_le; [done|]. rewrite length_take. lia.
  - rewrite (drop_ge (take _ _ ++ _)), (drop_ge (take _ _)), (drop_ge rows);
      rewrite ?length_app, ?length_take, ?length_drop; try done; lia.
Qed.

Lemma range_loop_concat rows b fuel i :
  0 < b -> length rows <= i + fuel ->
  concat (map (fun i => slice rows i (i + b)) (range_loop fuel i (length rows) b))
  = drop i rows.
Proof.
  intros Hb. revert i. induction fuel as [|fuel IH]; intros i Hfuel; simpl.
  - rewrite drop_ge; [done|lia].
  - destruct (Nat.ltb_spec i (length rows)) as [Hlt|Hge]; simpl.
    + rewrite IH by lia. apply slice_app_drop.
    + rewrite drop_ge; [done|lia].
Qed.

Lemma range_loop_lookup b n fuel i j x :
  range_loop fuel i n b !! j = Some x -> x = i + j * b /\ x < n.
Proof.
  revert i j. induction fuel as [|fuel IH]; intros i j; simpl; [done|].
  destruct (Nat.ltb_spec i n) as [Hlt|Hge]; [|done].
  destruct j as [|j]; simpl.
  - intros [= <-]. lia.
  - intros H. apply IH in H. lia.
Qed.

Lemma div_between x b q : b * q <= x < b * (q + 1) -> x / b = q.
Proof.
  intros H. symmetry. apply (Nat.div_unique x b q (x - b * q)); lia.
Qed.

Lemma range_loop_length b n fuel i :
  0 < b -> n <= i + fuel ->
  length (range_loop fuel i n b) = (n - i + (b - 1)) / b.
Proof.
  intros Hb. revert i. induction fuel as [|fuel IH]; intros i Hfuel; simpl.
  - symmetry. apply div_between. lia.
  - destruct (Nat.ltb_spec i n) as [Hlt|Hge]; simpl.
    + rewrite IH by lia. symmetry. apply div_between.
      pose proof (Nat.div_mod_eq (n - (i + b) + (b - 1)) b) as Hd.
      pose proof (Nat.mod_upper_bound (n - (i + b) + (b - 1)) b) as Hm.
      specialize (Hm ltac:(lia)).
      set (q := (n - (i + b) + (b - 1)) / b) in *.
      set (m := (n - (i + b) + (b - 1)) mod b) in *.
      replace (b * S q) with (b * q + b) by lia.
      replace (b * (S q + 1)) with (b * q + b + b) by lia.
      clearbody q m. destruct (decide (i + b <= n)); [lia|].
      destruct q; [lia|nia].
    + symmetry. apply div_between. lia.
Qed.
End Chunker.

(** C2. For every row sequence and every batch size [b > 0], the slices
    [rows[i:i+b]] for [i = 0, b, 2b, ...] are [ceil(n/b)] batches, the
    [j]-th being [rows[j*b : j*b+b]]; every batch but the last has exactly
    [b] rows, the last has between 1 and [b] rows, and the batches
    concatenated in order are the rows. *)
Theorem chunker_correct (cfg : FunctionApp.config) (rows : list FunctionApp.row) :
  (0 < FunctionApp.CHUNK_SIZE cfg)%Z ->
  exists bs,
    batches cfg rows = Some bs
    /\ length bs = (length rows + (Z.to_nat (FunctionApp.CHUNK_SIZE cfg) - 1))
                   / Z.to_nat (FunctionApp.CHUNK_SIZE cfg)
    /\ (forall j batch, bs !! j = Some batch ->
          batch = slice rows (j * Z.to_nat (FunctionApp.CHUNK_SIZE cfg))
                        (j * Z.to_nat (FunctionApp.CHUNK_SIZE cfg)
                         + Z.to_nat (FunctionApp.CHUNK_SIZE cfg))
          /\ (S j < length bs -> length batch = Z.to_nat (FunctionApp.CHUNK_SIZE cfg))
          /\ (S j = length bs ->
              1 <= length batch <= Z.to_nat (FunctionApp.CHUNK_SIZE cfg)))
    /\ concat bs = rows.
Proof.
  intros Hpos. unfold batches, range0, FunctionApp.batch_at.
  destruct (Z.eqb_spec (FunctionApp.CHUNK_SIZE cfg) 0) as [?|_]; [lia|].
  destruct (Z.ltb_spec (FunctionApp.CHUNK_SIZE cfg) 0) as [?|_]; [lia|].
  set (b := Z.to_nat (FunctionApp.CHUNK_SIZE cfg)).
  assert (Hb : 0 < b) by (unfold b; lia).
  set (starts := range_loop (length rows) 0 (length rows) b).
  assert (Hlen : length starts = (length rows + (b - 1)) / b).
  { unfold starts. rewrite range_loop_length by lia. f_equal. lia. }
  eexists. split; [reflexivity|]. rewrite length_map. split; [exact Hlen|]. split.
  - intros j batch Hj. rewrite list_lookup_fmap in Hj.
    destruct (starts !! j) as [x|] eqn:Hx; [|done]. injection Hj as <-.
    pose proof (range_loop_lookup _ _ _ _ _ _ Hx) as [-> Hlt]. simpl in Hlt.
    split; [reflexivity|]. rewrite slice_length. split.
    + intros Hnext.
      destruct (starts !! S j) as [y|] eqn:Hy.
      * apply range_loop_lookup in Hy. simpl in Hy. lia.
      * apply lookup_ge_None in Hy. lia.
    + intros _. lia.
  - unfold starts. rewrite (range_loop_concat rows b) by lia. apply drop_0.
Qed.

(** Three rows in batches of two. *)
Lemma chunker_correct_witness :
  exists bs,
    batches cfg2 three_rows = Some bs
    /\ length bs = (length three_rows + (Z.to_nat (FunctionApp.CHUNK_SIZE cfg2) - 1))
                   / Z.to_nat (FunctionApp.CHUNK_SIZE cfg2)
    /\ (forall j batch, bs !! j = Some batch ->
          batch = slice three_rows (j * Z.to_nat (FunctionApp.CHUNK_SIZE cfg2))
                        (j * Z.to_nat (FunctionApp.CHUNK_SIZE cfg2)
                         + Z.to_nat (FunctionApp.CHUNK_SIZE cfg2))
          /\ (S j < length bs -> length batch = Z.to_nat (FunctionApp.CHUNK_SIZE cfg2))
          /\ (S j = length bs ->
              1 <= length batch <= Z.to_nat (FunctionApp.CHUNK_SIZE cfg2)))
    /\ concat bs = three_rows.
Proof. apply (chunker_correct cfg2 three_rows). simpl. lia. Defined.

(** ** The row parser (lines 56 to 62) *)

Section Whitespace.

Implicit Types (s cur : text) (c : char).

Lemma lstrip_by_snoc p s c :
  lstrip_by p (s ++ [c])
  = if forallb p s then (if p c then [] else [c]) else lstrip_by p s ++ [c].
Proof.
  induction s as [|d s IH]; simpl; [done|].
  destruct (p d); simpl; [exact IH|done].
Qed.

Lemma forallb_rev' p s : forallb p (rev s) = forallb p s.
Proof.
  induction s as [|c s IH]; simpl; [done|].
  rewrite forallb_app, IH. simpl. rewrite andb_true_r. apply andb_comm.
Qed.

Lemma lstrip_by_all p s : forallb p s = true -> lstrip_by p s = [].
Proof.
  induction s as [|d s IH]; simpl; [done|].
  destruct (p d); simpl; [exact IH|done].
Qed.

Lemma rstrip_by_cons p c s :
  rstrip_by p (c :: s) = if forallb p (c :: s) then [] else c :: rstrip_by p s.
Proof.
  unfold rstrip_by. simpl rev. rewrite lstrip_by_snoc, forallb_rev'. simpl.
  destruct (forallb p s) eqn:Hs.
  - destruct (p c); simpl; [done|].
    rewrite lstrip_by_all; [done|]. by rewrite forallb_rev'.
  - rewrite andb_false_r, rev_app_distr. done.
Qed.

Lemma rstrip_by_nil p : rstrip_by p [] = [].
Proof. done. Qed.

Lemma split_scan_nil_iff s : split_scan [] s = [] <-> forallb isspace s = true.
Proof.
  assert (Hne : forall s cur, cur <> [] -> split_scan cur s <> []).
  { clear. intros s. induction s as [|c s IH]; intros cur Hcur; simpl.
    - destruct cur; done.
    - destruct (isspace c).
      + destruct cur; done.
      + apply IH. destruct cur; done. }
  induction s as [|c s IH]; simpl; [done|].
  destruct (isspace c); simpl; [exact IH|].
  split; [|done]. intros H. exfalso. by apply (Hne s [c]).
Qed.

Lemma squeeze_cons_ws c d s :
  isspace c = true ->
  squeeze (c :: d :: s) = if isspace d then squeeze (d :: s) else space :: squeeze (d :: s).
Proof. intros Hc. simpl. by rewrite Hc. Qed.

Lemma squeeze_cons_nws c s :
  isspace c = false -> squeeze (c :: s) = c :: squeeze s.
Proof. intros Hc. simpl. by rewrite Hc. Qed.

Lemma lstrip_by_cons p c s :
  lstrip_by p (c :: s) = if p c then lstrip_by p s else c :: s.
Proof. done. Qed.

Lemma squeeze_space_cons c s :
  isspace c = true -> forallb isspace s = false ->
  squeeze (c :: rstrip_by isspace s)
  = space :: squeeze (rstrip_by isspace (lstrip_by isspace s)).
Proof.
  intros Hc. revert c Hc. induction s as [|d s IH]; intros c Hc Hs; [done|].
  rewrite rstrip_by_cons, Hs, squeeze_cons_ws, lstrip_by_cons by done.
  simpl in Hs. destruct (isspace d) eqn:Hd; simpl in Hs.
  - by apply IH.
  - rewrite rstrip_by_cons. simpl forallb. rewrite Hd. done.
Qed.

Lemma join_cons sep w ws :
  join sep (w :: ws) = match ws with [] => w | _ => w ++ sep ++ join sep ws end.
Proof. done. Qed.

Lemma join_split_scan s :
  join [space] (split_scan [] s) = squeeze (rstrip_by isspace (lstrip_by isspace s))
  /\ (forall cur, cur <> [] ->
        join [space] (split_scan cur s) = cur ++ squeeze (rstrip_by isspace s)).
Proof.
  induction s as [|c s [IH0 IH1]].
  - split; [done|]. intros cur Hcur. simpl. destruct cur; [done|].
    by rewrite app_nil_r.
  - split.
    + simpl split_scan. rewrite lstrip_by_cons.
      destruct (isspace c) eqn:Hc; [exact IH0|].
      rewrite (IH1 [c]) by done. rewrite rstrip_by_cons. simpl forallb.
      rewrite Hc. simpl. by rewrite Hc.
    + intros cur Hcur. simpl split_scan. rewrite rstrip_by_cons. simpl forallb.
      destruct (isspace c) eqn:Hc; simpl andb.
      * assert (Hsp : split_scan cur (c :: s) = cur :: split_scan [] s).
        { simpl. rewrite Hc. by destruct cur. }
        replace (match cur with [] => split_scan [] s | _ :: _ => cur :: split_scan [] s end)
          with (cur :: split_scan [] s) by (by destruct cur).
        etrans; [apply join_cons|].
        destruct (forallb isspace s) eqn:Hs.
        -- apply split_scan_nil_iff in Hs. rewrite Hs. by rewrite app_nil_r.
        -- destruct (split_scan [] s) eqn:Hw.
           { apply split_scan_nil_iff in Hw. congruence. }
           rewrite IH0. f_equal.
           rewrite squeeze_space_cons by done. done.
      * rewrite (IH1 (cur ++ [c])) by (destruct cur; done).
        rewrite squeeze_cons_nws by done. by rewrite <- app_assoc.
Qed.

(** What line 60 computes is the white-space collapsed text. *)
Lemma join_split_collapse s :
  join [space] (split s) = collapse_whitespace s.
Proof. apply join_split_scan. Qed.
End Whitespace.

Section ReadRows.

Import FunctionApp.

Lemma collapse_source_text text_key r t :
  collapse (source_text text_key r) = Ret t ->
  t = collapse_whitespace (source_string text_key r).
Proof.
  unfold collapse, source_string. rewrite <- join_split_collapse.
  destruct (source_text text_key r) as [|s|l]; unfold py_or; simpl.
  - by intros [= <-].
  - case_bool_decide as Hs; simpl; [subst s|]; by intros [= <-].
  - case_bool_decide as Hl; simpl; [by intros [= <-]|done].
Qed.

Lemma read_rows_spec fieldnames id_key text_key data rows0 rows :
  read_rows fieldnames id_key text_key data rows0 = Ret rows ->
  exists new,
    rows = rows0 ++ new
    /\ Forall2 (fun row r => row_text row = collapse_whitespace (source_string text_key r)
                             /\ row_text row <> [])
               new (accepted text_key (data_rows fieldnames data))
    /\ (forall k row r, new !! k = Some row ->
          accepted text_key (data_rows fieldnames data) !! k = Some r ->
          row_id row = row_identifier id_key r (take (length rows0 + k) rows)).
Proof.
  revert rows0. induction data as [|record data IH|]; intros rows0; simpl.
  - intros [= <-]. exists []. rewrite app_nil_r. split; [done|]. split; [constructor|done].
  - destruct record as [|f fs]; [apply IH|].
    set (r := make_dict fieldnames (f :: fs)).
    destruct (collapse (source_text text_key r)) as [t|e] eqn:Hc; [|done].
    apply collapse_source_text in Hc. unfold accepted. fold (accepted text_key).
    destruct t as [|c t].
    + intros H. rewrite filter_cons_False by (by rewrite <- Hc; intros []).
      by apply IH.
    + intros H. rewrite filter_cons_True by (by rewrite <- Hc).
      apply IH in H as (new & -> & Htexts & Hids).
      exists (mkRow (row_identifier id_key r rows0) (c :: t) :: new).
      split; [by rewrite <- app_assoc|]. split.
      * constructor; [|exact Htexts]. simpl. by rewrite <- Hc.
      * intros [|k] row r' Hrow Hr'; simpl in *.
        -- injection Hrow as <-. injection Hr' as <-. simpl.
           rewrite <- app_assoc, Nat.add_0_r, take_app_length. done.
        -- rewrite (Hids k row r' Hrow Hr'). rewrite length_app. simpl.
           do 2 f_equal. lia.
  - done.
Qed.

Lemma row_identifier_positional r rows :
  row_identifier None r rows = str_of_nat (length rows + 1).
Proof. done. Qed.

Lemma parse_spec L t rows :
  parse L t = Ret (Some rows) ->
  Forall2 (fun row r => row_text row = collapse_whitespace (source_string (text_key_of L t) r)
                        /\ row_text row <> [])
          rows (accepted (text_key_of L t) (dict_rows L t))
  /\ (forall k row r, rows !! k = Some row ->
        accepted (text_key_of L t) (dict_rows L t) !! k = Some r ->
        row_id row
        = row_identifier (resolve (txt "id") (txt "tweet_id") (header_names L t)) r
                         (take k rows)).
Proof.
  unfold parse, text_key_of, dict_rows, header_names, normalized.
  destruct (csv_reader t (detect_delimiter L t)) as [|fieldnames data|]; [done| |done].
  destruct fieldnames as [|f fs]; [done|].
  set (fieldnames := f :: fs).
  destruct (read_rows _ _ _ data []) as [rows'|e] eqn:Hr; [|done].
  intros [= ->]. apply read_rows_spec in Hr as (new & -> & Htexts & Hids).
  simpl in *. split; [exact Htexts|exact Hids].
Qed.

End ReadRows.

(** C7. Every row the parser produces has the white-space collapsed text of
    its source value (each maximal run of white space, newlines included,
    replaced by one space, leading and trailing white space removed), and
    that text is not empty; the rows are, in file order, exactly the data
    rows whose collapsed text is not empty. *)
Theorem row_text_normalized (L : FunctionApp.pylib) (t : text)
    (rows : list FunctionApp.row) :
  FunctionApp.parse L t = Ret (Some rows) ->
  Forall2 (fun row r =>
             FunctionApp.row_text row
             = collapse_whitespace (source_string (text_key_of L t) r))
          rows (accepted (text_key_of L t) (dict_rows L t))
  /\ Forall (fun row => FunctionApp.row_text row <> []) rows.
Proof.
  intros H. apply parse_spec in H as [Htexts _]. split.
  - eapply Forall2_impl; [exact Htexts|]. by intros row r [? _].
  - eapply Forall2_Forall_l; [exact Htexts|].
    apply Forall_forall. by intros r _ row [_ ?].
Qed.

(** The file [sample_id_text]: the row with only white space for text is
    dropped, the others keep their order. *)
Lemma row_text_normalized_witness :
  Forall2 (fun row r =>
             FunctionApp.row_text row
             = collapse_whitespace (source_string (text_key_of ascii_lib sample_id_text) r))
          [FunctionApp.mkRow (txt "7") (txt "hello world");
           FunctionApp.mkRow (txt "9") (txt "bye")]
          (accepted (text_key_of ascii_lib sample_id_text)
                    (dict_rows ascii_lib sample_id_text))
  /\ Forall (fun row => FunctionApp.row_text row <> [])
            [FunctionApp.mkRow (txt "7") (txt "hello world");
             FunctionApp.mkRow (txt "9") (txt "bye")].
Proof. apply (row_text_normalized ascii_lib sample_id_text). vm_compute. reflexivity. Defined.

(** C5. When no header is named [id] or [tweet_id] after trimming and
    lowercasing, the [k]-th accepted row (counting from 1, and counting only
    the rows whose collapsed text is not empty) has the decimal string of
    [k] for id: the rows dropped for empty text do not advance the count. *)
Theorem positional_id_fallback (L : FunctionApp.pylib) (t : text)
    (rows : list FunctionApp.row) :
  txt "id" ∉ header_names L t ->
  txt "tweet_id" ∉ header_names L t ->
  FunctionApp.parse L t = Ret (Some rows) ->
  length rows = length (accepted (text_key_of L t) (dict_rows L t))
  /\ forall k row, rows !! k = Some row -> FunctionApp.row_id row = str_of_nat (k + 1).
Proof.
  intros Hid Htweet H. apply parse_spec in H as [Htexts Hids].
  pose proof (Forall2_length _ _ _ Htexts) as Hlen. split; [exact Hlen|].
  intros k row Hrow.
  destruct (accepted (text_key_of L t) (dict_rows L t) !! k) as [r|] eqn:Hr.
  - rewrite (Hids k row r Hrow Hr). unfold FunctionApp.resolve.
    rewrite !bool_decide_eq_false_2 by done.
    rewrite row_identifier_positional, length_take.
    apply lookup_lt_Some in Hrow. do 2 f_equal. lia.
  - apply lookup_ge_None in Hr. apply lookup_lt_Some in Hrow. lia.
Qed.

(** The file [sample_text_only]: the ids are 1 and 2, the dropped row takes
    no number. *)
Lemma positional_id_fallback_witness :
  length [FunctionApp.mkRow (txt "1") (txt "first");
          FunctionApp.mkRow (txt "2") (txt "third")]
  = length (accepted (text_key_of ascii_lib sample_text_only)
                     (dict_rows ascii_lib sample_text_only))
  /\ forall k row,
       [FunctionApp.mkRow (txt "1") (txt "first");
        FunctionApp.mkRow (txt "2") (txt "third")] !! k = Some row ->
       FunctionApp.row_id row = str_of_nat (k + 1).
Proof.
  apply (positional_id_fallback ascii_lib sample_text_only).
  - apply (bool_decide_eq_false_1 _). vm_compute. reflexivity.
  - apply (bool_decide_eq_false_1 _). vm_compute. reflexivity.
  - vm_compute. reflexivity.
Defined.

(** ** Blob names (lines 113 to 120) *)

Section BlobNames.

Lemma digits_value_uint d acc :
  digits_value acc (txt (NilEmpty.string_of_uint d)) = Nat.of_uint_acc d acc.
Proof.
  revert acc. induction d; intros acc; simpl; [done|..];
    rewrite Nat.tail_mul_spec;
    change (txt (String ?c ?s)) with (N_of_ascii c :: txt s);
    simpl digits_value; rewrite <- IHd; f_equal; simpl; lia.
Qed.

Lemma digits_value_str_of_nat n : digits_value 0 (str_of_nat n) = n.
Proof.
  unfold str_of_nat, NilZero.string_of_uint.
  rewrite <- (DecimalNat.Unsigned.of_to n) at 2. unfold Nat.of_uint.
  destruct (Nat.to_uint n) eqn:Hd; try (rewrite <- digits_value_uint; done).
Qed.

Lemma digits_value_zeros k s :
  digits_value 0 (replicate k 48%N ++ s) = digits_value 0 s.
Proof. induction k as [|k IH]; simpl; [done|exact IH]. Qed.

Lemma format_04d_value n : digits_value 0 (format_04d n) = n.
Proof. unfold format_04d. by rewrite digits_value_zeros, digits_value_str_of_nat. Qed.

Lemma format_04d_inj i j : format_04d i = format_04d j -> i = j.
Proof. intros H. by rewrite <- (format_04d_value i), H, format_04d_value. Qed.

Lemma uint_digits d : Forall is_digit (txt (NilEmpty.string_of_uint d)).
Proof.
  induction d; simpl; [constructor|..];
    change (txt (String ?c ?s)) with (N_of_ascii c :: txt s);
    (constructor; [unfold is_digit; simpl; lia|exact IHd]).
Qed.

Lemma str_of_nat_head n : exists c s, str_of_nat n = c :: s /\ is_digit c.
Proof.
  unfold str_of_nat, NilZero.string_of_uint.
  destruct (Nat.to_uint n) eqn:Hd;
    [exists 48%N, []; split; [done|unfold is_digit; lia]|..];
    (pose proof (uint_digits (Nat.to_uint n)) as H; rewrite Hd in H; rewrite <- Hd in *;
     rewrite Hd in *; simpl in H |- *;
     change (txt (String ?c ?s)) with (N_of_ascii c :: txt s) in *;
     inversion H; subst; eauto).
Qed.

Lemma format_04d_head n : exists c s, format_04d n = c :: s /\ is_digit c.
Proof.
  unfold format_04d. destruct (str_of_nat_head n) as (c & s & -> & Hc).
  destruct (4 - length (c :: s)) as [|k]; simpl; [eauto|].
  exists 48%N. eexists. split; [done|unfold is_digit; lia].
Qed.

Lemma chunk_blob_name_inj name i j :
  FunctionApp._chunk_blob_name name i = FunctionApp._chunk_blob_name name j -> i = j.
Proof.
  unfold FunctionApp._chunk_blob_name. intros H.
  apply app_inv_head, app_inv_head, app_inv_tail in H. by apply format_04d_inj.
Qed.

Lemma manifest_not_chunk name i :
  FunctionApp._manifest_blob_name name <> FunctionApp._chunk_blob_name name i.
Proof.
  unfold FunctionApp._manifest_blob_name, FunctionApp._chunk_blob_name. intros H.
  apply app_inv_head in H.
  destruct (format_04d_head i) as (c & s & Hf & Hc). rewrite Hf in H.
  vm_compute in H. injection H as H _. unfold is_digit in Hc. lia.
Qed.

End BlobNames.
(** ** Encoding the documents (line 110) *)

Section Encoding.

Lemma encodable_app (s1 s2 : text) :
  encodable (s1 ++ s2) = encodable s1 && encodable s2.
Proof. apply forallb_app. Qed.

Lemma encodable_app_2 (s1 s2 : text) :
  encodable s1 = true -> encodable s2 = true -> encodable (s1 ++ s2) = true.
Proof. intros H1 H2. by rewrite encodable_app, H1, H2. Qed.

Lemma encode_utf8_encodable (s : text) :
  encodable s = true -> encode_utf8 s = Ret (utf8 s).
Proof. unfold encode_utf8. by intros ->. Qed.

Lemma utf8_app (s1 s2 : text) : utf8 (s1 ++ s2) = utf8 s1 ++ utf8 s2.
Proof. unfold utf8. by rewrite map_app, concat_app. Qed.

Lemma encodable_below (s : text) :
  Forall (fun c => (c < 55296)%N) s -> encodable s = true.
Proof.
  intros Hs. apply forallb_forall. intros c Hc%list_elem_of_In.
  rewrite Forall_forall in Hs. apply Hs in Hc.
  apply negb_true_iff, andb_false_iff. left. apply N.leb_gt. exact Hc.
Qed.

Lemma str_of_nat_digits n : Forall is_digit (str_of_nat n).
Proof.
  unfold str_of_nat, NilZero.string_of_uint.
  destruct (Nat.to_uint n) eqn:Hd; try (rewrite <- Hd; apply uint_digits).
  repeat constructor; unfold is_digit; simpl; lia.
Qed.

Lemma encodable_str_of_nat n : encodable (str_of_nat n) = true.
Proof.
  apply encodable_below. eapply Forall_impl; [apply str_of_nat_digits|].
  intros c Hc. unfold is_digit in Hc. simpl in Hc. lia.
Qed.

Lemma encodable_str_of_Z z : encodable (str_of_Z z) = true.
Proof.
  unfold str_of_Z. destruct (z <? 0)%Z; [|apply encodable_str_of_nat].
  change (encodable ([45%N] ++ str_of_nat (Z.to_nat (- z))) = true).
  apply encodable_app_2; [reflexivity|apply encodable_str_of_nat].
Qed.

Lemma encodable_escape_char c :
  is_surrogate c = false -> encodable (escape_char c) = true.
Proof.
  intros Hc. unfold escape_char.
  repeat (match goal with |- context [if ?b then _ else _] => destruct b eqn:? end;
          [try reflexivity|]).
  - apply encodable_below.
    assert (Hlt : (c < 32)%N) by by apply N.ltb_lt.
    assert (Hq : (c / 16 < 2)%N) by (apply N.Div0.div_lt_upper_bound; lia).
    assert (Hr : (c mod 16 < 16)%N) by (apply N.mod_lt; lia).
    unfold hex_digit.
    repeat constructor; try lia; repeat case_match; lia.
  - simpl. by rewrite Hc.
Qed.

Lemma encodable_concat_escape s :
  encodable s = true -> encodable (concat (map escape_char s)) = true.
Proof.
  induction s as [|c s IH]; [done|]. simpl encodable at 1.
  intros [Hc Hs]%andb_true_iff. simpl concat.
  apply encodable_app_2; [|by apply IH].
  apply encodable_escape_char. by apply negb_true_iff.
Qed.

Lemma encodable_encode_basestring s :
  encodable s = true -> encodable (encode_basestring s) = true.
Proof.
  intros Hs. unfold encode_basestring.
  apply encodable_app_2; [reflexivity|].
  apply encodable_app_2; [by apply encodable_concat_escape|reflexivity].
Qed.

Lemma encodable_join (sep : text) (parts : list text) :
  encodable sep = true -> Forall (fun p => encodable p = true) parts ->
  encodable (join sep parts) = true.
Proof.
  intros Hsep Hparts. induction Hparts as [|p parts Hp Hparts IH]; [done|].
  destruct parts as [|q parts]; [exact Hp|].
  change (join sep (p :: q :: parts)) with (p ++ sep ++ join sep (q :: parts)).
  by repeat apply encodable_app_2.
Qed.

(** An object can be encoded when its keys and the documents of its values
    can. *)
Lemma encodable_dumps_obj (members : list (text * json)) :
  Forall (fun kv => encodable (fst kv) = true /\ encodable (dumps (snd kv)) = true) members ->
  encodable (dumps (JObj members)) = true.
Proof.
  intros Hm.
  change (dumps (JObj members))
    with (txt "{"
          ++ join (txt ", ")
               (map (fun kv => encode_basestring (fst kv) ++ txt ": " ++ dumps (snd kv))
                    members)
          ++ txt "}").
  apply encodable_app_2; [reflexivity|].
  apply encodable_app_2; [|reflexivity].
  apply encodable_join; [reflexivity|].
  apply Forall_fmap. eapply Forall_impl; [exact Hm|].
  intros [k v] [Hk Hv]. cbn [fst snd] in *.
  apply encodable_app_2; [by apply encodable_encode_basestring|].
  by apply encodable_app_2.
Qed.

Lemma encodable_dumps_arr (items : list json) :
  Forall (fun v => encodable (dumps v) = true) items ->
  encodable (dumps (JArr items)) = true.
Proof.
  intros Hi.
  change (dumps (JArr items)) with (txt "[" ++ join (txt ", ") (map dumps items) ++ txt "]").
  apply encodable_app_2; [reflexivity|].
  apply encodable_app_2; [|reflexivity].
  apply encodable_join; [reflexivity|]. by apply Forall_fmap.
Qed.

Lemma encodable_dumps_str s : encodable s = true -> encodable (dumps (JStr s)) = true.
Proof. apply encodable_encode_basestring. Qed.

Lemma encodable_dumps_int z : encodable (dumps (JInt z)) = true.
Proof. apply encodable_str_of_Z. Qed.

(** The bytes under which a document that can be encoded is stored. *)
Lemma encode_document (doc : json) :
  encodable (dumps doc) = true ->
  encode_utf8 (dumps doc ++ [10%N]) = Ret (blob_of doc).
Proof.
  intros Hdoc. apply encode_utf8_encodable. by apply encodable_app_2.
Qed.

Lemma encodable_failure_document reason i at_ :
  encodable reason = true -> encodable at_ = true ->
  encodable (dumps (failure_document reason i at_)) = true.
Proof.
  intros Hr Ha. apply encodable_dumps_obj.
  repeat constructor; cbn [fst snd];
    auto using encodable_dumps_str, encodable_dumps_int.
Qed.

Lemma encodable_success_document i size preds at_ :
  encodable (dumps preds) = true -> encodable at_ = true ->
  encodable (dumps (success_document i size preds at_)) = true.
Proof.
  intros Hp Ha. apply encodable_dumps_obj.
  repeat constructor; cbn [fst snd];
    auto using encodable_dumps_str, encodable_dumps_int.
Qed.

Lemma encodable_manifest name rows chunks total at_ :
  encodable name = true -> encodable at_ = true ->
  encodable (dumps (FunctionApp.manifest name rows chunks total at_)) = true.
Proof.
  intros Hn Ha. apply encodable_dumps_obj.
  repeat constructor; cbn [fst snd];
    auto using encodable_dumps_str, encodable_dumps_int.
Qed.

Lemma encodable_now_at E k :
  encodable_readings E -> encodable (now_at E k) = true.
Proof.
  intros (Hclock & _ & _). unfold now_at. apply encodable_app_2; [apply Hclock|reflexivity].
Qed.

(** The document of a batch can be encoded when the readings can. *)
Lemma encodable_chunk_document E j batch :
  encodable_readings E -> encodable (dumps (chunk_document E j batch)) = true.
Proof.
  intros HE. pose proof HE as (_ & Hret & Hraise). unfold chunk_document.
  destruct (FunctionApp.post E j (payload_of batch)) as [preds|e] eqn:Hp.
  - apply encodable_success_document; [by eapply Hret|by apply encodable_now_at].
  - apply encodable_failure_document; [|by apply encodable_now_at].
    apply encodable_app_2; [reflexivity|by eapply Hraise].
Qed.

Lemma encodable_labels_for p : encodable (dumps (labels_for p)) = true.
Proof.
  assert (Hitems : forall items : list json,
            encodable (dumps (JArr (map (fun _ => a_prediction) items))) = true).
  { intros items. apply encodable_dumps_arr, Forall_fmap, Forall_forall. by intros. }
  unfold labels_for. repeat case_match; try reflexivity. apply Hitems.
Qed.

End Encoding.
(** ** The dispatch loop (lines 69 to 107) *)

Section Dispatch.

Import FunctionApp.

Variable cfg : config.
Variable E : env.
Variable name : text.
Variable rows : list row.

(** One turn of the loop, as a transformation of the world. *)
Lemma dispatch_loop_cons x starts i total w :
  dispatch_loop cfg E name rows (x :: starts) i total w
  = let batch := batch_at cfg rows x in
    let r := post E (post_calls w) (payload_of batch) in
    let doc :=
      match r with
      | Raise e => failure_document (txt "api_call_failed: " ++ e) i (now_at E (now_calls w))
      | Ret preds => success_document i (length batch) preds (now_at E (now_calls w))
      end in
    match encode_utf8 (dumps doc ++ [10%N]) with
    | Raise u => (Raise u, mkWorld (blobs w) (S (now_calls w)) (S (post_calls w)))
    | Ret data =>
        let w' := mkWorld (<[_chunk_blob_name name i := data]> (blobs w))
                          (S (now_calls w)) (S (post_calls w)) in
        match r with
        | Raise e => dispatch_loop cfg E name rows starts (i + 1) total w'
        | Ret preds =>
            match len preds with
            | Some n => dispatch_loop cfg E name rows starts (i + 1) (total + n) w'
            | None => (Raise (type_error preds), w')
            end
        end
    end.
Proof.
  simpl. unfold mbind, M_bind, bind, try_post, payload_of, _upload_json. simpl.
  destruct (post E (post_calls w) _) as [preds|e]; simpl.
  - unfold success_document, now_at.
    destruct (encode_utf8 _); simpl; [|done].
    unfold len_preds. destruct (len preds); done.
  - unfold failure_document, now_at. destruct (encode_utf8 _); done.
Qed.

(** A turn whose document can be encoded. *)
Lemma dispatch_loop_turn x starts i total w :
  encodable_readings E ->
  now_calls w = i -> post_calls w = i ->
  dispatch_loop cfg E name rows (x :: starts) i total w
  = let batch := batch_at cfg rows x in
    let w' := mkWorld (<[_chunk_blob_name name i := blob_of (chunk_document E i batch)]>
                         (blobs w)) (S i) (S i) in
    match post E i (payload_of batch) with
    | Raise e => dispatch_loop cfg E name rows starts (i + 1) total w'
    | Ret preds =>
        match len preds with
        | Some n => dispatch_loop cfg E name rows starts (i + 1) (total + n) w'
        | None => (Raise (type_error preds), w')
        end
    end.
Proof.
  intros HE Hnow Hpost. rewrite dispatch_loop_cons. cbv zeta. rewrite Hnow, Hpost.
  pose proof (encode_document _ (encodable_chunk_document E i (batch_at cfg rows x) HE))
    as Henc.
  unfold chunk_document in *.
  destruct (post E i (payload_of (batch_at cfg rows x))); by rewrite Henc.
Qed.

(** The container a run starts on has no part in what the loop does: the
    loop on a container laid under another ends as the loop on the other,
    with the first container still underneath. *)
Lemma dispatch_loop_union (c : gmap text text) starts i total A n p :
  let r := dispatch_loop cfg E name rows starts i total (mkWorld A n p) in
  dispatch_loop cfg E name rows starts i total (mkWorld (A ∪ c) n p)
  = (fst r, mkWorld (blobs (snd r) ∪ c) (now_calls (snd r)) (post_calls (snd r))).
Proof.
  cbv zeta. revert i total A n p.
  induction starts as [|x starts IH]; intros i total A n p; [done|].
  rewrite !dispatch_loop_cons. cbv zeta. cbn [blobs now_calls post_calls].
  destruct (encode_utf8 _) as [data|u]; [|done].
  rewrite insert_union_l.
  destruct (post E p _) as [preds|e]; [|apply IH].
  destruct (len preds); [apply IH|done].
Qed.

Hypothesis Hsized : sized_responses E.
Hypothesis Hencodable : encodable_readings E.

Lemma dispatch_loop_spec starts i total w :
  now_calls w = i -> post_calls w = i ->
  exists w',
    dispatch_loop cfg E name rows starts i total w
    = (Ret (i + length starts,
            total + sum_list (imap (fun j x => prediction_count E (i + j) (batch_at cfg rows x))
                                   starts)), w')
    /\ now_calls w' = i + length starts
    /\ post_calls w' = i + length starts
    /\ (forall j x, starts !! j = Some x ->
          blobs w' !! _chunk_blob_name name (i + j)
          = Some (blob_of (chunk_document E (i + j) (batch_at cfg rows x))))
    /\ (forall key, (forall j, j < length starts -> key <> _chunk_blob_name name (i + j)) ->
          blobs w' !! key = blobs w !! key).
Proof.
  revert i total w. induction starts as [|x starts' IH]; intros i total w Hnow Hpost.
  - exists w. simpl. rewrite !Nat.add_0_r. done.
  - rewrite dispatch_loop_turn by done. cbv zeta.
    set (batch := batch_at cfg rows x).
    set (w1 := mkWorld (<[_chunk_blob_name name i := blob_of (chunk_document E i batch)]>
                          (blobs w)) (S i) (S i)).
    assert (Hstep :
      match post E i (payload_of batch) with
      | Raise e => dispatch_loop cfg E name rows starts' (i + 1) total w1
      | Ret preds =>
          match len preds with
          | Some n => dispatch_loop cfg E name rows starts' (i + 1) (total + n) w1
          | None => (Raise (type_error preds), w1)
          end
      end
      = dispatch_loop cfg E name rows starts' (i + 1)
          (total + prediction_count E i batch) w1).
    { unfold prediction_count.
      destruct (post E i (payload_of batch)) as [preds|e] eqn:Hp.
      - destruct (len preds) as [n|] eqn:Hl; [done|by apply Hsized in Hp].
      - by rewrite Nat.add_0_r. }
    rewrite Hstep.
    destruct (IH (i + 1) (total + prediction_count E i batch) w1)
      as (w' & Hrun & Hnow' & Hpost' & Hwritten & Hframe); [simpl; lia|simpl; lia|].
    exists w'. rewrite Hrun. simpl length. split; [|split; [lia|split; [lia|split]]].
    + replace (i + S (length starts')) with (i + 1 + length starts') by lia.
      do 3 f_equal. rewrite imap_cons.
      change (sum_list (?a :: ?l)) with (a + sum_list l).
      rewrite Nat.add_0_r. fold batch. rewrite <- Nat.add_assoc. do 3 f_equal.
      apply imap_ext. intros j y _. simpl. f_equal. lia.
    + intros [|j] y Hy; simpl in Hy.
      * injection Hy as <-. rewrite Nat.add_0_r, Hframe.
        -- unfold w1. cbn [blobs]. by rewrite lookup_insert_eq.
        -- intros j _ Heq. apply chunk_blob_name_inj in Heq. lia.
      * replace (i + S j) with (i + 1 + j) by lia. by apply Hwritten.
    + intros key Hkey. rewrite Hframe.
      * unfold w1. cbn [blobs]. apply lookup_insert_ne. intros Heq. apply (Hkey 0); [simpl; lia|].
        by rewrite Nat.add_0_r.
      * intros j Hj. replace (i + 1 + j) with (i + S j) by lia. apply Hkey. simpl. lia.
Qed.

End Dispatch.
Section Run.

Import FunctionApp.

Lemma dispatch_all_spec cfg E name rows bs w :
  sized_responses E ->
  encodable_readings E ->
  encodable name = true ->
  batches cfg rows = Some bs ->
  now_calls w = 0 -> post_calls w = 0 ->
  exists w',
    dispatch_all cfg E name rows w = (Ret tt, w')
    /\ post_calls w' = length bs
    /\ (forall j batch, bs !! j = Some batch ->
          blobs w' !! _chunk_blob_name name j = Some (blob_of (chunk_document E j batch)))
    /\ blobs w' !! _manifest_blob_name name
       = Some (blob_of (manifest name rows (length bs)
                          (sum_list (imap (prediction_count E) bs))
                          (now_at E (length bs))))
    /\ (forall key, key <> _manifest_blob_name name ->
          (forall j, j < length bs -> key <> _chunk_blob_name name j) ->
          blobs w' !! key = blobs w !! key).
Proof.
  intros Hsized Henc Hname Hbs Hnow Hpost. unfold batches in Hbs. unfold dispatch_all.
  destruct (range0 (length rows) (CHUNK_SIZE cfg)) as [starts|]; [|done].
  injection Hbs as <-.
  destruct (dispatch_loop_spec cfg E name rows Hsized Henc starts 0 0 w Hnow Hpost)
    as (w1 & Hrun & Hnow1 & Hpost1 & Hwritten & Hframe).
  unfold mbind, M_bind, bind. rewrite Hrun. simpl fst; simpl snd. simpl in Hnow1, Hpost1.
  unfold _now, _upload_json. cbn [blobs now_calls post_calls].
  rewrite Hnow1. fold (now_at E (length starts)).
  rewrite (encode_document (manifest name rows (length starts) _ (now_at E (length starts))))
    by (apply encodable_manifest; [done|by apply encodable_now_at]).
  eexists. split; [reflexivity|]. cbn [blobs now_calls post_calls].
  rewrite length_map. split; [exact Hpost1|]. split; [|split].
  - intros j batch Hj. rewrite list_lookup_fmap in Hj.
    destruct (starts !! j) as [x|] eqn:Hx; [|done]. injection Hj as <-.
    rewrite lookup_insert_ne by apply manifest_not_chunk.
    by apply (Hwritten j x).
  - rewrite lookup_insert_eq. do 4 f_equal. rewrite imap_fmap. done.
  - intros key Hm Hc. rewrite lookup_insert_ne by done. by apply Hframe.
Qed.

(** C1, as the claim states it, fails. Five rows go out in three batches
    and the request for batch 0 fails. When the request for batch 1 is
    answered with status 200 and the body [5], [len(preds)], which stands
    outside the [try], raises a [TypeError]; when it is answered with an
    array that holds a lone surrogate, the encoding of the artifact, which
    stands outside the [try] as well, raises a [UnicodeEncodeError]. Either
    way the run ends there: batch 2 is never sent, there is no artifact for
    it and no manifest. *)
Lemma failed_batch_then_abort :
  batches cfg2 five_rows = Some five_batches
  /\ parse ascii_lib (read_text ascii_lib sample_five) = Ret (Some five_rows)
  /\ (forall batch, post env_fails_then_number 0 (payload_of batch)
                    = Raise (txt "500 Server Error"))
  /\ process_blob ascii_lib cfg2 env_fails_then_number sample_name sample_five (start ∅)
     = (Raise (txt "TypeError: object of type 'int' has no len()"),
        mkWorld
          {[ txt "tweets.csv.0000.json" :=
               blob_of (JObj [(txt "error", JStr (txt "api_call_failed: 500 Server Error"));
                              (txt "chunk_index", JInt 0);
                              (txt "at", JStr (txt "2024-05-01T10:00:00Z"))]);
             txt "tweets.csv.0001.json" :=
               blob_of (JObj [(txt "chunk_index", JInt 1); (txt "chunk_size", JInt 2);
                              (txt "predictions", JInt 5);
                              (txt "processed_at", JStr (txt "2024-05-01T10:00:01Z"))]) ]}
          2 2)
  /\ (forall batch, post env_fails_then_surrogate 0 (payload_of batch)
                    = Raise (txt "500 Server Error"))
  /\ process_blob ascii_lib cfg2 env_fails_then_surrogate sample_name sample_five (start ∅)
     = (Raise (txt "UnicodeEncodeError: 'utf-8' codec can't encode character '" ++ [92%N]
               ++ txt "ud800' in position 53: surrogates not allowed"),
        mkWorld
          {[ txt "tweets.csv.0000.json" :=
               blob_of (JObj [(txt "error", JStr (txt "api_call_failed: 500 Server Error"));
                              (txt "chunk_index", JInt 0);
                              (txt "at", JStr (txt "2024-05-01T10:00:00Z"))]) ]}
          2 2).
Proof. repeat split; vm_compute; reflexivity. Qed.

(** C1, amended. Take a run whose parse yields rows, cut into the batches
    [bs], whose response bodies have a length and in which the blob name,
    the clock readings, the response bodies and the error texts can be
    encoded as UTF-8. It sends a request for every batch whatever the other
    requests end in, and leaves one artifact per batch: for a batch whose
    request failed the document [{error, chunk_index, at}] with a reason
    that is not empty, otherwise the document
    [{chunk_index, chunk_size, predictions, processed_at}]. Its manifest
    gives the number of rows as [total_rows], the number of batches, failed
    ones included, as [total_chunks], and the predictions of the successful
    batches only as [total_predictions]. *)
Theorem failure_isolation (L : pylib) (cfg : config) (E : env) (name : text)
    (raw : list N) (container : gmap text text) (rows : list row) (bs : list (list row)) :
  parse L (read_text L raw) = Ret (Some rows) ->
  rows <> [] ->
  batches cfg rows = Some bs ->
  sized_responses E ->
  encodable_readings E ->
  encodable name = true ->
  exists w,
    process_blob L cfg E name raw (start container) = (Ret tt, w)
    /\ post_calls w = length bs
    /\ (forall j batch, bs !! j = Some batch ->
          (forall e, post E j (payload_of batch) = Raise e ->
             blobs w !! _chunk_blob_name name j
             = Some (blob_of (JObj [(txt "error", JStr (txt "api_call_failed: " ++ e));
                                    (txt "chunk_index", JInt (Z.of_nat j));
                                    (txt "at", JStr (now_at E j))]))
             /\ txt "api_call_failed: " ++ e <> [])
          /\ (forall preds, post E j (payload_of batch) = Ret preds ->
                blobs w !! _chunk_blob_name name j
                = Some (blob_of (JObj [(txt "chunk_index", JInt (Z.of_nat j));
                                       (txt "chunk_size", JInt (Z.of_nat (length batch)));
                                       (txt "predictions", preds);
                                       (txt "processed_at", JStr (now_at E j))]))))
    /\ blobs w !! _manifest_blob_name name
       = Some (blob_of
                 (JObj [(txt "file", JStr name);
                        (txt "total_rows", JInt (Z.of_nat (length rows)));
                        (txt "total_chunks", JInt (Z.of_nat (length bs)));
                        (txt "total_predictions",
                         JInt (Z.of_nat (sum_list (imap (prediction_count E) bs))));
                        (txt "completed_at", JStr (now_at E (length bs)))])).
Proof.
  intros Hparse Hrows Hbs Hsized Henc Hname. unfold process_blob. rewrite Hparse.
  destruct rows as [|r rows']; [done|].
  destruct (dispatch_all_spec cfg E name (r :: rows') bs (start container)
              Hsized Henc Hname Hbs)
    as (w & Hrun & Hposts & Hchunks & Hmanifest & _); [done..|].
  exists w. split; [exact Hrun|]. split; [exact Hposts|]. split; [|exact Hmanifest].
  intros j batch Hj. pose proof (Hchunks j batch Hj) as Hchunk.
  unfold chunk_document in Hchunk. split.
  - intros e He. rewrite He in Hchunk. split; [exact Hchunk|]. by vm_compute.
  - intros preds Hp. rewrite Hp in Hchunk. exact Hchunk.
Qed.

End Run.

Lemma env_second_fails_sized : sized_responses env_second_fails.
Proof.
  intros k p preds H. simpl in H. unfold labels_for in H.
  repeat case_match; simplify_eq; done.
Qed.

Lemma env_second_fails_encodable : encodable_readings env_second_fails.
Proof.
  split; [|split].
  - intros k. change (encodable (txt "2024-05-01T10:00:0" ++ str_of_nat k) = true).
    apply encodable_app_2; [reflexivity|apply encodable_str_of_nat].
  - intros k p preds H. simpl in H. case_match; simplify_eq. apply encodable_labels_for.
  - intros k p e H. simpl in H. case_match; by simplify_eq.
Qed.

(** Five rows in batches of two, the second request failing. *)
Lemma failure_isolation_witness :
  exists w,
    FunctionApp.process_blob ascii_lib cfg2 env_second_fails sample_name sample_five
      (FunctionApp.start ∅) = (Ret tt, w)
    /\ FunctionApp.post_calls w = length five_batches
    /\ (forall j batch, five_batches !! j = Some batch ->
          (forall e, FunctionApp.post env_second_fails j (payload_of batch) = Raise e ->
             FunctionApp.blobs w !! FunctionApp._chunk_blob_name sample_name j
             = Some (blob_of (JObj [(txt "error", JStr (txt "api_call_failed: " ++ e));
                                    (txt "chunk_index", JInt (Z.of_nat j));
                                    (txt "at", JStr (now_at env_second_fails j))]))
             /\ txt "api_call_failed: " ++ e <> [])
          /\ (forall preds, FunctionApp.post env_second_fails j (payload_of batch) = Ret preds ->
                FunctionApp.blobs w !! FunctionApp._chunk_blob_name sample_name j
                = Some (blob_of (JObj [(txt "chunk_index", JInt (Z.of_nat j));
                                       (txt "chunk_size", JInt (Z.of_nat (length batch)));
                                       (txt "predictions", preds);
                                       (txt "processed_at",
                                        JStr (now_at env_second_fails j))]))))
    /\ FunctionApp.blobs w !! FunctionApp._manifest_blob_name sample_name
       = Some (blob_of
                 (JObj [(txt "file", JStr sample_name);
                        (txt "total_rows", JInt (Z.of_nat (length five_rows)));
                        (txt "total_chunks", JInt (Z.of_nat (length five_batches)));
                        (txt "total_predictions",
                         JInt (Z.of_nat (sum_list (imap (prediction_count env_second_fails)
                                                     five_batches))));
                        (txt "completed_at",
                         JStr (now_at env_second_fails (length five_batches)))])).
Proof.
  apply (failure_isolation ascii_lib cfg2 env_second_fails sample_name sample_five ∅
           five_rows five_batches).
  - vm_compute. reflexivity.
  - discriminate.
  - vm_compute. reflexivity.
  - exact env_second_fails_sized.
  - exact env_second_fails_encodable.
  - reflexivity.
Defined.
(** ** The missing header (lines 45 to 48) *)


(** ** Running twice *)

Section Rerun.

Import FunctionApp.

Variable L : pylib.
Variable cfg : config.
Variable name : text.
Variable raw : list N.

Lemma union_absorb (A B c : gmap text text) :
  dom A ⊆ dom B -> B ∪ (A ∪ c) = B ∪ c.
Proof.
  intros Hsub. apply map_eq. intros key.
  destruct (B !! key) as [v|] eqn:HB.
  - by rewrite !(lookup_union_Some_l _ _ _ _ HB).
  - rewrite (lookup_union_r B (A ∪ c)), (lookup_union_r B c) by done.
    apply lookup_union_r. apply not_elem_of_dom. apply not_elem_of_dom in HB.
    set_solver.
Qed.

Lemma chunk_key_cases key k :
  (exists j, j < k /\ key = _chunk_blob_name name j)
  \/ (forall j, j < k -> key <> _chunk_blob_name name j).
Proof.
  destruct (decide (key ∈ (_chunk_blob_name name <$> seq 0 k))) as [Hin|Hout].
  - left. apply list_elem_of_fmap in Hin as (j & -> & Hj).
    apply elem_of_seq in Hj. exists j. split; [lia|done].
  - right. intros j Hj ->. apply Hout. apply list_elem_of_fmap. exists j.
    split; [done|]. apply elem_of_seq. lia.
Qed.

Lemma upload_union (c A : gmap text text) key doc n p :
  blobs (snd (_upload_json key doc (mkWorld (A ∪ c) n p)))
  = blobs (snd (_upload_json key doc (mkWorld A n p))) ∪ c.
Proof.
  unfold _upload_json. destruct (encode_utf8 _); cbn [snd blobs]; [|done].
  apply insert_union_l.
Qed.

(** A run never reads the container: what it leaves is what it leaves in
    an empty container, laid over the container it started on. *)
Lemma output_union E c :
  output L cfg E name raw c = output L cfg E name raw ∅ ∪ c.
Proof.
  unfold output, process_blob, start.
  rewrite <- (left_id_L ∅ (∪) c) at 1.
  destruct (parse L (read_text L raw)) as [[[|r rows']|]|e];
    try apply upload_union; [|done].
  unfold dispatch_all. destruct (range0 _ _) as [starts|]; [|done].
  unfold mbind, M_bind, bind.
  rewrite (dispatch_loop_union cfg E name (r :: rows') c starts 0 0 ∅ 0 0).
  destruct (dispatch_loop cfg E name (r :: rows') starts 0 0 (mkWorld ∅ 0 0))
    as [[totals|e] w1]; cbn [fst snd]; [|done].
  unfold _now. cbn [blobs now_calls post_calls]. apply upload_union.
Qed.

(** The names a run writes under depend on the input alone. *)
Lemma output_dom E :
  sized_responses E ->
  encodable_readings E ->
  encodable name = true ->
  dom (output L cfg E name raw ∅) = output_keys L cfg name raw.
Proof.
  intros Hsized Henc Hname. unfold output, output_keys, process_blob.
  assert (Hmeta : forall doc, encodable (dumps doc) = true ->
            dom (blobs (snd (_write_meta name doc (start ∅))))
            = {[ _manifest_blob_name name ]}).
  { intros doc Hdoc. unfold _write_meta, _upload_json. rewrite encode_document by done.
    cbn [snd blobs start]. rewrite dom_insert_L, dom_empty_L. apply (right_id_L ∅ (∪)). }
  destruct (parse L (read_text L raw)) as [[rows|]|e].
  - destruct rows as [|r rows']; [by apply Hmeta|].
    destruct (batches cfg (r :: rows')) as [bs|] eqn:Hbs.
    + destruct (dispatch_all_spec cfg E name (r :: rows') bs (start ∅) Hsized Henc Hname Hbs)
        as (w0 & Hrun0 & _ & Hchunks0 & Hmanifest0 & Hframe0); [done..|].
      rewrite Hrun0. cbn [snd]. apply set_eq. intros key.
      rewrite elem_of_dom, elem_of_union, elem_of_singleton, elem_of_list_to_set.
      destruct (decide (key = _manifest_blob_name name)) as [->|Hm].
      { rewrite Hmanifest0. split; [by left|by eexists]. }
      destruct (chunk_key_cases key (length bs)) as [(j & Hj & ->)|Hc].
      { destruct (lookup_lt_is_Some_2 bs j Hj) as [batch Hb].
        rewrite (Hchunks0 j batch Hb). split; [|by eexists]. intros _. right.
        apply list_elem_of_fmap. exists j. split; [done|]. apply elem_of_seq. lia. }
      rewrite (Hframe0 key Hm Hc). cbn [blobs start]. rewrite lookup_empty. split.
      * by intros [? ?].
      * intros [?|Hin]; [done|]. apply list_elem_of_fmap in Hin as (j & -> & Hj).
        apply elem_of_seq in Hj. exfalso. apply (Hc j); [lia|done].
    + unfold batches in Hbs. unfold dispatch_all.
      destruct (range0 _ _); [done|]. cbn [snd raise blobs start]. apply dom_empty_L.
  - by apply Hmeta.
  - cbn [snd raise blobs start]. apply dom_empty_L.
Qed.

Lemma dispatch_loop_same E1 E2 rows starts i total w :
  same_readings E1 E2 ->
  dispatch_loop cfg E1 name rows starts i total w
  = dispatch_loop cfg E2 name rows starts i total w.
Proof.
  intros [Hclock Hpost]. revert i total w.
  induction starts as [|x starts' IH]; intros i total w; [done|].
  rewrite !dispatch_loop_cons. cbv zeta. unfold now_at.
  rewrite Hpost, Hclock. destruct (encode_utf8 _); [|done].
  destruct (post E2 _ _) as [preds|e]; [|apply IH].
  destruct (len preds); [apply IH|done].
Qed.

(** With the same clock readings and API results a run does the same. *)
Lemma process_blob_same E1 E2 w :
  same_readings E1 E2 ->
  process_blob L cfg E1 name raw w = process_blob L cfg E2 name raw w.
Proof.
  intros Hsame. unfold process_blob.
  destruct (parse L (read_text L raw)) as [[[|r rows']|]|e]; try done.
  unfold dispatch_all. destruct (range0 _ _) as [starts|]; [|done].
  unfold mbind, M_bind, bind. rewrite (dispatch_loop_same E1 E2) by done.
  destruct (dispatch_loop cfg E2 _ _ _ _ _ _) as [[[a b]|e] w']; [|done].
  unfold _now. destruct Hsame as [Hclock _]. by rewrite Hclock.
Qed.

End Rerun.

(** C3, as the claim states it, fails: the artifacts carry the time of the
    run, so the manifest of a second run on the same bytes and name is not
    the manifest of the first. Nor are the names always the same: a run
    that is answered a number, or an array holding a lone surrogate, ends
    before it writes what the other run wrote. *)
Lemma rerun_content_differs :
  output ascii_lib cfg2 env_day2 sample_name sample_one_row
    (output ascii_lib cfg2 env_day1 sample_name sample_one_row ∅)
    !! txt "tweets.csv.manifest.json"
  <> output ascii_lib cfg2 env_day1 sample_name sample_one_row ∅
       !! txt "tweets.csv.manifest.json"
  /\ dom (output ascii_lib cfg2 env_day1 sample_name sample_one_row ∅)
     = {[ txt "tweets.csv.0000.json"; txt "tweets.csv.manifest.json" ]}
  /\ dom (output ascii_lib cfg2 env_number sample_name sample_one_row ∅)
     = {[ txt "tweets.csv.0000.json" ]}
  /\ dom (output ascii_lib cfg2 env_surrogate sample_name sample_one_row ∅) = ∅.
Proof.
  split; [vm_compute; intros [=]|].
  repeat split; apply (bool_decide_eq_true_1 _); vm_compute; reflexivity.
Qed.

(** C3, amended. Take two runs on the same bytes under the same name, in
    each of which the response bodies have a length and the blob name, the
    clock readings, the response bodies and the error texts can be encoded
    as UTF-8. They write under the same set of names, whatever the clock
    shows and the API answers, and the second run replaces everything the
    first wrote: the container ends as if only the second had run. A run
    that meets the same clock readings and API results as the first leaves
    every blob as the first left it. *)
Theorem rerun_overwrites (L : FunctionApp.pylib) (cfg : FunctionApp.config)
    (E1 E2 E3 : FunctionApp.env) (name : text) (raw : list N) :
  encodable name = true ->
  sized_responses E1 -> encodable_readings E1 ->
  sized_responses E2 -> encodable_readings E2 ->
  same_readings E1 E3 ->
  dom (output L cfg E1 name raw ∅) = dom (output L cfg E2 name raw ∅)
  /\ (forall c, output L cfg E2 name raw (output L cfg E1 name raw c)
                = output L cfg E2 name raw c)
  /\ (forall c, output L cfg E3 name raw (output L cfg E1 name raw c)
                = output L cfg E1 name raw c).
Proof.
  intros Hname Hs1 He1 Hs2 He2 Hsame. split; [|split].
  - by rewrite !output_dom.
  - intros c. rewrite (output_union L cfg name raw E2 (output _ _ _ _ _ c)).
    rewrite (output_union L cfg name raw E1 c), (output_union L cfg name raw E2 c).
    apply union_absorb. by rewrite !output_dom.
  - intros c.
    assert (Heq : forall c', output L cfg E3 name raw c' = output L cfg E1 name raw c').
    { intros c'. unfold output. by rewrite (process_blob_same L cfg name raw E1 E3). }
    rewrite Heq. rewrite (output_union L cfg name raw E1 (output _ _ _ _ _ c)).
    rewrite (output_union L cfg name raw E1 c).
    by rewrite (union_absorb _ _ c).
Qed.

Lemma env_day1_sized : sized_responses env_day1.
Proof. intros k p preds [= <-]. done. Qed.

Lemma env_day2_sized : sized_responses env_day2.
Proof. intros k p preds [= <-]. done. Qed.

Lemma env_day1_encodable : encodable_readings env_day1.
Proof. split; [done|split]; [by intros k p preds [= <-]|by intros k p e [=]]. Qed.

Lemma env_day2_encodable : encodable_readings env_day2.
Proof. split; [done|split]; [by intros k p preds [= <-]|by intros k p e [=]]. Qed.

(** Two runs a day apart on the same one-row file, and a third that meets
    what the first met. *)
Lemma rerun_overwrites_witness :
  dom (output ascii_lib cfg2 env_day1 sample_name sample_one_row ∅)
  = dom (output ascii_lib cfg2 env_day2 sample_name sample_one_row ∅)
  /\ (forall c, output ascii_lib cfg2 env_day2 sample_name sample_one_row
                  (output ascii_lib cfg2 env_day1 sample_name sample_one_row c)
                = output ascii_lib cfg2 env_day2 sample_name sample_one_row c)
  /\ (forall c, output ascii_lib cfg2 env_day1_again sample_name sample_one_row
                  (output ascii_lib cfg2 env_day1 sample_name sample_one_row c)
                = output ascii_lib cfg2 env_day1 sample_name sample_one_row c).
Proof.
  apply (rerun_overwrites ascii_lib cfg2 env_day1 env_day2 env_day1_again sample_name
           sample_one_row).
  - reflexivity.
  - exact env_day1_sized.
  - exact env_day1_encodable.
  - exact env_day2_sized.
  - exact env_day2_encodable.
  - split; reflexivity.
Defined.

(** ** Delimiter detection (lines 36 to 42) *)

Section Detection.

Implicit Types (s cur line : text) (d c : char).

Lemma count_app d s1 s2 : count d (s1 ++ s2) = count d s1 + count d s2.
Proof. unfold count. by rewrite filter_app, length_app. Qed.

Lemma count_cons d c s :
  count d (c :: s) = (if decide (c = d) then 1 else 0) + count d s.
Proof.
  unfold count. destruct (decide (c = d)) as [->|Hne].
  - by rewrite filter_cons_True.
  - by rewrite filter_cons_False.
Qed.

Lemma count_pos d s : (0 <? count d s) = bool_decide (d ∈ s).
Proof.
  induction s as [|c s IH].
  - done.
  - rewrite count_cons. destruct (decide (c = d)) as [->|Hne].
    + simpl. symmetry. apply bool_decide_eq_true. left.
    + simpl. rewrite IH. apply bool_decide_ext. rewrite elem_of_cons.
      split; [by right|]. intros [?|?]; [congruence|done].
Qed.

(** The sample is one line: splitting it at the line feeds leaves at most
    one non-empty line, in which every other character occurs as often as in
    the sample. *)
Lemma first_line_one_line t cur :
  count 10%N cur = 0 ->
  exists line,
    nonempty_lines_from cur (first_line t) = match line with [] => [] | _ => [line] end
    /\ forall d, d <> 10%N -> count d line = count d (cur ++ first_line t).
Proof.
  revert cur. induction t as [|c t IH]; intros cur Hcur.
  - exists cur. simpl. rewrite app_nil_r. split; [by destruct cur|done].
  - simpl first_line. destruct (is_linebreak c) eqn:Hbreak.
    + destruct (N.eqb_spec c 10) as [->|Hc10].
      * exists cur. assert (Hfl : (match t with
                                   | [] => [10%N]
                                   | c2 :: _ => if ((10 =? 13) && (c2 =? 10))%N
                                                then [10%N; c2] else [10%N]
                                   end) = [10%N]) by (by destruct t).
        rewrite Hfl. simpl. split; [by destruct cur|].
        intros d Hd. rewrite count_app, count_cons.
        destruct (decide (10%N = d)); [done|]. simpl. unfold count at 3. simpl. lia.
      * assert (Hcases : (match t with
                          | [] => [c]
                          | c2 :: _ => if ((c =? 13) && (c2 =? 10))%N then [c; c2] else [c]
                          end) = [c]
                         \/ (match t with
                             | [] => [c]
                             | c2 :: _ => if ((c =? 13) && (c2 =? 10))%N then [c; c2] else [c]
                             end) = [c; 10%N]).
        { destruct t as [|c2 t]; [by left|].
          destruct (N.eqb_spec c 13); simpl; [|by left].
          destruct (N.eqb_spec c2 10) as [->|]; [by right|by left]. }
        exists (cur ++ [c]).
        assert (Hne : cur ++ [c] <> []) by (by destruct cur).
        destruct Hcases as [-> | ->]; simpl;
          apply N.eqb_neq in Hc10; rewrite Hc10; simpl.
        -- split; [by destruct (cur ++ [c])|done].
        -- split; [by destruct (cur ++ [c])|].
           intros d Hd. rewrite !count_app, !count_cons.
           destruct (decide (10%N = d)); [done|]. unfold count at 2 4. simpl. lia.
    + assert (Hc10 : (c =? 10)%N = false).
      { apply N.eqb_neq. intros ->. done. }
      destruct (IH (cur ++ [c])) as (line & Hlines & Hcount).
      { rewrite count_app, count_cons. apply N.eqb_neq in Hc10.
        destruct (decide (c = 10%N)); [done|]. unfold count at 2. simpl. lia. }
      exists line. simpl. rewrite Hc10. split; [exact Hlines|].
      intros d Hd. rewrite (Hcount d Hd). by rewrite <- app_assoc.
Qed.

Lemma omap_outside {A B} (f : A -> option B) (keep : A -> bool) (l : list A) :
  (forall x, keep x = false -> f x = None) ->
  omap f l = omap f (List.filter keep l).
Proof.
  intros Hout. induction l as [|x l IH]; simpl; [done|].
  destruct (keep x) eqn:Hk; simpl.
  - destruct (f x); [f_equal|]; exact IH.
  - rewrite (Hout x Hk). exact IH.
Qed.

(** Only the four candidates can enter [delims], in the order of their
    codes: tab, comma, semicolon, bar. *)
Lemma line_delims_candidates line :
  line_delims line FunctionApp.candidates
  = omap (fun c => if 0 <? count c line then Some (c, count c line) else None)
         [9; 44; 59; 124]%N.
Proof.
  unfold line_delims.
  rewrite (omap_outside _ (fun c => bool_decide (c ∈ FunctionApp.candidates))).
  - change (List.filter _ ascii_chars) with [9; 44; 59; 124]%N.
    simpl. by rewrite !andb_true_r.
  - intros c Hc. cbv zeta. rewrite Hc. by rewrite andb_false_r.
Qed.

Lemma guess_delimiter_one_line t :
  default FunctionApp.comma (guess_delimiter (first_line t) FunctionApp.candidates)
  = first_occurring (first_line t).
Proof.
  unfold guess_delimiter, first_occurring, sniffer_order.
  destruct (first_line_one_line t []) as (line & -> & Hcount); [done|].
  assert (Hocc : forall d, d <> 10%N -> bool_decide (d ∈ first_line t) = (0 <? count d line)).
  { intros d Hd. by rewrite (Hcount d Hd), count_pos. }
  simpl List.find. rewrite !Hocc by done.
  destruct line as [|c0 line'].
  - done.
  - rewrite line_delims_candidates. simpl omap.
    destruct (0 <? count 9%N (c0 :: line')), (0 <? count 44%N (c0 :: line')),
      (0 <? count 59%N (c0 :: line')), (0 <? count 124%N (c0 :: line')); reflexivity.
Qed.

End Detection.

(** C6, as the claim states it, fails: on the first line [a;b<tab>c] the
    first listed candidate that splits the line is the semicolon, and the
    code picks the tab. *)
Lemma detection_prefers_tab :
  FunctionApp.detect_delimiter ascii_lib (txt "a;b" ++ tab ++ txt "c") = 9%N
  /\ claimed_delimiter (first_line (txt "a;b" ++ tab ++ txt "c")) = 59%N
  /\ FunctionApp.detect_delimiter ascii_lib (txt "a;b" ++ tab ++ txt "c")
     <> claimed_delimiter (first_line (txt "a;b" ++ tab ++ txt "c")).
Proof. split; [reflexivity|]. split; [reflexivity|]. by vm_compute. Qed.

(** C6, amended. Detection looks at the first line only. On a first line
    without quote characters it picks the first of comma, tab, semicolon and
    bar (in this order, the Sniffer's) that occurs in the line, and the
    comma when none occurs; so [a;b;c] gives the semicolon, [a,b,c] the
    comma, and a line with no candidate the comma. *)
Theorem delimiter_detection (L : FunctionApp.pylib) (t : text) :
  has_quote (first_line t) = false ->
  FunctionApp.detect_delimiter L t = first_occurring (first_line t)
  /\ (forall t', first_line t' = first_line t ->
        FunctionApp.detect_delimiter L t' = FunctionApp.detect_delimiter L t)
  /\ FunctionApp.detect_delimiter L (txt "a;b;c") = 59%N
  /\ FunctionApp.detect_delimiter L (txt "a,b,c") = 44%N
  /\ ((forall d, d ∈ FunctionApp.candidates -> d ∉ first_line t) ->
      FunctionApp.detect_delimiter L t = 44%N).
Proof.
  intros Hquote.
  assert (Hdetect : FunctionApp.detect_delimiter L t = first_occurring (first_line t)).
  { unfold FunctionApp.detect_delimiter, sniff, guess_quote_and_delimiter.
    rewrite Hquote, <- guess_delimiter_one_line.
    by destruct (guess_delimiter _ _). }
  split; [exact Hdetect|]. split; [|split; [|split]].
  - intros t' Ht'. unfold FunctionApp.detect_delimiter. by rewrite Ht'.
  - reflexivity.
  - reflexivity.
  - intros Hnone. rewrite Hdetect. unfold first_occurring, sniffer_order. simpl.
    rewrite !bool_decide_eq_false_2; [done|apply Hnone..]; set_solver.
Qed.

(** The header [text;lang]. *)
Lemma delimiter_detection_witness :
  FunctionApp.detect_delimiter ascii_lib sample_text_only
  = first_occurring (first_line sample_text_only)
  /\ (forall t', first_line t' = first_line sample_text_only ->
        FunctionApp.detect_delimiter ascii_lib t'
        = FunctionApp.detect_delimiter ascii_lib sample_text_only)
  /\ FunctionApp.detect_delimiter ascii_lib (txt "a;b;c") = 59%N
  /\ FunctionApp.detect_delimiter ascii_lib (txt "a,b,c") = 44%N
  /\ ((forall d, d ∈ FunctionApp.candidates -> d ∉ first_line sample_text_only) ->
      FunctionApp.detect_delimiter ascii_lib sample_text_only = 44%N).
Proof. apply (delimiter_detection ascii_lib sample_text_only). reflexivity. Defined.

(** ** The API ([api/inference.py], [api/app.py]) *)

Section ApiProperties.

Import Api.

Variable score : Type.
Variable zero : score.
Variable lower : text -> text.
Variable nlp : list text -> list (output score).
Variable utcnow_isoformat : nat -> text.

Lemma predict_texts_lookup texts clock i r :
  fst (predict_texts score zero lower nlp utcnow_isoformat texts clock) !! i = Some r ->
  exists t out,
    texts !! i = Some t /\ nlp texts !! i = Some out
    /\ r = make_result score zero lower (utcnow_isoformat clock ++ txt "Z") (t, out).
Proof.
  unfold predict_texts. cbn [fst]. rewrite list_lookup_fmap.
  destruct (zip texts (nlp texts) !! i) as [[t out]|] eqn:Hz; [|done].
  intros [= <-]. apply lookup_zip_with_Some in Hz as (t' & out' & [= <- <-] & Ht & Hout).
  by exists t, out.
Qed.

Lemma predict_texts_length texts clock :
  length (fst (predict_texts score zero lower nlp utcnow_isoformat texts clock))
  = Nat.min (length texts) (length (nlp texts)).
Proof. unfold predict_texts. cbn [fst]. by rewrite length_map, length_zip_with. Qed.

End ApiProperties.

(** C9. The response of [/predict] zips the items of the request with the
    outputs of the model, in order: entry [i] carries the id and the text of
    item [i] as they are, with the label of output [i], lowercased, and its
    score (the lowercased [NEUTRAL] and 0.0 for an output that lacks the
    one or the other); items beyond the outputs of the model are left out
    without an error, and the response is as long as the shorter of the
    two. *)
Theorem predict_alignment (score : Type) (zero : score) (lower : text -> text)
    (nlp : list text -> list (Api.output score)) (utcnow_isoformat : nat -> text)
    (items : list Api.Item) (clock : nat) :
  let outputs := nlp (map Api.text_ items) in
  let response := fst (Api.predict score zero lower nlp utcnow_isoformat items clock) in
  length response = Nat.min (length items) (length outputs)
  /\ forall i e, response !! i = Some e ->
       exists it out,
         items !! i = Some it /\ outputs !! i = Some out
         /\ Api.e_id score e = Api.id it
         /\ Api.e_text score e = Api.text_ it
         /\ (forall l, Api.label score out = Some l ->
               Api.e_sentiment_label score e = lower l)
         /\ (Api.label score out = None ->
               Api.e_sentiment_label score e = lower (txt "NEUTRAL"))
         /\ (forall x, Api.out_score score out = Some x ->
               Api.e_sentiment_score score e = x)
         /\ (Api.out_score score out = None -> Api.e_sentiment_score score e = zero).
Proof.
  cbv zeta. unfold Api.predict.
  pose proof (predict_texts_length score zero lower nlp utcnow_isoformat
                (map Api.text_ items) clock) as Hlen.
  pose proof (fun i r => predict_texts_lookup score zero lower nlp utcnow_isoformat
                (map Api.text_ items) clock i r) as Hlookup.
  destruct (Api.predict_texts score zero lower nlp utcnow_isoformat
              (map Api.text_ items) clock) as [preds clock'].
  cbn [fst] in *. split.
  - rewrite length_map, length_zip_with, Hlen, length_map. lia.
  - intros i e. rewrite list_lookup_fmap.
    destruct (zip items preds !! i) as [[it r]|] eqn:Hz; [|done].
    intros [= <-]. apply lookup_zip_with_Some in Hz as (it' & r' & [= <- <-] & Hit & Hr).
    apply Hlookup in Hr as (t & out & Ht & Hout & ->).
    exists it, out. do 4 (split; [done|]). destruct out as [l s]. cbn.
    repeat split.
    + by intros l' ->.
    + by intros ->.
    + by intros x ->.
    + by intros ->.
Qed.

(** C10. One call of [predict_texts] reads the clock once, before the loop,
    and every prediction it returns carries that one reading; the label of
    a prediction is the lowercased label of the model's output, so it is
    unchanged by lowercasing, and it is [neutral] when the output has no
    label; the score is 0.0 when the output has no score. [lower] is taken
    to be idempotent and to map [NEUTRAL] to [neutral], as [str.lower] does. *)
Theorem single_timestamp (score : Type) (zero : score) (lower : text -> text)
    (nlp : list text -> list (Api.output score)) (utcnow_isoformat : nat -> text)
    (texts : list text) (clock : nat) :
  (forall s, lower (lower s) = lower s) ->
  lower (txt "NEUTRAL") = txt "neutral" ->
  let results := fst (Api.predict_texts score zero lower nlp utcnow_isoformat texts clock) in
  snd (Api.predict_texts score zero lower nlp utcnow_isoformat texts clock) = S clock
  /\ forall i r, results !! i = Some r ->
       Api.processed_at score r = utcnow_isoformat clock ++ txt "Z"
       /\ lower (Api.sentiment_label score r) = Api.sentiment_label score r
       /\ exists out,
            nlp texts !! i = Some out
            /\ (forall l, Api.label score out = Some l ->
                  Api.sentiment_label score r = lower l)
            /\ (Api.label score out = None ->
                  Api.sentiment_label score r = txt "neutral")
            /\ (forall x, Api.out_score score out = Some x ->
                  Api.sentiment_score score r = x)
            /\ (Api.out_score score out = None -> Api.sentiment_score score r = zero).
Proof.
  intros Hidem Hneutral. cbv zeta. split; [done|].
  intros i r Hr. apply predict_texts_lookup in Hr as (t & out & Ht & Hout & ->).
  unfold Api.make_result. cbn. split; [done|]. split; [apply Hidem|].
  exists out. split; [done|]. destruct out as [l s]. cbn.
  repeat split.
  - by intros l' ->.
  - by intros ->.
  - by intros x ->.
  - by intros ->.
Qed.

Lemma ascii_lower_idem s : ascii_lower (ascii_lower s) = ascii_lower s.
Proof.
  unfold ascii_lower. rewrite map_map. apply map_ext. intros c.
  destruct ((65 <=? c) && (c <=? 90))%N eqn:Hc; [|by rewrite Hc].
  apply andb_true_iff in Hc as [H1 H2]. apply N.leb_le in H1, H2.
  replace ((65 <=? c + 32) && (c + 32 <=? 90))%N with false; [done|].
  symmetry. apply andb_false_iff. right. apply N.leb_gt. lia.
Qed.

(** Two texts, a model that answers POSITIVE, the ASCII part of [lower]. *)
Lemma single_timestamp_witness :
  snd (Api.predict_texts nat 0 ascii_lower always_positive fixed_clock
         [txt "good"; txt "fine"] 0) = 1
  /\ forall i r,
       fst (Api.predict_texts nat 0 ascii_lower always_positive fixed_clock
              [txt "good"; txt "fine"] 0) !! i = Some r ->
       Api.processed_at nat r = fixed_clock 0 ++ txt "Z"
       /\ ascii_lower (Api.sentiment_label nat r) = Api.sentiment_label nat r
       /\ exists out,
            always_positive [txt "good"; txt "fine"] !! i = Some out
            /\ (forall l, Api.label nat out = Some l ->
                  Api.sentiment_label nat r = ascii_lower l)
            /\ (Api.label nat out = None -> Api.sentiment_label nat r = txt "neutral")
            /\ (forall x, Api.out_score nat out = Some x -> Api.sentiment_score nat r = x)
            /\ (Api.out_score nat out = None -> Api.sentiment_score nat r = 0).
Proof.
  apply (single_timestamp nat 0 ascii_lower always_positive fixed_clock
           [txt "good"; txt "fine"] 0).
  - exact ascii_lower_idem.
  - reflexivity.
Defined.

(** ** The retry policy (lines 16 to 18 and 74 to 84) *)

(** C4. The code does not do what the claim says. The [Retry] of line 17
    keeps the default allowed methods, which leave out POST, so a POST that
    meets status 503 is not sent again: against an endpoint that answers
    503 three times and then 200, the one attempt made ends in the
    [HTTPError] of [raise_for_status], and the batch gets a Failure artifact.
    Where retries do happen (a refused connection), [total=4] allows four
    retries after the first attempt, five attempts in all. *)
Theorem post_503_not_retried :
  Http.api_call api_url busy_three_times
  = (Raise (txt "503 Server Error: Service Unavailable for url: https://api.example/predict"), 1)
  /\ Http.is_retry Http.retries Http.POST 503 false = false
  /\ Http.is_retry Http.retries Http.GET 503 false = true
  /\ snd (Http.api_call api_url always_refused) = 5
  /\ (forall batch,
        chunk_document
          (FunctionApp.http_env (FunctionApp.mkConfig api_url 100 120) fixed_clock
             (fun _ _ => busy_three_times)) 0 batch
        = failure_document
            (txt "api_call_failed: 503 Server Error: Service Unavailable for url: https://api.example/predict")
            0 (txt "2024-05-01T10:00:00Z")).
Proof. repeat split; reflexivity. Qed.

(** ** More on the blob names (lines 113 to 120) *)

Section MoreBlobNames.

Import FunctionApp.

Lemma last_component_from_no_slash cur s :
  47%N ∉ s -> last_component_from cur s = cur ++ s.
Proof.
  revert cur. induction s as [|c s IH]; intros cur Hs; simpl.
  - by rewrite app_nil_r.
  - apply not_elem_of_cons in Hs as [Hc Hs].
    destruct (N.eqb_spec c 47) as [->|_]; [done|].
    rewrite IH by done. by rewrite <- app_assoc.
Qed.

Lemma last_component_from_slash cur dir base :
  last_component_from cur (dir ++ 47%N :: base) = last_component_from [] base.
Proof.
  revert cur. induction dir as [|c dir IH]; intros cur; simpl.
  - done.
  - destruct (c =? 47)%N; apply IH.
Qed.

Lemma last_component_from_slash_free cur s :
  47%N ∉ cur -> 47%N ∉ last_component_from cur s.
Proof.
  revert cur. induction s as [|c s IH]; intros cur Hcur; simpl; [done|].
  destruct (N.eqb_spec c 47) as [->|Hc].
  - apply IH. apply not_elem_of_nil.
  - apply IH. rewrite elem_of_app, list_elem_of_singleton. intros [?|?]; [done|].
    by apply Hc.
Qed.

(** X1. The base name that the blob names are built on is what follows the
    last slash of the input name: it holds no slash, it is the whole name
    when the name has no slash, and two input names that end in the same
    base name get the same chunk and manifest names. *)
Theorem blob_names_from_base_name (dir base : text) (i : nat) :
  47%N ∉ base ->
  (47%N ∉ last_component (dir ++ 47%N :: base))
  /\ last_component base = base
  /\ _chunk_blob_name (dir ++ 47%N :: base) i = base ++ txt "." ++ format_04d i ++ txt ".json"
  /\ _manifest_blob_name (dir ++ 47%N :: base) = base ++ txt ".manifest.json"
  /\ _chunk_blob_name (dir ++ 47%N :: base) i = _chunk_blob_name base i
  /\ _manifest_blob_name (dir ++ 47%N :: base) = _manifest_blob_name base.
Proof.
  intros Hbase.
  assert (H1 : last_component base = base).
  { unfold last_component. by rewrite last_component_from_no_slash. }
  assert (H2 : last_component (dir ++ 47%N :: base) = base).
  { unfold last_component. rewrite last_component_from_slash.
    by rewrite last_component_from_no_slash. }
  unfold _chunk_blob_name, _manifest_blob_name. rewrite H1, H2. done.
Qed.

(** The names of [input/a/tweets.csv], batch 3. *)
Lemma blob_names_from_base_name_witness :
  (47%N ∉ last_component (txt "input/a" ++ 47%N :: txt "tweets.csv"))
  /\ last_component (txt "tweets.csv") = txt "tweets.csv"
  /\ _chunk_blob_name (txt "input/a" ++ 47%N :: txt "tweets.csv") 3
     = txt "tweets.csv" ++ txt "." ++ format_04d 3 ++ txt ".json"
  /\ _manifest_blob_name (txt "input/a" ++ 47%N :: txt "tweets.csv")
     = txt "tweets.csv" ++ txt ".manifest.json"
  /\ _chunk_blob_name (txt "input/a" ++ 47%N :: txt "tweets.csv") 3
     = _chunk_blob_name (txt "tweets.csv") 3
  /\ _manifest_blob_name (txt "input/a" ++ 47%N :: txt "tweets.csv")
     = _manifest_blob_name (txt "tweets.csv").
Proof.
  apply (blob_names_from_base_name (txt "input/a") (txt "tweets.csv") 3).
  apply (bool_decide_eq_false_1 _). vm_compute. reflexivity.
Defined.

Lemma format_04d_digits n : Forall is_digit (format_04d n).
Proof.
  unfold format_04d. apply Forall_app. split.
  - apply Forall_replicate. unfold is_digit. lia.
  - unfold str_of_nat, NilZero.string_of_uint.
    destruct (Nat.to_uint n) eqn:Hd; try (rewrite <- Hd; apply uint_digits).
    repeat constructor; unfold is_digit; simpl; lia.
Qed.

Lemma format_04d_small :
  forallb (fun n => length (format_04d n) =? 4) (seq 0 (100 * 100)) = true.
Proof. vm_compute. reflexivity. Qed.

(** X2. The index in a chunk name, [f"{chunk_idx:04d}"], is made of decimal
    digits only, is at least four characters long and exactly four below
    10000, and reads back as the index, so that the text determines the
    index. *)
Theorem chunk_index_format (n : nat) :
  Forall is_digit (format_04d n)
  /\ 4 <= length (format_04d n)
  /\ (n < 100 * 100 -> length (format_04d n) = 4)
  /\ digits_value 0 (format_04d n) = n
  /\ (forall m, format_04d m = format_04d n -> m = n).
Proof.
  split; [apply format_04d_digits|]. split; [|split; [|split]].
  - unfold format_04d. rewrite length_app, length_replicate. lia.
  - intros Hn. pose proof format_04d_small as H.
    rewrite forallb_forall in H. apply Nat.eqb_eq, H, in_seq. lia.
  - apply format_04d_value.
  - intros m. apply format_04d_inj.
Qed.

(** X3. Within a run no two writes collide: chunk names of different
    indices differ, also beyond index 9999, and no chunk name is the
    manifest name. *)
Theorem blob_names_distinct (name : text) (i j : nat) :
  (_chunk_blob_name name i = _chunk_blob_name name j <-> i = j)
  /\ _chunk_blob_name name i <> _manifest_blob_name name.
Proof.
  split.
  - split; [apply chunk_blob_name_inj|by intros ->].
  - intros H. by apply (manifest_not_chunk name i).
Qed.

End MoreBlobNames.

(** ** More on the row parser (lines 31 to 66) *)

Section MoreRows.

Import FunctionApp.

(** X4. When an identifier column is resolved, a row keeps the value of
    that column as its id, unchanged, if the value is not empty; a row whose
    identifier cell is empty or missing gets its 1-based position among the
    accepted rows instead. *)
Theorem row_ids_verbatim (L : pylib) (t : text) (rows : list row)
    (k : nat) (rw : row) (r : dictrow) (key : text) :
  parse L t = Ret (Some rows) ->
  id_key_of L t = Some key ->
  rows !! k = Some rw ->
  accepted (text_key_of L t) (dict_rows L t) !! k = Some r ->
  (forall c s, get r (Some key) = PStr (c :: s) -> row_id rw = c :: s)
  /\ (get r (Some key) = PStr [] \/ get r (Some key) = PNone ->
      row_id rw = str_of_nat (k + 1)).
Proof.
  intros Hparse Hkey Hrw Hr. apply parse_spec in Hparse as [_ Hids].
  rewrite (Hids k rw r Hrw Hr). unfold id_key_of in Hkey. rewrite Hkey.
  unfold row_identifier. rewrite length_take.
  apply lookup_lt_Some in Hrw.
  replace (length rows `min` k) with k by lia. replace (k `min` length rows) with k by lia.
  split.
  - by intros c s ->.
  - by intros [-> | ->].
Qed.

(** The first row of [sample_id_text]. *)
Lemma row_ids_verbatim_witness :
  (forall c s,
      get (make_dict [txt "id"; txt "text"] [txt "7"; txt "hello   world "])
          (Some (txt "id")) = PStr (c :: s) ->
      row_id (mkRow (txt "7") (txt "hello world")) = c :: s)
  /\ (get (make_dict [txt "id"; txt "text"] [txt "7"; txt "hello   world "])
          (Some (txt "id")) = PStr []
      \/ get (make_dict [txt "id"; txt "text"] [txt "7"; txt "hello   world "])
             (Some (txt "id")) = PNone ->
      row_id (mkRow (txt "7") (txt "hello world")) = str_of_nat (0 + 1)).
Proof.
  apply (row_ids_verbatim ascii_lib sample_id_text
           [mkRow (txt "7") (txt "hello world"); mkRow (txt "9") (txt "bye")]
           0 (mkRow (txt "7") (txt "hello world"))
           (make_dict [txt "id"; txt "text"] [txt "7"; txt "hello   world "])
           (txt "id")).
  - vm_compute. reflexivity.
  - vm_compute. reflexivity.
  - reflexivity.
  - vm_compute. reflexivity.
Defined.

Lemma foldl_insert_cells_None (m : gmap text (option text)) (l : list (text * text)) k :
  k ∉ l.*1 ->
  foldl (fun m kv => <[fst kv := Some (snd kv)]> m) m l !! k = m !! k.
Proof.
  revert m. induction l as [|[k' v] l IH]; intros m Hk; simpl; [done|].
  simpl in Hk. apply not_elem_of_cons in Hk as [Hne Hk].
  rewrite IH by done. by apply lookup_insert_ne.
Qed.

Lemma foldl_restval_cells_None (m : gmap text (option text)) (l : list text) k :
  k ∉ l -> foldl (fun m k' => <[k' := None]> m) m l !! k = m !! k.
Proof.
  revert m. induction l as [|k' l IH]; intros m Hk; simpl; [done|].
  apply not_elem_of_cons in Hk as [Hne Hk].
  rewrite IH by done. by apply lookup_insert_ne.
Qed.

(** A row has cells under the field names only. *)
Lemma get_make_dict_absent fieldnames record k :
  k ∉ fieldnames -> get (make_dict fieldnames record) (Some k) = PNone.
Proof.
  intros Hk. unfold get, make_dict.
  assert (Hzip : k ∉ (zip fieldnames record).*1).
  { intros Hin. apply Hk. apply list_elem_of_fmap in Hin as ([k' v] & -> & Hin).
    apply elem_of_zip_l in Hin. done. }
  destruct (length fieldnames <? length record); simpl.
  - by rewrite foldl_insert_cells_None.
  - rewrite foldl_restval_cells_None.
    + by rewrite foldl_insert_cells_None.
    + intros Hin. apply Hk. by eapply subseteq_drop.
Qed.

Lemma data_rows_make_dict fieldnames data r :
  r ∈ data_rows fieldnames data -> exists record, r = make_dict fieldnames record.
Proof.
  induction data as [|record data IH|]; simpl;
    [intros H; inversion H| |intros H; inversion H].
  destruct record as [|f fs]; [exact IH|].
  intros [->|Hin]%elem_of_cons; [by eexists|by apply IH].
Qed.

Lemma source_string_absent fieldnames record text_key :
  txt "text" ∉ fieldnames -> txt "tweet" ∉ fieldnames ->
  txt "comment" ∉ fieldnames -> txt "message" ∉ fieldnames ->
  text_key = Some (txt "text") \/ text_key = Some (txt "tweet") \/ text_key = None ->
  source_string text_key (make_dict fieldnames record) = [].
Proof.
  intros Htext Htweet Hcomment Hmessage Hkey.
  unfold source_string, source_text.
  rewrite (get_make_dict_absent _ _ (txt "comment")) by done.
  rewrite (get_make_dict_absent _ _ (txt "message")) by done.
  destruct Hkey as [-> | [-> | ->]].
  - by rewrite (get_make_dict_absent _ _ (txt "text")).
  - by rewrite (get_make_dict_absent _ _ (txt "tweet")).
  - unfold get. destruct (rest _) as [l|]; [|done].
    unfold py_or. by destruct l.
Qed.

Lemma resolve_cases first second headers :
  resolve first second headers = Some first
  \/ resolve first second headers = Some second
  \/ resolve first second headers = None.
Proof. unfold resolve. repeat case_bool_decide; auto. Qed.

(** X5. The rows are read under the header names as the file writes them,
    not as line 51 normalizes them: when no header is written exactly
    [text], [tweet], [comment] or [message], no row gets a text and the
    parser yields no row at all, whatever the normalized names are. *)
Theorem text_header_must_be_literal (L : pylib) (t : text) (rows : list row) :
  txt "text" ∉ raw_header L t -> txt "tweet" ∉ raw_header L t ->
  txt "comment" ∉ raw_header L t -> txt "message" ∉ raw_header L t ->
  parse L t = Ret (Some rows) ->
  rows = [].
Proof.
  intros Htext Htweet Hcomment Hmessage Hparse.
  apply parse_spec in Hparse as [Htexts _].
  destruct (accepted (text_key_of L t) (dict_rows L t)) as [|r l] eqn:Hacc.
  { by apply Forall2_nil_inv_r in Htexts. }
  exfalso. assert (Hin : r ∈ accepted (text_key_of L t) (dict_rows L t)).
  { rewrite Hacc. left. }
  apply list_elem_of_filter in Hin as [Hne Hin]. apply Hne.
  unfold dict_rows, text_key_of, header_names, raw_header in *.
  destruct (csv_reader t (detect_delimiter L t)) as [|fieldnames data|];
    [inversion Hin| |inversion Hin].
  apply data_rows_make_dict in Hin as [record ->].
  rewrite source_string_absent; [done..|]. apply resolve_cases.
Qed.

(** The header [ID,Text]. *)
Lemma text_header_must_be_literal_witness : @nil row = [].
Proof.
  apply (text_header_must_be_literal ascii_lib sample_capitals []).
  - apply (bool_decide_eq_false_1 _). vm_compute. reflexivity.
  - apply (bool_decide_eq_false_1 _). vm_compute. reflexivity.
  - apply (bool_decide_eq_false_1 _). vm_compute. reflexivity.
  - apply (bool_decide_eq_false_1 _). vm_compute. reflexivity.
  - vm_compute. reflexivity.
Defined.

End MoreRows.

Section RowErrors.

Import FunctionApp.

Lemma make_dict_rest fieldnames record l :
  rest (make_dict fieldnames record) = Some l -> l <> [].
Proof.
  unfold make_dict. destruct (Nat.ltb_spec (length fieldnames) (length record)) as [Hlt|Hge];
    simpl; [|done].
  intros [= <-] Hnil. apply (f_equal length) in Hnil. rewrite length_drop in Hnil.
  simpl in Hnil. lia.
Qed.

Lemma collapse_long_row r l :
  rest r = Some l -> l <> [] -> collapse (source_text None r) = Raise attribute_error.
Proof.
  intros Hrest Hl. unfold collapse, source_text, get at 1. rewrite Hrest.
  unfold py_or. destruct l; [done|]. done.
Qed.

Lemma collapse_short_row r :
  rest r = None -> exists s, collapse (source_text None r) = Ret s.
Proof.
  intros Hrest. unfold collapse, source_text, get. rewrite Hrest.
  unfold py_or. repeat case_match; simplify_eq; eauto.
Qed.

Lemma read_rows_long fieldnames id_key data rows0 i r :
  data_rows fieldnames data !! i = Some r -> rest r <> None ->
  read_rows fieldnames id_key None data rows0 = Raise attribute_error.
Proof.
  revert i rows0. induction data as [|record data IH|]; intros i rows0; simpl; [done| |done].
  destruct record as [|f fs]; [apply IH|].
  set (r0 := make_dict fieldnames (f :: fs)).
  destruct (rest r0) as [l|] eqn:Hrest.
  - intros _ _. rewrite (collapse_long_row r0 l Hrest); [done|].
    by eapply make_dict_rest.
  - destruct (collapse_short_row r0 Hrest) as [s ->].
    destruct i as [|i]; simpl.
    + intros [= <-] Hr. done.
    + intros Hi Hr. destruct s; by eapply IH.
Qed.

(** X6. When neither [text] nor [tweet] is among the normalized headers and
    some data row has more cells than the header, the run raises the
    [AttributeError] of [split] on that row's list of surplus cells: it ends
    without a request and without writing anything, not even a manifest. *)
Theorem long_row_without_text_column (L : pylib) (cfg : config) (E : env) (name : text)
    (raw : list N) (c : gmap text text) (i : nat) (r : dictrow) :
  raw_header L (read_text L raw) <> [] ->
  text_key_of L (read_text L raw) = None ->
  dict_rows L (read_text L raw) !! i = Some r ->
  rest r <> None ->
  process_blob L cfg E name raw (start c) = (Raise attribute_error, start c).
Proof.
  intros Hheader Hkey Hi Hrest. unfold process_blob.
  assert (Hparse : parse L (read_text L raw) = Raise attribute_error); [|by rewrite Hparse].
  unfold parse. unfold raw_header, text_key_of, header_names, dict_rows, normalized in *.
  destruct (csv_reader _ _) as [|fieldnames data|]; [done| |done].
  destruct fieldnames as [|f fs]; [done|].
  rewrite Hkey. by rewrite (read_rows_long _ _ data [] i r Hi Hrest).
Qed.

(** The file [sample_long_row], whose second row has a cell too many. *)
Lemma long_row_without_text_column_witness :
  process_blob ascii_lib cfg2 env_echo sample_name sample_long_row (start ∅)
  = (Raise attribute_error, start ∅).
Proof.
  apply (long_row_without_text_column ascii_lib cfg2 env_echo sample_name sample_long_row ∅ 1
           (make_dict [txt "id"; txt "lang"] [txt "2"; txt "en"; txt "extra"])).
  - vm_compute. discriminate.
  - vm_compute. reflexivity.
  - vm_compute. reflexivity.
  - vm_compute. discriminate.
Defined.



Lemma lstrip_by_head p s c s' : lstrip_by p s = c :: s' -> p c = false.
Proof.
  induction s as [|d s IH]; simpl; [done|].
  destruct (p d) eqn:Hd; [exact IH|]. by intros [= <- _].
Qed.

Lemma lstrip_by_replicate p n c s :
  p c = true -> lstrip_by p (replicate n c ++ s) = lstrip_by p s.
Proof. intros Hc. induction n as [|n IH]; simpl; [done|]. by rewrite Hc. Qed.

Lemma lstrip_by_keep p s : (forall c s', s = c :: s' -> p c = false) -> lstrip_by p s = s.
Proof. destruct s as [|c s]; simpl; [done|]. intros H. by rewrite (H c s). Qed.

(** X8. The text that is parsed never starts with a byte order mark: every
    mark at the front of the decoded text is dropped, however many there are,
    and nothing else is. *)
Theorem byte_order_marks_dropped (L : pylib) (raw : list N) :
  (forall c s, read_text L raw = c :: s -> c <> BOM)
  /\ (forall n t, decode L raw = replicate n BOM ++ t ->
        (forall c s, t = c :: s -> c <> BOM) ->
        read_text L raw = t).
Proof.
  unfold read_text. split.
  - intros c s. destruct (decode L raw) as [|d t] eqn:Hd; [done|].
    destruct (N.eqb_spec d BOM) as [->|Hne].
    + intros H%lstrip_by_head. by apply N.eqb_neq in H.
    + by intros [= <- _].
  - intros n t -> Ht.
    assert (Hkeep : lstrip_by (fun c => (c =? BOM)%N) t = t).
    { apply lstrip_by_keep. intros c s Hcs. apply N.eqb_neq. by eapply Ht. }
    destruct n as [|n].
    + simpl. destruct t as [|c t]; [done|].
      destruct (N.eqb_spec c BOM) as [->|_]; [|done]. by exfalso; eapply Ht.
    + change (replicate (S n) BOM ++ t) with (BOM :: (replicate n BOM ++ t)).
      cbv beta iota. rewrite N.eqb_refl. rewrite <- Hkeep at 2.
      by apply (lstrip_by_replicate _ (S n)).
Qed.

End RowErrors.

Section Words.

Import FunctionApp.

Lemma split_scan_word_prefix w cur s :
  Forall (fun c => isspace c = false) w ->
  split_scan cur (w ++ s) = split_scan (cur ++ w) s.
Proof.
  intros Hw. revert cur. induction Hw as [|c w Hc Hw IH]; intros cur; simpl.
  - by rewrite app_nil_r.
  - rewrite Hc, IH. by rewrite <- app_assoc.
Qed.

Lemma split_scan_words cur s :
  Forall (fun c => isspace c = false) cur -> Forall is_word (split_scan cur s).
Proof.
  revert cur. induction s as [|c s IH]; intros cur Hcur; simpl.
  - destruct cur; [constructor|]. constructor; [done|constructor].
  - destruct (isspace c) eqn:Hc.
    + destruct cur as [|c0 cur]; [by apply IH|].
      constructor; [done|]. by apply IH.
    + apply IH. apply Forall_app. split; [done|]. constructor; [done|constructor].
Qed.

Lemma split_scan_space cur s :
  cur <> [] -> split_scan cur (space :: s) = cur :: split_scan [] s.
Proof. intros Hcur. simpl. by destruct cur. Qed.

Lemma split_join_words ws :
  Forall is_word ws -> split (join [space] ws) = ws.
Proof.
  unfold split. induction 1 as [|w ws [Hne Hw] Hws IH]; [done|].
  destruct ws as [|w' ws].
  - simpl. rewrite <- (app_nil_r w) at 1. rewrite split_scan_word_prefix by done.
    simpl. by destruct w.
  - change (join [space] (w :: w' :: ws)) with (w ++ space :: join [space] (w' :: ws)).
    rewrite split_scan_word_prefix, app_nil_l, split_scan_space by done.
    by rewrite IH.
Qed.

(** X9. The text of every row the parser yields is a non-empty sequence of
    words joined by single spaces, each word not empty and free of white
    space; splitting the text gives back the words, so normalizing it again
    changes nothing. *)
Theorem row_texts_are_words (L : pylib) (t : text) (rows : list row) :
  parse L t = Ret (Some rows) ->
  Forall (fun rw =>
            exists ws, ws <> [] /\ Forall is_word ws
                       /\ row_text rw = join [space] ws
                       /\ split (row_text rw) = ws
                       /\ join [space] (split (row_text rw)) = row_text rw)
         rows.
Proof.
  intros Hparse. apply parse_spec in Hparse as [Htexts _].
  eapply Forall2_Forall_l; [exact Htexts|]. apply Forall_forall.
  intros r _ rw [Htext Hne]. rewrite <- join_split_collapse in Htext.
  set (ws := split (source_string (text_key_of L t) r)) in *.
  assert (Hws : Forall is_word ws) by (by apply split_scan_words).
  exists ws. rewrite Htext, split_join_words by done.
  repeat split; try done. intros Hnil. apply Hne. by rewrite Htext, Hnil.
Qed.

(** The rows of [sample_id_text]. *)
Lemma row_texts_are_words_witness :
  Forall (fun rw =>
            exists ws, ws <> [] /\ Forall is_word ws
                       /\ row_text rw = join [space] ws
                       /\ split (row_text rw) = ws
                       /\ join [space] (split (row_text rw)) = row_text rw)
         [mkRow (txt "7") (txt "hello world"); mkRow (txt "9") (txt "bye")].
Proof. apply (row_texts_are_words ascii_lib sample_id_text). vm_compute. reflexivity. Defined.

End Words.
(** ** More on a run (lines 64 to 107) *)

Section MoreRuns.

Import FunctionApp.

Lemma upload_frame key doc w other :
  other <> key -> blobs (snd (_upload_json key doc w)) !! other = blobs w !! other.
Proof.
  intros Hother. unfold _upload_json. destruct (encode_utf8 _); cbn [snd blobs]; [|done].
  by apply lookup_insert_ne.
Qed.

Lemma dispatch_loop_frame cfg E name rows starts i total w key :
  (forall j, key <> _chunk_blob_name name j) ->
  blobs (snd (dispatch_loop cfg E name rows starts i total w)) !! key = blobs w !! key.
Proof.
  intros Hkey. revert i total w.
  induction starts as [|x starts IH]; intros i total w; [done|].
  rewrite dispatch_loop_cons. cbv zeta.
  destruct (encode_utf8 _) as [data|u]; [|done].
  destruct (post E _ _) as [preds|e].
  - destruct (len preds).
    + rewrite IH. cbn [blobs]. by apply lookup_insert_ne.
    + cbn [snd blobs]. by apply lookup_insert_ne.
  - rewrite IH. cbn [blobs]. by apply lookup_insert_ne.
Qed.

(** X10. Whatever the input, the clock and the API do, and however the run
    ends, it leaves every blob alone whose name is neither the manifest name
    nor a chunk name of the input's base name. *)
Theorem run_touches_only_its_names (L : pylib) (cfg : config) (E : env) (name : text)
    (raw : list N) (c : gmap text text) (key : text) :
  key <> _manifest_blob_name name ->
  (forall j, key <> _chunk_blob_name name j) ->
  output L cfg E name raw c !! key = c !! key.
Proof.
  intros Hm Hc. unfold output, process_blob.
  destruct (parse L (read_text L raw)) as [[[|r rows]|]|e];
    try (by apply upload_frame); try done.
  unfold dispatch_all. destruct (range0 _ _) as [starts|]; [|done].
  unfold mbind, M_bind, bind.
  pose proof (dispatch_loop_frame cfg E name (r :: rows) starts 0 0 (start c) key Hc) as Hloop.
  destruct (dispatch_loop cfg E name (r :: rows) starts 0 0 (start c)) as [[totals|e] w].
  - unfold _now. rewrite upload_frame by done. exact Hloop.
  - exact Hloop.
Qed.

(** A name outside the input's base name. *)
Lemma run_touches_only_its_names_witness :
  output ascii_lib cfg2 env_echo sample_name sample_five
    {[ txt "other.json" := txt "kept" ]} !! txt "other.json"
  = ({[ txt "other.json" := txt "kept" ]} : gmap text text) !! txt "other.json".
Proof.
  apply (run_touches_only_its_names ascii_lib cfg2 env_echo sample_name sample_five
           {[ txt "other.json" := txt "kept" ]} (txt "other.json")).
  - vm_compute. discriminate.
  - intros j H. vm_compute in H. discriminate.
Defined.

(** X11. A run over [k] batches in which the response bodies have a length
    and the blob name, the clock readings, the response bodies and the
    error texts can be encoded leaves exactly [k + 1] blobs in a container
    that was empty: one per batch and the manifest, no name written
    twice. *)
Theorem complete_run_blob_count (L : pylib) (cfg : config) (E : env) (name : text)
    (raw : list N) (rows : list row) (bs : list (list row)) :
  parse L (read_text L raw) = Ret (Some rows) ->
  rows <> [] ->
  batches cfg rows = Some bs ->
  sized_responses E ->
  encodable_readings E ->
  encodable name = true ->
  size (output L cfg E name raw ∅) = S (length bs)
  /\ dom (output L cfg E name raw ∅)
     = {[ _manifest_blob_name name ]}
       ∪ list_to_set (_chunk_blob_name name <$> seq 0 (length bs)).
Proof.
  intros Hparse Hrows Hbs Hsized Henc Hname.
  assert (Hdom : dom (output L cfg E name raw ∅)
                 = {[ _manifest_blob_name name ]}
                   ∪ list_to_set (_chunk_blob_name name <$> seq 0 (length bs))).
  { rewrite output_dom by done. unfold output_keys. rewrite Hparse.
    destruct rows; [done|]. by rewrite Hbs. }
  split; [|exact Hdom]. rewrite <- size_dom, Hdom.
  rewrite size_union.
  - rewrite size_singleton, size_list_to_set, length_fmap, length_seq; [done|].
    apply NoDup_fmap_2; [|apply NoDup_seq].
    intros i j. apply chunk_blob_name_inj.
  - intros key Hm Hc. apply elem_of_singleton in Hm as ->.
    apply elem_of_list_to_set, list_elem_of_fmap in Hc as (j & Heq & _).
    by apply (manifest_not_chunk name j).
Qed.

Lemma labels_for_length batch :
  len (labels_for (payload_of batch)) = Some (length batch).
Proof. unfold payload_of, labels_for. cbn [len]. by rewrite !length_map. Qed.

Lemma env_labels_sized : sized_responses env_labels.
Proof.
  intros k p preds [= <-]. unfold labels_for. repeat case_match; done.
Qed.

Lemma env_labels_encodable : encodable_readings env_labels.
Proof.
  split; [|split].
  - intros k. change (encodable (txt "2024-05-01T10:00:0" ++ str_of_nat k) = true).
    apply encodable_app_2; [reflexivity|apply encodable_str_of_nat].
  - intros k p preds [= <-]. apply encodable_labels_for.
  - intros k p e [=].
Qed.

Lemma env_labels_one_per_row : one_prediction_per_row env_labels.
Proof. intros k batch. eexists. split; [reflexivity|]. apply labels_for_length. Qed.

(** The file [sample_five] in batches of two. *)
Lemma complete_run_blob_count_witness :
  size (output ascii_lib cfg2 env_labels sample_name sample_five ∅) = S (length five_batches)
  /\ dom (output ascii_lib cfg2 env_labels sample_name sample_five ∅)
     = {[ _manifest_blob_name sample_name ]}
       ∪ list_to_set (_chunk_blob_name sample_name <$> seq 0 (length five_batches)).
Proof.
  apply (complete_run_blob_count ascii_lib cfg2 env_labels sample_name sample_five
           five_rows five_batches).
  - vm_compute. reflexivity.
  - discriminate.
  - vm_compute. reflexivity.
  - exact env_labels_sized.
  - exact env_labels_encodable.
  - reflexivity.
Defined.

(** X12. The chunk size is not checked when it is read: with rows to
    dispatch, a chunk size of zero makes the run raise the [ValueError] of
    [range] before any request, reading of the clock or write. *)
Theorem chunk_size_zero (L : pylib) (cfg : config) (E : env) (name : text)
    (raw : list N) (c : gmap text text) (rows : list row) :
  parse L (read_text L raw) = Ret (Some rows) ->
  rows <> [] ->
  CHUNK_SIZE cfg = 0%Z ->
  process_blob L cfg E name raw (start c)
  = (Raise (txt "ValueError: range() arg 3 must not be zero"), mkWorld c 0 0).
Proof.
  intros Hparse Hrows Hzero. unfold process_blob. rewrite Hparse.
  destruct rows as [|r rows]; [done|]. unfold dispatch_all, range0. by rewrite Hzero.
Qed.

(** The file [sample_five] with [CHUNK_SIZE=0]. *)
Lemma chunk_size_zero_witness :
  process_blob ascii_lib cfg_zero env_echo sample_name sample_five (start ∅)
  = (Raise (txt "ValueError: range() arg 3 must not be zero"), mkWorld ∅ 0 0).
Proof.
  apply (chunk_size_zero ascii_lib cfg_zero env_echo sample_name sample_five ∅ five_rows).
  - vm_compute. reflexivity.
  - discriminate.
  - reflexivity.
Defined.

(** X20. With rows to dispatch and a negative chunk size the run sends no
    request and writes one blob, a manifest that reports all the rows,
    zero chunks and zero predictions (the blob name and the clock reading
    being such that the manifest can be encoded). *)
Theorem chunk_size_negative (L : pylib) (cfg : config) (E : env) (name : text)
    (raw : list N) (c : gmap text text) (rows : list row) :
  parse L (read_text L raw) = Ret (Some rows) ->
  rows <> [] ->
  (CHUNK_SIZE cfg < 0)%Z ->
  encodable name = true ->
  encodable (utcnow_isoformat E 0) = true ->
  process_blob L cfg E name raw (start c)
  = (Ret tt,
     mkWorld (<[_manifest_blob_name name :=
                  blob_of (JObj [(txt "file", JStr name);
                                 (txt "total_rows", JInt (Z.of_nat (length rows)));
                                 (txt "total_chunks", JInt 0);
                                 (txt "total_predictions", JInt 0);
                                 (txt "completed_at",
                                  JStr (utcnow_isoformat E 0 ++ txt "Z"))])]> c) 1 0).
Proof.
  intros Hparse Hrows Hneg Hname Hclock. unfold process_blob. rewrite Hparse.
  destruct rows as [|r rows]; [done|]. unfold dispatch_all, range0.
  destruct (Z.eqb_spec (CHUNK_SIZE cfg) 0); [lia|].
  destruct (Z.ltb_spec (CHUNK_SIZE cfg) 0); [|lia].
  unfold mbind, M_bind, bind. cbn [dispatch_loop mret M_ret ret fst snd].
  unfold _now, _upload_json. cbn [blobs now_calls post_calls start].
  rewrite (encode_document (manifest name (r :: rows) 0 0 (utcnow_isoformat E 0 ++ txt "Z")));
    [done|].
  apply encodable_manifest; [done|]. by apply encodable_app_2.
Qed.

(** The file [sample_five] with [CHUNK_SIZE=-3]. *)
Lemma chunk_size_negative_witness :
  process_blob ascii_lib cfg_negative env_echo sample_name sample_five (start ∅)
  = (Ret tt,
     mkWorld (<[_manifest_blob_name sample_name :=
                  blob_of (JObj [(txt "file", JStr sample_name);
                                 (txt "total_rows", JInt (Z.of_nat (length five_rows)));
                                 (txt "total_chunks", JInt 0);
                                 (txt "total_predictions", JInt 0);
                                 (txt "completed_at",
                                  JStr (utcnow_isoformat env_echo 0 ++ txt "Z"))])]>
                (∅ : gmap text text)) 1 0).
Proof.
  apply (chunk_size_negative ascii_lib cfg_negative env_echo sample_name sample_five ∅
           five_rows).
  - vm_compute. reflexivity.
  - discriminate.
  - reflexivity.
  - reflexivity.
  - reflexivity.
Defined.

Lemma dispatch_loop_unsized cfg E name rows pre x rest_ i total w preds :
  encodable_readings E ->
  now_calls w = i -> post_calls w = i ->
  (forall j y p, pre !! j = Some y ->
     post E (i + j) (payload_of (batch_at cfg rows y)) = Ret p -> len p <> None) ->
  post E (i + length pre) (payload_of (batch_at cfg rows x)) = Ret preds ->
  len preds = None ->
  exists w',
    dispatch_loop cfg E name rows (pre ++ x :: rest_) i total w = (Raise (type_error preds), w')
    /\ post_calls w' = S (i + length pre)
    /\ blobs w' !! _chunk_blob_name name (i + length pre)
       = Some (blob_of (success_document (i + length pre) (length (batch_at cfg rows x))
                          preds (now_at E (i + length pre))))
    /\ (forall key, (forall j, j <= length pre -> key <> _chunk_blob_name name (i + j)) ->
          blobs w' !! key = blobs w !! key).
Proof.
  intros Henc.
  revert i total w. induction pre as [|y pre IH]; intros i total w Hnow Hpost Hpre Hx Hlen.
  - simpl app. rewrite dispatch_loop_turn by done. cbv zeta. simpl in Hx.
    rewrite Nat.add_0_r in *. unfold chunk_document. rewrite Hx, Hlen.
    eexists. split; [reflexivity|]. cbn [post_calls blobs]. split; [done|]. split.
    + by rewrite lookup_insert_eq.
    + intros key Hkey. apply lookup_insert_ne. intros Heq. apply (Hkey 0); [lia|].
      by rewrite Nat.add_0_r.
  - simpl app. rewrite dispatch_loop_turn by done. cbv zeta.
    assert (Hnext : forall data n,
      exists w',
        dispatch_loop cfg E name rows (pre ++ x :: rest_) (i + 1) n
          (mkWorld (<[_chunk_blob_name name i := data]> (blobs w)) (S i) (S i))
        = (Raise (type_error preds), w')
        /\ post_calls w' = S (i + length (y :: pre))
        /\ blobs w' !! _chunk_blob_name name (i + length (y :: pre))
           = Some (blob_of (success_document (i + length (y :: pre))
                              (length (batch_at cfg rows x)) preds
                              (now_at E (i + length (y :: pre)))))
        /\ (forall key, (forall j, j <= length (y :: pre) ->
                           key <> _chunk_blob_name name (i + j)) ->
              blobs w' !! key = blobs w !! key)).
    { intros data n. simpl length in *.
      replace (i + S (length pre)) with (i + 1 + length pre) in * by lia.
      destruct (IH (i + 1) n
                  (mkWorld (<[_chunk_blob_name name i := data]> (blobs w)) (S i) (S i)))
        as (w' & Hrun & Hposts & Hchunk & Hframe); [simpl; lia|simpl; lia| |done|done|].
      { intros j z p Hz. replace (i + 1 + j) with (i + S j) by lia. by apply Hpre. }
      exists w'. split; [exact Hrun|]. split; [lia|]. split; [exact Hchunk|].
      intros key Hkey. rewrite Hframe.
      - cbn [blobs]. apply lookup_insert_ne. intros Heq. apply (Hkey 0); [lia|].
        by rewrite Nat.add_0_r.
      - intros j Hj. replace (i + 1 + j) with (i + S j) by lia. apply Hkey. lia. }
    destruct (post E i (payload_of (batch_at cfg rows y))) as [p|e] eqn:Hp.
    + destruct (len p) as [n|] eqn:Hn.
      * apply Hnext.
      * exfalso. apply (Hpre 0 y p); [done| |done]. by rewrite Nat.add_0_r.
    + apply Hnext.
Qed.

(** X13. [len(preds)] stands outside the [try]: when the response to batch
    [j] is a JSON value without length (a number, a boolean, null), the
    earlier responses had one, and the clock readings, response bodies and
    error texts can be encoded, the run writes the artifact of batch [j]
    and then raises the [TypeError] of [len]; the later batches are never
    sent, their names and the manifest name are left as they were. *)
Theorem unsized_response_aborts (L : pylib) (cfg : config) (E : env) (name : text)
    (raw : list N) (c : gmap text text) (rows : list row) (bs : list (list row))
    (j : nat) (batch : list row) (preds : json) :
  parse L (read_text L raw) = Ret (Some rows) ->
  rows <> [] ->
  batches cfg rows = Some bs ->
  bs !! j = Some batch ->
  encodable_readings E ->
  (forall j' b p, j' < j -> bs !! j' = Some b ->
     post E j' (payload_of b) = Ret p -> len p <> None) ->
  post E j (payload_of batch) = Ret preds ->
  len preds = None ->
  exists w,
    process_blob L cfg E name raw (start c)
    = (Raise (txt "TypeError: object of type '" ++ type_name preds ++ txt "' has no len()"), w)
    /\ post_calls w = S j
    /\ blobs w !! _chunk_blob_name name j
       = Some (blob_of (JObj [(txt "chunk_index", JInt (Z.of_nat j));
                              (txt "chunk_size", JInt (Z.of_nat (length batch)));
                              (txt "predictions", preds);
                              (txt "processed_at", JStr (now_at E j))]))
    /\ blobs w !! _manifest_blob_name name = c !! _manifest_blob_name name
    /\ (forall j', j < j' ->
          blobs w !! _chunk_blob_name name j' = c !! _chunk_blob_name name j').
Proof.
  intros Hparse Hrows Hbs Hj Henc Hearlier Hpost Hlen. unfold process_blob. rewrite Hparse.
  destruct rows as [|r rows]; [done|]. unfold batches in Hbs. unfold dispatch_all.
  destruct (range0 _ _) as [starts|]; [|done]. injection Hbs as <-.
  rewrite list_lookup_fmap in Hj.
  destruct (starts !! j) as [x|] eqn:Hx; [|done]. injection Hj as <-.
  pose proof (lookup_lt_Some _ _ _ Hx) as Hlt.
  destruct (dispatch_loop_unsized cfg E name (r :: rows) (take j starts) x
              (drop (S j) starts) 0 0 (start c) preds)
    as (w & Hrun & Hposts & Hchunk & Hframe); [done|done|done| | | |].
  - intros j' y p Hy. apply lookup_take_Some in Hy as [Hy Hj'].
    apply (Hearlier j'); [done|]. by rewrite list_lookup_fmap, Hy.
  - by rewrite length_take_le by lia.
  - done.
  - rewrite take_drop_middle in Hrun by done. rewrite length_take_le in * by lia.
    exists w. unfold mbind, M_bind, bind. rewrite Hrun.
    split; [done|]. split; [exact Hposts|]. split; [exact Hchunk|]. split.
    + apply Hframe. intros j' _ Heq. by apply (manifest_not_chunk name (0 + j')).
    + intros j' Hj'. apply Hframe. intros j'' Hj'' Heq.
      apply chunk_blob_name_inj in Heq. lia.
Qed.

(** The file [sample_five], the API answering the number 5. *)
Lemma unsized_response_aborts_witness :
  exists w,
    process_blob ascii_lib cfg2 env_number sample_name sample_five (start ∅)
    = (Raise (txt "TypeError: object of type 'int' has no len()"), w)
    /\ post_calls w = S 0
    /\ blobs w !! _chunk_blob_name sample_name 0
       = Some (blob_of
                 (JObj [(txt "chunk_index", JInt (Z.of_nat 0));
                        (txt "chunk_size",
                         JInt (Z.of_nat (length [mkRow (txt "a") (txt "one");
                                                 mkRow (txt "b") (txt "two")])));
                        (txt "predictions", JInt 5);
                        (txt "processed_at", JStr (now_at env_number 0))]))
    /\ blobs w !! _manifest_blob_name sample_name
       = (∅ : gmap text text) !! _manifest_blob_name sample_name
    /\ (forall j', 0 < j' ->
          blobs w !! _chunk_blob_name sample_name j'
          = (∅ : gmap text text) !! _chunk_blob_name sample_name j').
Proof.
  apply (unsized_response_aborts ascii_lib cfg2 env_number sample_name sample_five ∅
           five_rows five_batches 0
           [mkRow (txt "a") (txt "one"); mkRow (txt "b") (txt "two")] (JInt 5)).
  - vm_compute. reflexivity.
  - discriminate.
  - vm_compute. reflexivity.
  - reflexivity.
  - split; [|split].
    + intros k. change (encodable (txt "2024-05-01T10:00:0" ++ str_of_nat k) = true).
      apply encodable_app_2; [reflexivity|apply encodable_str_of_nat].
    + by intros k p preds [= <-].
    + intros k p e [=].
  - intros j' b p Hj'. lia.
  - reflexivity.
  - reflexivity.
Defined.

Lemma sum_lengths_concat {A} (ls : list (list A)) :
  sum_list (length <$> ls) = length (concat ls).
Proof.
  induction ls as [|l ls IH]; [done|].
  change (length l + sum_list (length <$> ls) = length (l ++ concat ls)).
  by rewrite length_app, IH.
Qed.

(** X14. When the chunk size is positive, every request succeeds and is
    answered with one prediction per row of its batch, and the blob name,
    the clock readings and the response bodies can be encoded, the
    manifest counts as many predictions as rows: the batches lose no row
    and count none twice. *)
Theorem all_rows_predicted (L : pylib) (cfg : config) (E : env) (name : text)
    (raw : list N) (c : gmap text text) (rows : list row) (bs : list (list row)) :
  parse L (read_text L raw) = Ret (Some rows) ->
  rows <> [] ->
  (0 < CHUNK_SIZE cfg)%Z ->
  batches cfg rows = Some bs ->
  sized_responses E ->
  encodable_readings E ->
  encodable name = true ->
  one_prediction_per_row E ->
  output L cfg E name raw c !! _manifest_blob_name name
  = Some (blob_of (JObj [(txt "file", JStr name);
                         (txt "total_rows", JInt (Z.of_nat (length rows)));
                         (txt "total_chunks", JInt (Z.of_nat (length bs)));
                         (txt "total_predictions", JInt (Z.of_nat (length rows)));
                         (txt "completed_at", JStr (now_at E (length bs)))])).
Proof.
  intros Hparse Hrows Hpos Hbs Hsized Henc Hname Hone. unfold output, process_blob.
  rewrite Hparse. destruct rows as [|r rows]; [done|].
  destruct (dispatch_all_spec cfg E name (r :: rows) bs (start c) Hsized Henc Hname Hbs)
    as (w & Hrun & _ & _ & Hmanifest & _); [done..|].
  rewrite Hrun. cbn [snd]. rewrite Hmanifest. unfold manifest.
  assert (Htotal : sum_list (imap (prediction_count E) bs) = length (r :: rows)).
  { assert (Hcounts : imap (prediction_count E) bs = length <$> bs).
    { apply list_eq. intros j. rewrite list_lookup_imap, list_lookup_fmap.
      destruct (bs !! j) as [b|]; [|done]. simpl. f_equal. unfold prediction_count.
      destruct (Hone j b) as (preds & -> & ->). done. }
    rewrite Hcounts, sum_lengths_concat. f_equal.
    unfold batches, range0 in Hbs.
    destruct (Z.eqb_spec (CHUNK_SIZE cfg) 0); [lia|].
    destruct (Z.ltb_spec (CHUNK_SIZE cfg) 0); [lia|]. injection Hbs as <-.
    pose proof (range_loop_concat (r :: rows) (Z.to_nat (CHUNK_SIZE cfg))
                  (length (r :: rows)) 0 ltac:(lia) ltac:(lia)) as Hconcat.
    rewrite drop_0 in Hconcat. exact Hconcat. }
  by rewrite Htotal.
Qed.

(** The file [sample_five] in batches of two. *)
Lemma all_rows_predicted_witness :
  output ascii_lib cfg2 env_labels sample_name sample_five ∅ !! _manifest_blob_name sample_name
  = Some (blob_of (JObj [(txt "file", JStr sample_name);
                         (txt "total_rows", JInt (Z.of_nat (length five_rows)));
                         (txt "total_chunks", JInt (Z.of_nat (length five_batches)));
                         (txt "total_predictions", JInt (Z.of_nat (length five_rows)));
                         (txt "completed_at",
                          JStr (now_at env_labels (length five_batches)))])).
Proof.
  apply (all_rows_predicted ascii_lib cfg2 env_labels sample_name sample_five ∅
           five_rows five_batches).
  - vm_compute. reflexivity.
  - discriminate.
  - reflexivity.
  - vm_compute. reflexivity.
  - exact env_labels_sized.
  - exact env_labels_encodable.
  - reflexivity.
  - exact env_labels_one_per_row.
Defined.

(** X18. With a positive chunk size [b] and [n] rows, response bodies that
    have a length, and a blob name, clock readings, response bodies and
    error texts that can be encoded, the run sends [ceil(n/b)] requests and
    its manifest reports [total_rows = n] and [total_chunks = ceil(n/b)],
    whatever the requests end in. *)
Theorem manifest_chunk_count (L : pylib) (cfg : config) (E : env) (name : text)
    (raw : list N) (c : gmap text text) (rows : list row) :
  parse L (read_text L raw) = Ret (Some rows) ->
  rows <> [] ->
  (0 < CHUNK_SIZE cfg)%Z ->
  sized_responses E ->
  encodable_readings E ->
  encodable name = true ->
  let k := (length rows + (Z.to_nat (CHUNK_SIZE cfg) - 1)) / Z.to_nat (CHUNK_SIZE cfg) in
  exists w total,
    process_blob L cfg E name raw (start c) = (Ret tt, w)
    /\ post_calls w = k
    /\ blobs w !! _manifest_blob_name name
       = Some (blob_of (JObj [(txt "file", JStr name);
                              (txt "total_rows", JInt (Z.of_nat (length rows)));
                              (txt "total_chunks", JInt (Z.of_nat k));
                              (txt "total_predictions", JInt (Z.of_nat total));
                              (txt "completed_at", JStr (now_at E k))])).
Proof.
  intros Hparse Hrows Hpos Hsized Henc Hname. cbv zeta.
  assert (Hbs : exists bs, batches cfg rows = Some bs
                           /\ length bs = (length rows + (Z.to_nat (CHUNK_SIZE cfg) - 1))
                                          / Z.to_nat (CHUNK_SIZE cfg)).
  { unfold batches, range0.
    destruct (Z.eqb_spec (CHUNK_SIZE cfg) 0); [lia|].
    destruct (Z.ltb_spec (CHUNK_SIZE cfg) 0); [lia|].
    eexists. split; [reflexivity|].
    rewrite length_fmap, range_loop_length by lia. f_equal. lia. }
  destruct Hbs as (bs & Hbs & Hlen). unfold process_blob. rewrite Hparse.
  destruct rows as [|r rows]; [done|].
  destruct (dispatch_all_spec cfg E name (r :: rows) bs (start c) Hsized Henc Hname Hbs)
    as (w & Hrun & Hposts & _ & Hmanifest & _); [done..|].
  exists w, (sum_list (imap (prediction_count E) bs)).
  rewrite <- Hlen. done.
Qed.

(** The file [sample_five] in batches of two. *)
Lemma manifest_chunk_count_witness :
  exists w total,
    process_blob ascii_lib cfg2 env_labels sample_name sample_five (start ∅) = (Ret tt, w)
    /\ post_calls w
       = (length five_rows + (Z.to_nat (CHUNK_SIZE cfg2) - 1)) / Z.to_nat (CHUNK_SIZE cfg2)
    /\ blobs w !! _manifest_blob_name sample_name
       = Some (blob_of
                 (JObj [(txt "file", JStr sample_name);
                        (txt "total_rows", JInt (Z.of_nat (length five_rows)));
                        (txt "total_chunks",
                         JInt (Z.of_nat ((length five_rows + (Z.to_nat (CHUNK_SIZE cfg2) - 1))
                                         / Z.to_nat (CHUNK_SIZE cfg2))));
                        (txt "total_predictions", JInt (Z.of_nat total));
                        (txt "completed_at",
                         JStr (now_at env_labels
                                 ((length five_rows + (Z.to_nat (CHUNK_SIZE cfg2) - 1))
                                  / Z.to_nat (CHUNK_SIZE cfg2))))])).
Proof.
  apply (manifest_chunk_count ascii_lib cfg2 env_labels sample_name sample_five ∅ five_rows).
  - vm_compute. reflexivity.
  - discriminate.
  - reflexivity.
  - exact env_labels_sized.
  - exact env_labels_encodable.
  - reflexivity.
Defined.

End MoreRuns.

(** ** More on the API *)

Section MoreApi.

Variable score : Type.
Variable zero : score.
Variable lower : text -> text.
Variable utcnow_isoformat : nat -> text.

Lemma predict_response nlp items clock :
  fst (Api.predict score zero lower nlp utcnow_isoformat items clock)
  = map (Api.enrich score)
        (zip items (fst (Api.predict_texts score zero lower nlp utcnow_isoformat
                           (map Api.text_ items) clock)))
  /\ snd (Api.predict score zero lower nlp utcnow_isoformat items clock) = S clock.
Proof. done. Qed.

End MoreApi.

(** X15. When the model returns one output per text, the response of
    [/predict] has one entry per item of the request, with the ids and the
    texts of the request in the order of the request. *)
Theorem predict_echoes_items (score : Type) (zero : score) (lower : text -> text)
    (nlp : list text -> list (Api.output score)) (utcnow_isoformat : nat -> text)
    (items : list Api.Item) (clock : nat) :
  length (nlp (map Api.text_ items)) = length items ->
  let response := fst (Api.predict score zero lower nlp utcnow_isoformat items clock) in
  length response = length items
  /\ map (Api.e_id score) response = map Api.id items
  /\ map (Api.e_text score) response = map Api.text_ items.
Proof.
  intros Hlen. cbv zeta. rewrite (proj1 (predict_response _ _ _ _ _ _ _)).
  set (preds := fst (Api.predict_texts score zero lower nlp utcnow_isoformat
                       (map Api.text_ items) clock)).
  assert (Hpreds : length items <= length preds).
  { unfold preds. rewrite predict_texts_length, length_map. lia. }
  split; [|split].
  - rewrite length_map, length_zip_with. lia.
  - rewrite map_map. change (fun x => Api.e_id score (Api.enrich score x))
      with (fun x : Api.Item * Api.result score => Api.id (fst x)).
    rewrite <- (map_map fst Api.id). f_equal. by apply fst_zip.
  - rewrite map_map. change (fun x => Api.e_text score (Api.enrich score x))
      with (fun x : Api.Item * Api.result score => Api.text_ (fst x)).
    rewrite <- (map_map fst Api.text_). f_equal. by apply fst_zip.
Qed.

(** Three items, a model that labels each one. *)
Lemma predict_echoes_items_witness :
  length (fst (Api.predict nat 0 ascii_lower always_positive fixed_clock three_items 0))
  = length three_items
  /\ map (Api.e_id nat)
         (fst (Api.predict nat 0 ascii_lower always_positive fixed_clock three_items 0))
     = map Api.id three_items
  /\ map (Api.e_text nat)
         (fst (Api.predict nat 0 ascii_lower always_positive fixed_clock three_items 0))
     = map Api.text_ three_items.
Proof.
  apply (predict_echoes_items nat 0 ascii_lower always_positive fixed_clock three_items 0).
  reflexivity.
Defined.

Section LazyModel.

Import Process.

Variable score : Type.
Variable zero : score.
Variable lower : text -> text.
Variable pipeline : list text -> list (Api.output score).
Variable utcnow_isoformat : nat -> text.

Lemma serve_loaded requests st :
  _nlp score st = Some pipeline ->
  let result := serve score zero lower pipeline utcnow_isoformat requests st in
  _nlp score (snd result) = Some pipeline
  /\ loads score (snd result) = loads score st
  /\ clock score (snd result) = clock score st + length requests
  /\ forall k items, requests !! k = Some items ->
       fst result !! k
       = Some (fst (Api.predict score zero lower pipeline utcnow_isoformat items
                      (clock score st + k))).
Proof.
  revert st. induction requests as [|items requests IH]; intros st Hnlp; cbv zeta.
  - simpl. rewrite Nat.add_0_r. done.
  - simpl serve. unfold predict, _get_pipeline. rewrite Hnlp.
    destruct (Api.predict score zero lower pipeline utcnow_isoformat items (clock score st))
      as [response clock'] eqn:Hp.
    pose proof (proj2 (predict_response score zero lower utcnow_isoformat pipeline items
                         (clock score st))) as Hclock.
    rewrite Hp in Hclock. simpl in Hclock. subst clock'.
    specialize (IH (mkProcess score (Some pipeline) (loads score st) (S (clock score st)))
                   eq_refl).
    cbv zeta in IH. cbn [_nlp loads clock fst snd]. rewrite ?Hnlp.
    destruct (serve score zero lower pipeline utcnow_isoformat requests _) as [responses st2].
    cbn [fst snd _nlp loads clock length] in *. destruct IH as (Hn & Hl & Hc & Hr).
    split; [done|]. split; [done|]. split; [lia|].
    intros [|k] items' Hk.
    + injection Hk as <-. rewrite Nat.add_0_r, Hp. done.
    + change ((response :: responses) !! S k) with (responses !! k).
      rewrite (Hr k items' Hk). do 3 f_equal. lia.
Qed.

End LazyModel.

(** X16. For requests that a process handles one after the other, each
    finished before the next begins, the model is loaded lazily and once:
    a fresh process that serves one such request or more builds the model
    exactly once, on its first request, keeps it, answers every request
    with that model, and reads the clock once per request. *)
Theorem model_loaded_once (score : Type) (zero : score) (lower : text -> text)
    (pipeline : list text -> list (Api.output score)) (utcnow_isoformat : nat -> text)
    (requests : list (list Api.Item)) (c : nat) :
  requests <> [] ->
  let result := Process.serve score zero lower pipeline utcnow_isoformat requests
                  (Process.mkProcess score None 0 c) in
  Process.loads score (snd result) = 1
  /\ Process._nlp score (snd result) = Some pipeline
  /\ Process.clock score (snd result) = c + length requests
  /\ forall k items, requests !! k = Some items ->
       fst result !! k
       = Some (fst (Api.predict score zero lower pipeline utcnow_isoformat items (c + k))).
Proof.
  intros Hne. destruct requests as [|items requests]; [done|]. cbv zeta.
  cbn [Process.serve]. unfold Process.predict, Process._get_pipeline.
  cbn [Process._nlp Process.loads Process.clock].
  destruct (Api.predict score zero lower pipeline utcnow_isoformat items c)
    as [response clock'] eqn:Hp.
  pose proof (proj2 (predict_response score zero lower utcnow_isoformat pipeline items c))
    as Hclock.
  rewrite Hp in Hclock. simpl in Hclock. subst clock'.
  pose proof (serve_loaded score zero lower pipeline utcnow_isoformat requests
                (Process.mkProcess score (Some pipeline) 1 (S c)) eq_refl) as Hrest.
  cbv zeta in Hrest.
  destruct (Process.serve score zero lower pipeline utcnow_isoformat requests _)
    as [responses st2].
  cbn [fst snd Process._nlp Process.loads Process.clock length] in *.
  destruct Hrest as (Hn & Hl & Hc & Hr).
  split; [done|]. split; [done|]. split; [lia|].
  intros [|k] items' Hk.
  - injection Hk as <-. rewrite Nat.add_0_r, Hp. done.
  - change ((response :: responses) !! S k) with (responses !! k).
    rewrite (Hr k items' Hk). do 3 f_equal. lia.
Qed.

(** Two requests to a fresh process. *)
Lemma model_loaded_once_witness :
  Process.loads nat
    (snd (Process.serve nat 0 ascii_lower always_positive fixed_clock
            [three_items; three_items] (Process.mkProcess nat None 0 0))) = 1
  /\ Process._nlp nat
       (snd (Process.serve nat 0 ascii_lower always_positive fixed_clock
               [three_items; three_items] (Process.mkProcess nat None 0 0)))
     = Some always_positive
  /\ Process.clock nat
       (snd (Process.serve nat 0 ascii_lower always_positive fixed_clock
               [three_items; three_items] (Process.mkProcess nat None 0 0)))
     = 0 + length [three_items; three_items]
  /\ forall k items, [three_items; three_items] !! k = Some items ->
       fst (Process.serve nat 0 ascii_lower always_positive fixed_clock
              [three_items; three_items] (Process.mkProcess nat None 0 0)) !! k
       = Some (fst (Api.predict nat 0 ascii_lower always_positive fixed_clock items (0 + k))).
Proof.
  apply (model_loaded_once nat 0 ascii_lower always_positive fixed_clock
           [three_items; three_items] 0).
  discriminate.
Defined.

(** ** The written documents (lines 109 to 111) *)

Section Documents.

Lemma json_nested_ind (P : json -> Prop) :
  P JNull -> (forall b, P (JBool b)) -> (forall z, P (JInt z)) ->
  (forall r, P (JFloat r)) -> (forall s, P (JStr s)) ->
  (forall items, Forall P items -> P (JArr items)) ->
  (forall members, Forall (fun kv => P (snd kv)) members -> P (JObj members)) ->
  forall j, P j.
Proof.
  intros Hnull Hbool Hint Hfloat Hstr Harr Hobj. fix IH 1.
  intros [|b|z|r|s|items|members]; [done..| |].
  - apply Harr. induction items as [|x items IHitems]; constructor; [apply IH|exact IHitems].
  - apply Hobj. induction members as [|[k v] members IHmembers]; constructor;
      [apply IH|exact IHmembers].
Qed.

Lemma no_line_feed_app (s1 s2 : text) : 10%N ∉ s1 -> 10%N ∉ s2 -> 10%N ∉ s1 ++ s2.
Proof. intros H1 H2 [?|?]%elem_of_app; done. Qed.

Lemma no_line_feed_txt_digits (s : text) : Forall is_digit s -> 10%N ∉ s.
Proof.
  intros Hs Hin. rewrite Forall_forall in Hs. apply Hs in Hin. unfold is_digit in Hin. lia.
Qed.

Lemma no_line_feed_str_of_Z z : 10%N ∉ str_of_Z z.
Proof.
  unfold str_of_Z. destruct (z <? 0)%Z.
  - intros [?|Hin]%elem_of_cons; [done|].
    by apply (no_line_feed_txt_digits _ (str_of_nat_digits _)) in Hin.
  - apply no_line_feed_txt_digits, str_of_nat_digits.
Qed.

Lemma hex_digit_not_line_feed n : hex_digit n <> 10%N.
Proof. unfold hex_digit. destruct (n <? 10)%N; lia. Qed.

Lemma no_line_feed_escape_char c : 10%N ∉ escape_char c.
Proof.
  unfold escape_char.
  destruct (N.eqb_spec c 34); [by apply (bool_decide_eq_false_1 _)|].
  destruct (N.eqb_spec c 92); [by apply (bool_decide_eq_false_1 _)|].
  destruct (N.eqb_spec c 10); [by apply (bool_decide_eq_false_1 _)|].
  destruct (N.eqb_spec c 13); [by apply (bool_decide_eq_false_1 _)|].
  destruct (N.eqb_spec c 9); [by apply (bool_decide_eq_false_1 _)|].
  destruct (N.eqb_spec c 12); [by apply (bool_decide_eq_false_1 _)|].
  destruct (N.eqb_spec c 8); [by apply (bool_decide_eq_false_1 _)|].
  destruct (c <? 32)%N.
  - intros Hin. rewrite !elem_of_cons in Hin.
    destruct Hin as [?|[?|[?|[?|[Hh|[Hh|Hnil]]]]]]; try done.
    + symmetry in Hh. by apply hex_digit_not_line_feed in Hh.
    + symmetry in Hh. by apply hex_digit_not_line_feed in Hh.
    + by apply elem_of_nil in Hnil.
  - intros Hin%list_elem_of_singleton. congruence.
Qed.

Lemma no_line_feed_encode_basestring s : 10%N ∉ encode_basestring s.
Proof.
  unfold encode_basestring. apply no_line_feed_app; [by apply (bool_decide_eq_false_1 _)|].
  apply no_line_feed_app; [|by apply (bool_decide_eq_false_1 _)].
  induction s as [|c s IH]; simpl; [apply not_elem_of_nil|].
  apply no_line_feed_app; [apply no_line_feed_escape_char|exact IH].
Qed.

Lemma no_line_feed_join (sep : text) (parts : list text) :
  10%N ∉ sep -> Forall (fun p => 10%N ∉ p) parts -> 10%N ∉ join sep parts.
Proof.
  intros Hsep Hparts. induction Hparts as [|p parts Hp Hparts IH]; [apply not_elem_of_nil|].
  destruct parts as [|q parts]; [exact Hp|].
  change (join sep (p :: q :: parts)) with (p ++ sep ++ join sep (q :: parts)).
  by repeat apply no_line_feed_app.
Qed.

Lemma no_line_feed_dumps j : floats_on_one_line j = true -> 10%N ∉ dumps j.
Proof.
  induction j as [|b|z|r|s|items IH|members IH] using json_nested_ind; intros Hfloats.
  - by apply (bool_decide_eq_false_1 _).
  - destruct b; by apply (bool_decide_eq_false_1 _).
  - apply no_line_feed_str_of_Z.
  - simpl in *. apply negb_true_iff in Hfloats. by apply bool_decide_eq_false_1 in Hfloats.
  - apply no_line_feed_encode_basestring.
  - simpl in Hfloats.
    change (dumps (JArr items)) with (txt "[" ++ join (txt ", ") (map dumps items) ++ txt "]").
    apply no_line_feed_app; [by apply (bool_decide_eq_false_1 _)|].
    apply no_line_feed_app; [|by apply (bool_decide_eq_false_1 _)].
    apply no_line_feed_join; [by apply (bool_decide_eq_false_1 _)|].
    apply Forall_fmap. rewrite forallb_forall in Hfloats.
    rewrite Forall_forall in IH |- *. intros x Hx. apply IH; [done|].
    apply Hfloats. by apply list_elem_of_In.
  - simpl in Hfloats.
    change (dumps (JObj members))
      with (txt "{"
            ++ join (txt ", ")
                 (map (fun kv => encode_basestring (fst kv) ++ txt ": " ++ dumps (snd kv))
                      members)
            ++ txt "}").
    apply no_line_feed_app; [by apply (bool_decide_eq_false_1 _)|].
    apply no_line_feed_app; [|by apply (bool_decide_eq_false_1 _)].
    apply no_line_feed_join; [by apply (bool_decide_eq_false_1 _)|].
    apply Forall_fmap. rewrite forallb_forall in Hfloats.
    rewrite Forall_forall in IH |- *. intros kv Hkv. cbv beta.
    apply no_line_feed_app; [apply no_line_feed_encode_basestring|].
    apply no_line_feed_app; [by apply (bool_decide_eq_false_1 _)|].
    apply IH; [done|]. apply Hfloats. by apply list_elem_of_In.
Qed.

Lemma utf8_char_not_line_feed c : c <> 10%N -> 10%N ∉ utf8_char c.
Proof.
  intros Hc. unfold utf8_char.
  destruct (c <? 128)%N; [|destruct (c <? 2048)%N; [|destruct (c <? 65536)%N]];
    intros Hin;
    repeat (apply elem_of_cons in Hin as [Hin|Hin];
            [first [lia|zify; Z.to_euclidean_division_equations; lia]|]);
    by apply elem_of_nil in Hin.
Qed.

Lemma no_line_feed_utf8 (s : text) : 10%N ∉ s -> 10%N ∉ utf8 s.
Proof.
  induction s as [|c s IH]; [done|]. intros Hs.
  change (utf8 (c :: s)) with (utf8_char c ++ utf8 s).
  apply not_elem_of_cons in Hs as [Hc Hs].
  apply no_line_feed_app; [apply utf8_char_not_line_feed; congruence|by apply IH].
Qed.

(** X19. [_upload_json] encodes the document, written on one line and
    followed by one line feed, as UTF-8. When the document holds no
    surrogate it puts these bytes under the name, over whatever the name
    held, the last byte being the only line feed of the blob; it changes no
    other blob and uses neither the clock nor the API. When the document
    holds a surrogate it raises and stores nothing. *)
Theorem uploaded_blob_is_one_line (name : text) (obj : json) (w : FunctionApp.world) :
  floats_on_one_line obj = true ->
  (10%N ∉ utf8 (dumps obj))
  /\ if encodable (dumps obj)
     then FunctionApp._upload_json name obj w
          = (Ret tt,
             FunctionApp.mkWorld (<[name := utf8 (dumps obj) ++ [10%N]]> (FunctionApp.blobs w))
               (FunctionApp.now_calls w) (FunctionApp.post_calls w))
     else exists e, FunctionApp._upload_json name obj w = (Raise e, w).
Proof.
  intros Hfloats. split; [by apply no_line_feed_utf8, no_line_feed_dumps|].
  unfold FunctionApp._upload_json, encode_utf8. rewrite encodable_app.
  destruct (encodable (dumps obj)); cbn [andb].
  - change (encodable [10%N]) with true. cbv iota. by rewrite utf8_app.
  - by eexists.
Qed.

(** A Success artifact with a score. *)
Lemma uploaded_blob_is_one_line_witness :
  (10%N ∉ utf8 (dumps (success_document 0 1 (JArr [a_prediction])
                          (txt "2024-05-01T10:00:00Z"))))
  /\ if encodable (dumps (success_document 0 1 (JArr [a_prediction])
                            (txt "2024-05-01T10:00:00Z")))
     then FunctionApp._upload_json (txt "a.json")
            (success_document 0 1 (JArr [a_prediction]) (txt "2024-05-01T10:00:00Z"))
            (FunctionApp.start ∅)
          = (Ret tt,
             FunctionApp.mkWorld
               (<[txt "a.json" :=
                    utf8 (dumps (success_document 0 1 (JArr [a_prediction])
                                   (txt "2024-05-01T10:00:00Z"))) ++ [10%N]]>
                  (FunctionApp.blobs (FunctionApp.start ∅)))
               (FunctionApp.now_calls (FunctionApp.start ∅))
               (FunctionApp.post_calls (FunctionApp.start ∅)))
     else exists e,
            FunctionApp._upload_json (txt "a.json")
              (success_document 0 1 (JArr [a_prediction]) (txt "2024-05-01T10:00:00Z"))
              (FunctionApp.start ∅)
            = (Raise e, FunctionApp.start ∅).
Proof.
  apply (uploaded_blob_is_one_line (txt "a.json")
           (success_document 0 1 (JArr [a_prediction]) (txt "2024-05-01T10:00:00Z"))
           (FunctionApp.start ∅)).
  reflexivity.
Defined.

End Documents.
(** ** A document that cannot be encoded (lines 86 to 96 and 110) *)

Section Unencodable.

Import FunctionApp.

Lemma encode_error_is_unicode_error (s : text) pos :
  encodable s = false ->
  exists rest_,
    encode_error_from pos s
    = txt "UnicodeEncodeError: 'utf-8' codec can't encode character" ++ rest_.
Proof.
  revert pos. induction s as [|c s IH]; intros pos; [done|].
  cbn [encodable forallb encode_error_from].
  destruct (is_surrogate c); cbn [negb andb].
  - intros _. destruct (surrogate_run s); eexists; reflexivity.
  - apply IH.
Qed.

(** The turns of the loop whose documents can be encoded and whose
    responses have a length lead to the turn after them. *)
Lemma dispatch_loop_prefix cfg E name rows pre rest_ i total w :
  now_calls w = i -> post_calls w = i ->
  (forall j y, pre !! j = Some y ->
     encodable (dumps (chunk_document E (i + j) (batch_at cfg rows y))) = true
     /\ forall p, post E (i + j) (payload_of (batch_at cfg rows y)) = Ret p -> len p <> None) ->
  exists w1 total1,
    dispatch_loop cfg E name rows (pre ++ rest_) i total w
    = dispatch_loop cfg E name rows rest_ (i + length pre) total1 w1
    /\ now_calls w1 = i + length pre
    /\ post_calls w1 = i + length pre
    /\ (forall key, (forall j, j < length pre -> key <> _chunk_blob_name name (i + j)) ->
          blobs w1 !! key = blobs w !! key).
Proof.
  revert i total w. induction pre as [|y pre IH]; intros i total w Hnow Hpost Hpre.
  - exists w, total. simpl. rewrite Nat.add_0_r. done.
  - destruct (Hpre 0 y eq_refl) as [Hdoc Hlen]. rewrite Nat.add_0_r in Hdoc, Hlen.
    simpl app. rewrite dispatch_loop_cons. cbv zeta. rewrite Hnow, Hpost.
    apply encode_document in Hdoc. unfold chunk_document in Hdoc.
    assert (Hnext : forall data n,
      exists w1 total1,
        dispatch_loop cfg E name rows (pre ++ rest_) (i + 1) n
          (mkWorld (<[_chunk_blob_name name i := data]> (blobs w)) (S i) (S i))
        = dispatch_loop cfg E name rows rest_ (i + length (y :: pre)) total1 w1
        /\ now_calls w1 = i + length (y :: pre)
        /\ post_calls w1 = i + length (y :: pre)
        /\ (forall key, (forall j, j < length (y :: pre) ->
                           key <> _chunk_blob_name name (i + j)) ->
              blobs w1 !! key = blobs w !! key)).
    { intros data n. simpl length.
      replace (i + S (length pre)) with (i + 1 + length pre) by lia.
      destruct (IH (i + 1) n
                  (mkWorld (<[_chunk_blob_name name i := data]> (blobs w)) (S i) (S i)))
        as (w1 & total1 & Hrun & Hnow1 & Hpost1 & Hframe); [simpl; lia|simpl; lia| |].
      { intros j z Hz. replace (i + 1 + j) with (i + S j) by lia. by apply Hpre. }
      exists w1, total1. split; [exact Hrun|]. split; [done|]. split; [done|].
      intros key Hkey. rewrite Hframe.
      - cbn [blobs]. apply lookup_insert_ne. intros Heq. apply (Hkey 0); [lia|].
        by rewrite Nat.add_0_r.
      - intros j Hj. replace (i + 1 + j) with (i + S j) by lia. apply Hkey. lia. }
    destruct (post E i (payload_of (batch_at cfg rows y))) as [p|e] eqn:Hp; rewrite Hdoc.
    + destruct (len p) as [n|] eqn:Hn; [apply Hnext|]. by exfalso; apply (Hlen p).
    + apply Hnext.
Qed.

(** X21. The encoding of line 110 stands outside the [try]: when the
    document of batch [j] holds a surrogate (in the response body or in the
    error text), while the documents of the earlier batches could be
    encoded and their responses had a length, the run raises a
    [UnicodeEncodeError] after request [j]. Nothing is stored for batch
    [j], the later batches are never sent, and their names and the manifest
    name are left as they were. *)
Theorem unencodable_document_aborts (L : pylib) (cfg : config) (E : env) (name : text)
    (raw : list N) (c : gmap text text) (rows : list row) (bs : list (list row))
    (j : nat) (batch : list row) :
  parse L (read_text L raw) = Ret (Some rows) ->
  rows <> [] ->
  batches cfg rows = Some bs ->
  bs !! j = Some batch ->
  (forall j' b, j' < j -> bs !! j' = Some b ->
     encodable (dumps (chunk_document E j' b)) = true
     /\ forall p, post E j' (payload_of b) = Ret p -> len p <> None) ->
  encodable (dumps (chunk_document E j batch)) = false ->
  exists w rest_,
    process_blob L cfg E name raw (start c)
    = (Raise (txt "UnicodeEncodeError: 'utf-8' codec can't encode character" ++ rest_), w)
    /\ post_calls w = S j
    /\ blobs w !! _manifest_blob_name name = c !! _manifest_blob_name name
    /\ (forall j', j <= j' ->
          blobs w !! _chunk_blob_name name j' = c !! _chunk_blob_name name j').
Proof.
  intros Hparse Hrows Hbs Hj Hearlier Hdoc. unfold process_blob. rewrite Hparse.
  destruct rows as [|r rows]; [done|]. unfold batches in Hbs. unfold dispatch_all.
  destruct (range0 _ _) as [starts|]; [|done]. injection Hbs as <-.
  rewrite list_lookup_fmap in Hj.
  destruct (starts !! j) as [x|] eqn:Hx; [|done]. injection Hj as <-.
  pose proof (lookup_lt_Some _ _ _ Hx) as Hlt.
  destruct (dispatch_loop_prefix cfg E name (r :: rows) (take j starts)
              (x :: drop (S j) starts) 0 0 (start c))
    as (w1 & total1 & Hrun & Hnow1 & Hpost1 & Hframe); [done|done| |].
  { intros j' y Hy. apply lookup_take_Some in Hy as [Hy Hj'].
    apply (Hearlier j'); [done|]. by rewrite list_lookup_fmap, Hy. }
  rewrite take_drop_middle in Hrun by done. rewrite length_take_le in * by lia.
  change (0 + j) with j in *. unfold mbind, M_bind, bind. rewrite Hrun.
  rewrite dispatch_loop_cons. cbv zeta. rewrite Hnow1, Hpost1.
  assert (Hfail : encodable (dumps (chunk_document E j (batch_at cfg (r :: rows) x))
                             ++ [10%N]) = false).
  { by rewrite encodable_app, Hdoc. }
  destruct (encode_error_is_unicode_error _ 0 Hfail) as [rest_ Hmsg].
  unfold chunk_document in Hfail, Hmsg. unfold encode_utf8.
  exists (mkWorld (blobs w1) (S j) (S j)), rest_.
  destruct (post E j (payload_of (batch_at cfg (r :: rows) x))) as [p|e];
    rewrite Hfail, Hmsg; (split; [done|]; split; [done|]; cbn [blobs]; split;
      [apply Hframe; intros j' _ Heq; by apply (manifest_not_chunk name (0 + j'))
      |intros j' Hj'; apply Hframe; intros j'' Hj'' Heq;
       apply chunk_blob_name_inj in Heq; lia]).
Qed.

(** The file [sample_five], the first answer holding a lone surrogate. *)
Lemma unencodable_document_aborts_witness :
  exists w rest_,
    process_blob ascii_lib cfg2 env_surrogate sample_name sample_five (start ∅)
    = (Raise (txt "UnicodeEncodeError: 'utf-8' codec can't encode character" ++ rest_), w)
    /\ post_calls w = S 0
    /\ blobs w !! _manifest_blob_name sample_name
       = (∅ : gmap text text) !! _manifest_blob_name sample_name
    /\ (forall j', 0 <= j' ->
          blobs w !! _chunk_blob_name sample_name j'
          = (∅ : gmap text text) !! _chunk_blob_name sample_name j').
Proof.
  apply (unencodable_document_aborts ascii_lib cfg2 env_surrogate sample_name sample_five ∅
           five_rows five_batches 0
           [mkRow (txt "a") (txt "one"); mkRow (txt "b") (txt "two")]).
  - vm_compute. reflexivity.
  - discriminate.
  - vm_compute. reflexivity.
  - reflexivity.
  - intros j' b Hj'. lia.
  - vm_compute. reflexivity.
Defined.

End Unencodable.
